(** * The SOL NEMA airdrop engine (scripts/airdrop.py), embedded and verified

    The development follows [SolanaAirdropManager]: the recipient validator
    ([load_recipients]), the funding pre-flight ([validate_configuration]),
    the account provisioner ([check_and_create_token_accounts]), the
    checkpoint store ([save_progress] / [load_progress]) and the transfer
    executor ([execute_token_transfers_with_resume]).

    Python objects are modelled as follows.
    - [float] is IEEE binary64, taken from the Standard Library's executable
      specification [SpecFloat] (precision 53, emax 1024).
    - [self.recipients] is a list of records; a reference to a recipient
      (as held by [pending_recipients] and by every batch) is its index in
      that list, so that status writes made through a batch are seen through
      [self.recipients], as in the source.
    - The outside world (RPC node, clock, file system) is an oracle indexed
      by a tick counter; the progress file is a component of the state.
    - Exceptions are an outcome of the state monad [M]; [try_] is
      [try: ... except Exception: ...].

    The report generator, the configuration loader, the executor without
    resume, and the two companion scripts (scripts/check_holdings.py and
    scripts/sol_nema.py) follow the engine. *)

From Stdlib Require Import ZArith QArith Qabs Ascii String SpecFloat Lia.
From stdpp Require Import base option list gmap strings pretty.

#[local] Open Scope string_scope.
#[local] Open Scope list_scope.
#[local] Open Scope Z_scope.

(** ** Python floats *)

Module PyFloat.

Definition prec : Z := 53.
Definition emax : Z := 1024.

Definition float : Type := spec_float.

Definition zero : float := S754_zero false.

Definition is_finite (x : float) : bool :=
  match x with
  | S754_zero _ | S754_finite _ _ _ => true
  | S754_infinity _ | S754_nan => false
  end.

(** [float(n)] for a Python int [n], also the implicit conversion in
    [float * int]: rounded to nearest-even, [OverflowError] ([None]) when
    the integer is too large. *)
Definition of_int (n : Z) : option float :=
  match binary_normalize prec emax n 0 false with
  | S754_infinity _ => None
  | x => Some x
  end.

(** [float(s)] for a string [s] of decimal digits: the nearest float, an
    infinity when the number is too large (no exception). *)
Definition of_digits (n : Z) : float := binary_normalize prec emax n 0 false.

Definition mul : float → float → float := SFmul prec emax.
Definition add : float → float → float := SFadd prec emax.
Definition div : float → float → float := SFdiv prec emax.
Definition leb : float → float → bool := SFleb.
Definition ltb : float → float → bool := SFltb.

(** [a / b] for Python ints [a >= 0], [b > 0] (true division): the
    correctly rounded quotient. *)
Definition int_truediv (a b : Z) : float :=
  match a with
  | Z0 => zero
  | _ =>
      let '(q, e, l) := SFdiv_core_binary prec emax (Z.abs a) 0 (Z.abs b) 0 in
      binary_round_aux prec emax (xorb (a <? 0) (b <? 0)) q e l
  end.

(** A short decimal literal [m / 10^k] (both exactly representable) as the
    nearest binary64 value, which is what [float("...")] returns. *)
Definition of_decimal (m : Z) (k : nat) : float :=
  int_truediv m (10 ^ Z.of_nat k).

(** [int(x)]: the fractional bits are dropped; [ValueError] on NaN and
    [OverflowError] on an infinity ([None]). *)
Definition to_int (x : float) : option Z :=
  match x with
  | S754_zero _ => Some 0
  | S754_finite s m e =>
      Some (cond_Zopp s (if 0 <=? e then Z.shiftl (Zpos m) e
                         else Z.shiftr (Zpos m) (- e)))
  | S754_infinity _ | S754_nan => None
  end.

(** The exact rational value of a finite float, [(-1)^s * m * 2^e]. *)
Definition value (x : float) : Q :=
  match x with
  | S754_finite s m e =>
      if 0 <=? e then Qmake (cond_Zopp s (Zpos m * 2 ^ e)) 1
      else Qmake (cond_Zopp s (Zpos m)) (Z.to_pos (2 ^ (- e)))
  | _ => Qmake 0 1
  end.

End PyFloat.

Abbreviation float := PyFloat.float.

(** Truncation toward zero of a rational, as the specification words it. *)
Definition truncate_toward_zero (x : Q) : Z :=
  Z.quot (Qnum x) (Zpos (Qden x)).

(** Rounding to the nearest integer (half away from zero), for contrast. *)
Definition round_to_nearest (x : Q) : Z :=
  truncate_toward_zero (x + (if Qle_bool 0 x then 1 # 2 else - (1 # 2)))%Q.

(** ** More of the runtime: [time.sleep] and true division *)

(** [time.sleep(d)] for a float [d] (CPython 3.7 and later): [ValueError]
    when [d] is NaN or negative, [OverflowError] when the number of
    nanoseconds [d * 1e9] does not fit a signed 64-bit integer; otherwise
    the call returns after the pause. [true] stands for "returns". *)
Definition sleep_returns (d : float) : bool :=
  PyFloat.leb PyFloat.zero d
  && PyFloat.ltb (PyFloat.mul d (PyFloat.of_digits 1000000000))
       (PyFloat.of_digits (2 ^ 63)).

(** The quotients of magnitude [2^1024 - 2^970] and more round to a float
    beyond the largest one (the bound is half-way between that float,
    [2^1024 - 2^971], and [2^1024]; the tie goes to the even
    neighbour, [2^1024]). *)
Definition overflow_bound : Z := 2 ^ 1024 - 2 ^ 970.

(** [a / b] for Python ints: [ZeroDivisionError] when [b] is zero,
    [OverflowError] when the quotient is too large for a float ([None]);
    otherwise the correctly rounded quotient. *)
Definition py_truediv (a b : Z) : option float :=
  if b =? 0 then None
  else if overflow_bound * Z.abs b <=? Z.abs a then None
  else Some (PyFloat.int_truediv a b).

(** ** Library functions the script calls

    [Pubkey.from_string], [get_associated_token_address], [str.strip],
    [int(str)] and [float(str)] are functions of solders, spl-token and the
    Python runtime.
    They are pure; the development is parametric in them. [None] stands for
    the exception each of them raises on bad input. *)

Class Platform := {
  Pubkey : Type;
  Pubkey_from_string : string → option Pubkey;
  get_associated_token_address : Pubkey → Pubkey → Pubkey;
  py_strip : string → string;
  py_int : string → option Z;
  py_float : string → option float;
}.

(** ** Data model *)

(** [AirdropConfig], the fields the engine reads. [token_decimals] is a count
    of decimal places; the two delays are handed to [time.sleep] as they
    were read from the environment. *)
Record AirdropConfig `{Platform} := {
  source_pubkey : Pubkey;           (* source_keypair.pubkey() *)
  token_mint : Pubkey;
  phase : Z;
  dry_run : bool;
  batch_size : Z;
  delay_between_batches : float;
  rpc_check_delay : float;
  rpc_check_batch : Z;
  max_retries : Z;
  token_decimals : nat;
}.

(** [Recipient]. *)
Record Recipient `{Platform} := {
  sol_wallet : string;
  worm_balance : Z;
  sol_nema_tokens : float;
  pubkey : option Pubkey;
  token_account : option Pubkey;
  status : string;
}.

Definition with_status `{Platform} (v : string) (r : Recipient) : Recipient :=
  {| sol_wallet := sol_wallet r; worm_balance := worm_balance r;
     sol_nema_tokens := sol_nema_tokens r; pubkey := pubkey r;
     token_account := token_account r; status := v |}.

Definition with_token_account `{Platform} (a : Pubkey) (r : Recipient) : Recipient :=
  {| sol_wallet := sol_wallet r; worm_balance := worm_balance r;
     sol_nema_tokens := sol_nema_tokens r; pubkey := pubkey r;
     token_account := Some a; status := status r |}.

(** [r.status in ['success', 'failed', 'skipped']] *)
Definition is_terminal (v : string) : bool :=
  bool_decide (v = "success") || bool_decide (v = "failed")
  || bool_decide (v = "skipped").

Definition is_pending (v : string) : bool := bool_decide (v = "pending").

(** *** The progress file

    A JSON document is represented by the view the loader takes of it: an
    object in which each key of the schema may be absent ([.get] and
    [r['...']] tell the two apart). Text that [json.load] rejects, such as an
    empty or a cut-off file, is [Garbled]. *)
Record progress_entry := {
  pe_sol_wallet : option string;
  pe_sol_nema_tokens : option float;
  pe_status : option string;
}.

Record progress_data := {
  pd_timestamp : option Z;
  pd_phase : option Z;
  pd_total_recipients : option Z;
  pd_successful_transfers : option Z;
  pd_failed_transfers : option Z;
  pd_skipped_transfers : option Z;
  pd_recipients : option (list progress_entry);
}.

Inductive text := Garbled | Document (d : progress_data).

Inductive file :=
  | Missing                 (* os.path.exists is False *)
  | Unreadable              (* exists, open(..., 'r') raises *)
  | Contents (t : text).

(** *** The outside world *)

(** Answer of the RPC node to one call: a response whose [.value] is
    present (with its numeric payload, where the caller reads one), a
    response whose [.value] is [None], or an exception. *)
Inductive rpc_reply := Value (v : Z) | Null | Raises.

(** What happens to one [open(progress_file, 'w')] + [json.dump]: it
    completes; [open] raises and the file is untouched; or the file is
    opened (hence truncated) and the dump stops before the document is
    complete. *)
Inductive write_fate := Completes | OpenFails | CutShort.

Record World := {
  rpc : nat → rpc_reply;
  fs_write : nat → write_fate;
  clock : nat → Z;                  (* int(time.time()) *)
}.

(** One CSV row as [csv.DictReader] yields it: a dict from column name to
    cell, where a cell missing from a short row is [None]. *)
Abbreviation row := (gmap string (option string)).

Inductive csv_file :=
  | CsvMissing              (* os.path.exists is False *)
  | CsvUnreadable           (* open raises *)
  | CsvRows (rows : list row).

(** Instructions placed in a transaction. *)
Inductive instruction `{Platform} :=
  | TransferChecked (source mint dest owner : Pubkey) (amount : Z) (decimals : nat)
  | CreateAssociatedTokenAccount (payer owner mint : Pubkey).

(** The journal records, newest first, what the run did: every assignment
    to a recipient's [status], every transaction handed to
    [send_transaction] (each instruction tagged with the index of the
    recipient it was built for), every write of the progress file, and the
    log lines of the guard and retry branches. *)
Inductive event `{Platform} :=
  | StatusSet (i : nat) (old new : string)
  | SentBatch (batch : list nat) (tx : list (nat * instruction)) (reply : rpc_reply)
  | SentSingle (i attempt : nat) (ix : instruction) (reply : rpc_reply)
  | SentCreate (tx : list (nat * instruction)) (reply : rpc_reply)
  | FileOpenedForWrite
  | LogInvalidPubkey (i : nat)        (* "Skipping recipient ... - invalid pubkey" *)
  | LogSkipTransfer (i : nat)         (* "Skipping transfer for ... - missing pubkey or token account" *)
  | LogCannotTransfer (i : nat)       (* "Cannot transfer to ... - missing pubkey or token account" *)
  | LogAttemptFailed (i attempt : nat)
  | LogGaveUp (i : nat).              (* "Failed to transfer to ... after N attempts" *)

(** [SolanaAirdropManager]'s mutable fields, together with the progress
    file, the tick counter of the world and the journal. *)
Record Manager `{Platform} := {
  recipients : list Recipient;
  successful_transfers : Z;
  failed_transfers : Z;
  skipped_transfers : Z;
  progress_file : file;
  tick : nat;
  journal : list event;
}.

(** [SolanaAirdropManager.__init__] *)
Definition new_manager `{Platform} (disk : file) : Manager :=
  {| recipients := []; successful_transfers := 0; failed_transfers := 0;
     skipped_transfers := 0; progress_file := disk; tick := 0; journal := [] |}.

(** ** The monad of the embedding: state and exceptions *)

Inductive outcome (A : Type) :=
  | Done (a : A)
  | Raised.
Arguments Done {A} a.
Arguments Raised {A}.

Definition M `{Platform} (A : Type) : Type := Manager → outcome A * Manager.

Definition ret `{Platform} {A} (a : A) : M A := λ s, (Done a, s).

Definition bind `{Platform} {A B} (m : M A) (k : A → M B) : M B :=
  λ s, match m s with
       | (Done a, s') => k a s'
       | (Raised, s') => (Raised, s')
       end.

Definition raise `{Platform} {A} : M A := λ s, (Raised, s).

(** [try: m  except Exception: h]; what [m] changed before raising stays. *)
Definition try_ `{Platform} {A} (m h : M A) : M A :=
  λ s, match m s with
       | (Done a, s') => (Done a, s')
       | (Raised, s') => h s'
       end.

Notation "'let*' x ':=' m 'in' k" := (bind m (λ x, k))
  (at level 10, x pattern, m at level 100, k at level 200, only parsing).
Notation "m ';;' k" := (bind m (λ _, k))
  (at level 100, k at level 200, right associativity, only parsing).

Definition gets `{Platform} {A} (f : Manager → A) : M A := λ s, (Done (f s), s).
Definition modify `{Platform} (f : Manager → Manager) : M unit := λ s, (Done (), f s).

(** [x = opt] where [None] models a raising library call. *)
Definition or_raise `{Platform} {A} (o : option A) : M A :=
  match o with Some a => ret a | None => raise end.

Fixpoint for_each `{Platform} {A} (l : list A) (body : A → M unit) : M unit :=
  match l with
  | [] => ret ()
  | x :: l' => body x ;; for_each l' body
  end.

(** A loop that accumulates a local counter. *)
Fixpoint sum_each `{Platform} {A} (l : list A) (body : A → M Z) : M Z :=
  match l with
  | [] => ret 0
  | x :: l' => let* n := body x in let* m := sum_each l' body in ret (n + m)
  end.

(** [time.sleep(d)]; the pause itself changes nothing. *)
Definition py_sleep `{Platform} (d : float) : M unit :=
  if sleep_returns d then ret () else raise.

(** The batch loops end their body with
    [if i + batch_size < len(xs): time.sleep(d)], where [i] is the loop
    variable of [range(0, len(xs), batch_size)]: the test holds exactly
    when the range has a next element, that is when another batch follows.
    [for_each_paused] and [sum_each_paused] are [for_each] and [sum_each]
    with that [pause] after every pass but the last. *)
Fixpoint for_each_paused `{Platform} {A} (pause : M unit) (l : list A)
    (body : A → M unit) : M unit :=
  match l with
  | [] => ret ()
  | x :: l' =>
      body x ;;
      match l' with [] => ret () | _ :: _ => pause end ;;
      for_each_paused pause l' body
  end.

Fixpoint sum_each_paused `{Platform} {A} (pause : M unit) (l : list A)
    (body : A → M Z) : M Z :=
  match l with
  | [] => ret 0
  | x :: l' =>
      let* n := body x in
      match l' with [] => ret () | _ :: _ => pause end ;;
      let* m := sum_each_paused pause l' body in
      ret (n + m)
  end.

Definition state_of `{Platform} {A} (r : outcome A * Manager) : Manager := snd r.
Definition result_of `{Platform} {A} (r : outcome A * Manager) : outcome A := fst r.

(** *** Field updates *)

Definition set_recipients `{Platform} (rs : list Recipient) (s : Manager) : Manager :=
  {| recipients := rs; successful_transfers := successful_transfers s;
     failed_transfers := failed_transfers s; skipped_transfers := skipped_transfers s;
     progress_file := progress_file s; tick := tick s; journal := journal s |}.

Definition set_counters `{Platform} (ok failed skipped : Z) (s : Manager) : Manager :=
  {| recipients := recipients s; successful_transfers := ok;
     failed_transfers := failed; skipped_transfers := skipped;
     progress_file := progress_file s; tick := tick s; journal := journal s |}.

Definition set_progress_file `{Platform} (f : file) (s : Manager) : Manager :=
  {| recipients := recipients s; successful_transfers := successful_transfers s;
     failed_transfers := failed_transfers s; skipped_transfers := skipped_transfers s;
     progress_file := f; tick := tick s; journal := journal s |}.

Definition next_tick `{Platform} (s : Manager) : Manager :=
  {| recipients := recipients s; successful_transfers := successful_transfers s;
     failed_transfers := failed_transfers s; skipped_transfers := skipped_transfers s;
     progress_file := progress_file s; tick := S (tick s); journal := journal s |}.

Definition record `{Platform} (e : event) (s : Manager) : Manager :=
  {| recipients := recipients s; successful_transfers := successful_transfers s;
     failed_transfers := failed_transfers s; skipped_transfers := skipped_transfers s;
     progress_file := progress_file s; tick := tick s; journal := e :: journal s |}.

Definition log `{Platform} (e : event) : M unit := modify (record e).

Definition add_successful `{Platform} (n : Z) : M unit :=
  modify (λ s, set_counters (successful_transfers s + n) (failed_transfers s)
                 (skipped_transfers s) s).
Definition add_failed `{Platform} (n : Z) : M unit :=
  modify (λ s, set_counters (successful_transfers s) (failed_transfers s + n)
                 (skipped_transfers s) s).
Definition add_skipped `{Platform} (n : Z) : M unit :=
  modify (λ s, set_counters (successful_transfers s) (failed_transfers s)
                 (skipped_transfers s + n) s).

(** Dereference of a recipient reference. References are indices taken from
    [self.recipients] itself, so the lookup cannot fail in a run. *)
Definition recipient_at `{Platform} (i : nat) : M Recipient :=
  λ s, match recipients s !! i with
       | Some r => (Done r, s)
       | None => (Raised, s)
       end.

(** [recipient.status = v] *)
Definition set_status `{Platform} (i : nat) (v : string) : M unit :=
  λ s, match recipients s !! i with
       | Some r =>
           (Done (), record (StatusSet i (status r) v)
                       (set_recipients (<[i := with_status v r]> (recipients s)) s))
       | None => (Raised, s)
       end.

(** [recipient.token_account = a] *)
Definition set_token_account `{Platform} (i : nat) (a : Pubkey) : M unit :=
  λ s, match recipients s !! i with
       | Some r =>
           (Done (), set_recipients (<[i := with_token_account a r]> (recipients s)) s)
       | None => (Raised, s)
       end.

(** ** The engine *)

Section Engine.
Context `{Platform} (w : World) (cfg : AirdropConfig).

(** One call to the RPC node. *)
Definition rpc_call : M rpc_reply :=
  λ s, (Done (rpc w (tick s)), next_tick s).

Definition now : M Z :=
  λ s, (Done (clock w (tick s)), next_tick s).

(** [self.rpc_client.get_latest_blockhash().value.blockhash] *)
Definition get_latest_blockhash : M unit :=
  let* r := rpc_call in
  match r with
  | Value _ => ret ()
  | Null | Raises => raise
  end.

(** The reply of [send_transaction], or its exception. *)
Definition sent (r : rpc_reply) : M bool :=
  match r with
  | Value _ => ret true             (* result.value is a signature *)
  | Null => ret false
  | Raises => raise
  end.

(** *** Recipient Validator *)

(** [f'phase{self.config.phase}_tokens'] *)
Definition phase_column : string := "phase" +:+ pretty (phase cfg) +:+ "_tokens".

Definition new_recipient (wallet : string) (balance : Z) (tokens : float)
    (key : Pubkey) : Recipient :=
  {| sol_wallet := wallet; worm_balance := balance; sol_nema_tokens := tokens;
     pubkey := Some key; token_account := None; status := "pending" |}.

(** [_parse_recipient_row]; every exception is caught and gives [None].
    [row['k']] raises on an absent key, [.strip()], [int(...)] and
    [float(...)] raise on a [None] cell. *)
Definition _parse_recipient_row (r : row) : option Recipient :=
  match r !! "sol_wallet", r !! "worm_balance", r !! phase_column with
  | Some (Some wallet_cell), Some (Some balance_cell), Some (Some tokens_cell) =>
      let sol_wallet := py_strip wallet_cell in
      match py_int balance_cell, py_float tokens_cell, Pubkey_from_string sol_wallet with
      | Some worm_balance, Some sol_nema_tokens, Some key =>
          if PyFloat.leb sol_nema_tokens PyFloat.zero then None
          else Some (new_recipient sol_wallet worm_balance sol_nema_tokens key)
      | _, _, _ => None
      end
  | _, _, _ => None
  end.

(** [load_recipients] *)
Definition load_recipients (csv : csv_file) : M bool :=
  match csv with
  | CsvMissing | CsvUnreadable => ret false
  | CsvRows rows =>
      for_each rows (λ r,
        match _parse_recipient_row r with
        | Some rcp => modify (λ s, set_recipients (recipients s ++ [rcp]) s)
        | None => ret ()
        end) ;;
      let* n := gets (λ s, length (recipients s)) in
      ret (bool_decide (0 < n)%nat)
  end.

(** *** Funding Validator *)

(** [sum(r.sol_nema_tokens for r in self.recipients)] *)
Definition total_tokens (rs : list Recipient) : float :=
  fold_left PyFloat.add (map sol_nema_tokens rs) PyFloat.zero.

(** [validate_configuration]. It reads two balances over RPC and changes
    nothing. The comparison with the expected phase total only logs. *)
Definition validate_configuration : M bool :=
  try_
    (let* balance := rpc_call in                  (* get_balance *)
     match balance with
     | Null | Raises => raise
     | Value lamports =>
         let sol_balance_sol := PyFloat.int_truediv lamports 1000000000 in
         let* n := gets (λ s, length (recipients s)) in
         let* n_float := or_raise (PyFloat.of_int (Z.of_nat n)) in
         let estimated_sol_needed := PyFloat.mul n_float (PyFloat.of_decimal 1 2) in
         if PyFloat.ltb sol_balance_sol estimated_sol_needed then ret false
         else
           let* token_balance :=
             try_
               (let* reply := rpc_call in         (* get_token_account_balance *)
                match reply with
                | Null | Raises => raise
                | Value amount =>
                    let raw := PyFloat.of_digits amount in
                    let* scale := or_raise (PyFloat.of_int (10 ^ Z.of_nat (token_decimals cfg))) in
                    ret (Some (PyFloat.div raw scale))
                end)
               (ret None) in
           match token_balance with
           | None => ret false
           | Some source_token_balance =>
               let* total := gets (λ s, total_tokens (recipients s)) in
               if PyFloat.ltb source_token_balance total then ret false
               else ret true
           end
     end)
    (ret false).

(** *** Batching

    [for i in range(0, len(xs), n): batch = xs[i:i + n]] visits
    [take n xs], [take n (drop n xs)], ... when [n > 0], and nothing when
    [n < 0]. *)
Fixpoint chunks {A} (fuel n : nat) (xs : list A) : list (list A) :=
  match fuel, xs with
  | S fuel', _ :: _ => take n xs :: chunks fuel' n (drop n xs)
  | _, _ => []
  end.

Definition batches {A} (n : Z) (xs : list A) : list (list A) :=
  if n <=? 0 then [] else chunks (length xs) (Z.to_nat n) xs.

(** *** Account Provisioner *)

Definition create_ix (owner : Pubkey) : instruction :=
  CreateAssociatedTokenAccount (source_pubkey cfg) owner (token_mint cfg).

(** [_create_single_token_account] *)
Definition _create_single_token_account (i : nat) : M bool :=
  try_
    (let* r := recipient_at i in
     match pubkey r with
     | None => ret false
     | Some key =>
         get_latest_blockhash ;;
         let* reply := rpc_call in
         log (SentCreate [(i, create_ix key)] reply) ;;
         sent reply
     end)
    (ret false).

Fixpoint build_create_tx (batch : list nat) : M (list (nat * instruction)) :=
  match batch with
  | [] => ret []
  | i :: rest =>
      let* r := recipient_at i in
      let* tx := build_create_tx rest in
      match pubkey r with
      | None => ret tx
      | Some key => ret ((i, create_ix key) :: tx)
      end
  end.

(** [_create_token_accounts_batch]; the batch size 5 is the source's. *)
Definition _create_token_accounts_batch (todo : list nat) : M bool :=
  if dry_run cfg then ret true
  else
    let* success_count :=
      sum_each_paused (py_sleep (delay_between_batches cfg)) (batches 5 todo) (λ batch,
        try_
          (get_latest_blockhash ;;
           let* tx := build_create_tx batch in
           let* reply := rpc_call in
           log (SentCreate tx reply) ;;
           let* ok := sent reply in
           ret (if ok then Z.of_nat (length batch) else 0))
          (sum_each batch (λ i,
             let* ok := _create_single_token_account i in
             ret (if ok then 1 else 0)))) in
    ret (bool_decide (success_count = Z.of_nat (length todo))).

(** The existence check of one account: missing, or the check raised. *)
Definition account_missing : M bool :=
  try_
    (let* info := rpc_call in                     (* get_account_info *)
     match info with
     | Value _ => ret false
     | Null => ret true
     | Raises => raise
     end)
    (ret true).

(** The end of the body of that loop, for the recipient of index [i]:
    [if (i + 1) % rpc_check_batch == 0: time.sleep(rpc_check_delay)]. The
    remainder raises when the divisor is zero. *)
Definition rate_limit (i : nat) : M unit :=
  if rpc_check_batch cfg =? 0 then raise
  else if (Z.of_nat i + 1) mod rpc_check_batch cfg =? 0
       then py_sleep (rpc_check_delay cfg)
       else ret ().

(** The loop of [check_and_create_token_accounts]; the result is
    [accounts_to_create]. *)
Fixpoint check_accounts (idx : list nat) : M (list nat) :=
  match idx with
  | [] => ret []
  | i :: rest =>
      let* r := recipient_at i in
      match pubkey r with
      | None =>
          log (LogInvalidPubkey i) ;;
          set_status i "skipped" ;;
          add_skipped 1 ;;
          check_accounts rest
      | Some key =>
          set_token_account i (get_associated_token_address key (token_mint cfg)) ;;
          let* missing := account_missing in
          rate_limit i ;;
          let* more := check_accounts rest in
          ret (if missing then i :: more else more)
      end
  end.

(** [check_and_create_token_accounts] *)
Definition check_and_create_token_accounts : M bool :=
  let* n := gets (λ s, length (recipients s)) in
  let* accounts_to_create := check_accounts (seq 0 n) in
  match accounts_to_create with
  | [] => ret true
  | _ => _create_token_accounts_batch accounts_to_create
  end.

(** *** Checkpoint Store *)

Definition entry_of (r : Recipient) : progress_entry :=
  {| pe_sol_wallet := Some (sol_wallet r);
     pe_sol_nema_tokens := Some (sol_nema_tokens r);
     pe_status := Some (status r) |}.

(** The dict [progress_data] built by [save_progress]. *)
Definition snapshot (timestamp : Z) (s : Manager) : progress_data :=
  {| pd_timestamp := Some timestamp;
     pd_phase := Some (phase cfg);
     pd_total_recipients := Some (Z.of_nat (length (recipients s)));
     pd_successful_transfers := Some (successful_transfers s);
     pd_failed_transfers := Some (failed_transfers s);
     pd_skipped_transfers := Some (skipped_transfers s);
     pd_recipients := Some (map entry_of (recipients s)) |}.

Definition fate_of_write : M write_fate :=
  λ s, (Done (fs_write w (tick s)), next_tick s).

(** [open(self.config.progress_file, 'w')]: mode ['w'] creates the file or
    truncates it in place; until something is written it is empty. *)
Definition open_for_write (fate : write_fate) : M unit :=
  match fate with
  | OpenFails => raise
  | Completes | CutShort =>
      log FileOpenedForWrite ;;
      modify (set_progress_file (Contents Garbled))
  end.

(** [json.dump(progress_data, f, indent=2)] into the file just opened: the
    document is written piece by piece into that same file. *)
Definition json_dump (fate : write_fate) (d : progress_data) : M unit :=
  match fate with
  | Completes => modify (set_progress_file (Contents (Document d)))
  | OpenFails | CutShort => raise
  end.

(** [save_progress] *)
Definition save_progress : M unit :=
  try_
    (let* timestamp := now in
     let* progress_data := gets (snapshot timestamp) in
     let* fate := fate_of_write in
     open_for_write fate ;;
     json_dump fate progress_data)
    (ret ()).

(** [{r['sol_wallet']: r['status'] for r in ...}]: a later entry replaces an
    earlier one with the same wallet; an entry without one of the two keys
    raises. *)
Definition progress_statuses (entries : list progress_entry) : option (gmap string string) :=
  foldl (λ acc e,
           match acc, pe_sol_wallet e, pe_status e with
           | Some d, Some wallet, Some v => Some (<[wallet := v]> d)
           | _, _, _ => None
           end)
        (Some ∅) entries.

(** The loop restoring [recipient.status] from the dict. *)
Definition restore_statuses (progress_recipients : gmap string string) : M unit :=
  let* n := gets (λ s, length (recipients s)) in
  for_each (seq 0 n) (λ i,
    let* r := recipient_at i in
    match progress_recipients !! sol_wallet r with
    | Some v => set_status i v
    | None => ret ()
    end).

(** [load_progress] *)
Definition load_progress : M bool :=
  try_
    (let* f := gets progress_file in
     match f with
     | Missing => ret false
     | Unreadable => raise                        (* open(...) *)
     | Contents Garbled => raise                  (* json.load(f) *)
     | Contents (Document progress_data) =>
         if negb (bool_decide (pd_phase progress_data = Some (phase cfg)))
         then ret false
         else
           let* n := gets (λ s, length (recipients s)) in
           if negb (bool_decide (pd_total_recipients progress_data = Some (Z.of_nat n)))
           then ret false
           else
             modify (set_counters
                       (default 0 (pd_successful_transfers progress_data))
                       (default 0 (pd_failed_transfers progress_data))
                       (default 0 (pd_skipped_transfers progress_data))) ;;
             let* progress_recipients :=
               or_raise (progress_statuses (default [] (pd_recipients progress_data))) in
             restore_statuses progress_recipients ;;
             ret true
     end)
    (ret false).

(** *** Transfer Executor *)

(** References to the recipients with [r.status == 'pending'], in list
    order; [k] is the index of the head of [rs]. *)
Fixpoint pending_from (k : nat) (rs : list Recipient) : list nat :=
  match rs with
  | [] => []
  | r :: rs' =>
      if is_pending (status r) then k :: pending_from (S k) rs'
      else pending_from (S k) rs'
  end.

(** [get_pending_recipients] *)
Definition get_pending_recipients : M (list nat) :=
  gets (λ s, pending_from 0 (recipients s)).

(** [int(recipient.sol_nema_tokens * (10 ** self.config.token_decimals))] *)
Definition token_amount_raw (r : Recipient) : option Z :=
  scale ← PyFloat.of_int (10 ^ Z.of_nat (token_decimals cfg));
  PyFloat.to_int (PyFloat.mul (sol_nema_tokens r) scale).

Definition source_token_account : Pubkey :=
  get_associated_token_address (source_pubkey cfg) (token_mint cfg).

(** The [transfer_checked] instruction both transfer paths build. *)
Definition transfer_ix (r : Recipient) (dest : Pubkey) : option instruction :=
  amount ← token_amount_raw r;
  Some (TransferChecked source_token_account (token_mint cfg) dest
          (source_pubkey cfg) amount (token_decimals cfg)).

(** The instruction loop of [_execute_transfer_batch]. *)
Fixpoint build_transfer_tx (batch : list nat) : M (list (nat * instruction)) :=
  match batch with
  | [] => ret []
  | i :: rest =>
      let* r := recipient_at i in
      match pubkey r, token_account r with
      | Some _, Some dest =>
          let* ix := or_raise (transfer_ix r dest) in
          let* tx := build_transfer_tx rest in
          ret ((i, ix) :: tx)
      | _, _ =>
          log (LogSkipTransfer i) ;;
          build_transfer_tx rest
      end
  end.

(** [_execute_transfer_batch] *)
Definition _execute_transfer_batch (batch : list nat) : M bool :=
  try_
    (get_latest_blockhash ;;
     let* tx := build_transfer_tx batch in
     let* reply := rpc_call in
     log (SentBatch batch tx reply) ;;
     let* ok := sent reply in
     if ok then
       for_each batch (λ i, set_status i "success") ;;
       ret true
     else ret false)
    (ret false).

(** One pass through the body of the retry loop of
    [_execute_single_transfer]: [try: ... except Exception: ...]. *)
Definition single_attempt (i : nat) (r : Recipient) (dest : Pubkey)
    (attempt : nat) : M bool :=
  try_
    (let* ix := or_raise (transfer_ix r dest) in
     get_latest_blockhash ;;
     let* reply := rpc_call in
     log (SentSingle i attempt ix reply) ;;
     let* ok := sent reply in
     if ok then ret true
     else log (LogAttemptFailed i attempt) ;; ret false)
    (log (LogAttemptFailed i attempt) ;; ret false).

(** The retry loop, [for attempt in range(max_retries)]: [n] attempts are
    left and [attempt] is the loop variable. *)
Fixpoint single_attempts (i : nat) (r : Recipient) (dest : Pubkey)
    (attempt n : nat) : M bool :=
  match n with
  | O => log (LogGaveUp i) ;; ret false
  | S n' =>
      let* ok := single_attempt i r dest attempt in
      if ok then ret true
      else single_attempts i r dest (S attempt) n'
  end.

(** [_execute_single_transfer] *)
Definition _execute_single_transfer (i : nat) : M bool :=
  let* r := recipient_at i in
  match pubkey r, token_account r with
  | Some _, Some dest => single_attempts i r dest 0 (Z.to_nat (max_retries cfg))
  | _, _ => log (LogCannotTransfer i) ;; ret false
  end.

(** The per-recipient fallback after a failed batch. *)
Definition fallback (batch : list nat) : M unit :=
  for_each batch (λ i,
    let* ok := _execute_single_transfer i in
    if ok then add_successful 1 ;; set_status i "success"
    else add_failed 1 ;; set_status i "failed").

(** The body of the batch loop of [execute_token_transfers_with_resume]. *)
Definition process_batch (batch : list nat) : M unit :=
  let* ok := _execute_transfer_batch batch in
  (if ok then
     add_successful (Z.of_nat (length batch)) ;;
     for_each batch (λ i, set_status i "success")
   else fallback batch) ;;
  save_progress.

(** The dry-run branch. *)
Definition dry_run_marking (pending_recipients : list nat) : M unit :=
  for_each pending_recipients (λ i,
    set_status i "success" ;; add_successful 1).

(** [success_rate = (self.successful_transfers / len(self.recipients)) * 100],
    computed for the log line that ends both executors; the division can
    raise. *)
Definition success_rate : M float :=
  let* n := gets successful_transfers in
  let* total := gets (λ s, length (recipients s)) in
  let* ratio := or_raise (py_truediv n (Z.of_nat total)) in
  ret (PyFloat.mul ratio (PyFloat.of_digits 100)).

(** [execute_token_transfers_with_resume]. [total_batches] divides by
    [batch_size] and raises when it is zero; the pause between two batches
    and the success rate are outside any [try]. *)
Definition execute_token_transfers_with_resume : M bool :=
  load_progress ;;
  let* pending_recipients := get_pending_recipients in
  match pending_recipients with
  | [] => ret true
  | _ =>
      if dry_run cfg then
        dry_run_marking pending_recipients ;;
        ret true
      else if batch_size cfg =? 0 then raise
      else
        for_each_paused (py_sleep (delay_between_batches cfg))
          (batches (batch_size cfg) pending_recipients) process_batch ;;
        success_rate ;;
        let* n := gets successful_transfers in
        ret (bool_decide (0 < n))
  end.

(** [run_airdrop] *)
Definition run_airdrop (csv : csv_file) : M bool :=
  try_
    (let* loaded := load_recipients csv in
     if negb loaded then ret false
     else
       let* valid := validate_configuration in
       if negb valid then ret false
       else
         let* provisioned := check_and_create_token_accounts in
         if negb provisioned then ret false
         else
           let* transferred := execute_token_transfers_with_resume in
           if negb transferred then ret false
           else ret true)
    (ret false).

(** The steps of [run_airdrop] that precede the transfer step. *)
Definition preflight (csv : csv_file) : M bool :=
  let* loaded := load_recipients csv in
  if negb loaded then ret false
  else
    let* valid := validate_configuration in
    if negb valid then ret false
    else check_and_create_token_accounts.

End Engine.

(** ** A reference platform

    A concrete instance of the library functions, on which the model can be
    run: base58 public keys of 32 bytes (kept as their text), decimal
    integer literals, and decimal float literals [d+] or [d+.d+] with an
    optional sign, converted with correct rounding. *)

Module Reference.

Definition base58_alphabet : string :=
  "123456789ABCDEFGHJKLMNPQRSTUVWXYZabcdefghijkmnopqrstuvwxyz".

Fixpoint base58_value (acc : Z) (s : string) : option Z :=
  match s with
  | EmptyString => Some acc
  | String c s' =>
      match index 0 (String c EmptyString) base58_alphabet with
      | Some d => base58_value (acc * 58 + Z.of_nat d) s'
      | None => None
      end
  end.

Fixpoint leading_ones (s : string) : nat :=
  match s with
  | String c s' => if Ascii.eqb c "1"%char then S (leading_ones s') else O
  | EmptyString => O
  end.

Definition byte_length (n : Z) : nat :=
  if n <=? 0 then O else Z.to_nat (Z.log2 n / 8 + 1).

(** [Pubkey.from_string]: at most 44 characters that decode to 32 bytes. *)
Definition from_string (s : string) : option string :=
  if (44 <? String.length s)%nat then None
  else
    match base58_value 0 s with
    | Some n =>
        if (leading_ones s + byte_length n =? 32)%nat then Some s else None
    | None => None
    end.

Definition is_space (c : Ascii.ascii) : bool :=
  let n := Ascii.nat_of_ascii c in
  ((9 <=? n) && (n <=? 13) || (28 <=? n) && (n <=? 32))%nat.

Fixpoint lstrip (s : list Ascii.ascii) : list Ascii.ascii :=
  match s with
  | c :: s' => if is_space c then lstrip s' else s
  | [] => []
  end.

Definition strip (s : string) : string :=
  string_of_list_ascii
    (rev (lstrip (rev (lstrip (list_ascii_of_string s))))).

Fixpoint digits_value (acc : Z) (s : string) : option Z :=
  match s with
  | EmptyString => Some acc
  | String c s' =>
      let n := Ascii.nat_of_ascii c in
      if ((48 <=? n) && (n <=? 57))%nat
      then digits_value (acc * 10 + Z.of_nat (n - 48)) s'
      else None
  end.

Definition unsigned_int (s : string) : option Z :=
  match s with
  | EmptyString => None
  | _ => digits_value 0 s
  end.

Definition signed {A} (parse : string → option A) (neg : A → A) (s : string) : option A :=
  match s with
  | String "-"%char s' => neg <$> parse s'
  | String "+"%char s' => parse s'
  | _ => parse s
  end.

Definition int_literal (s : string) : option Z :=
  signed unsigned_int Z.opp (strip s).

Fixpoint split_at_dot (s : string) : string * option string :=
  match s with
  | EmptyString => (EmptyString, None)
  | String c s' =>
      if Ascii.eqb c "."%char then (EmptyString, Some s')
      else let '(a, b) := split_at_dot s' in (String c a, b)
  end.

Definition unsigned_float (s : string) : option float :=
  match split_at_dot s with
  | (whole, None) => n ← unsigned_int whole; Some (PyFloat.of_decimal n 0)
  | (whole, Some frac) =>
      _ ← unsigned_int whole;
      n ← unsigned_int (whole +:+ frac);
      Some (PyFloat.of_decimal n (String.length frac))
  end.

Definition float_literal (s : string) : option float :=
  signed unsigned_float (SFopp) (strip s).

Definition platform : Platform :=
  {| Pubkey := string;
     Pubkey_from_string := from_string;
     get_associated_token_address := λ owner mint, owner +:+ "/" +:+ mint;
     py_strip := strip;
     py_int := int_literal;
     py_float := float_literal |}.

End Reference.


(** ** Vocabulary of the statements *)

(** [s] with [new] events added to the journal and the tick at [t]:
    everything an operation that only talks to the world can change. *)
Definition advance `{Platform} (new : list event) (t : nat) (s : Manager) : Manager :=
  {| recipients := recipients s; successful_transfers := successful_transfers s;
     failed_transfers := failed_transfers s; skipped_transfers := skipped_transfers s;
     progress_file := progress_file s; tick := t; journal := new ++ journal s |}.

Definition status_at `{Platform} (rs : list Recipient) (i : nat) : option string :=
  status <$> rs !! i.

Definition has_keys `{Platform} (r : Recipient) : bool :=
  match pubkey r, token_account r with
  | Some _, Some _ => true
  | _, _ => false
  end.

(** What the restore loop of [load_progress] does to one recipient, and the
    status writes it makes (oldest first), given the dict read from the
    file. *)
Definition restored `{Platform} (d : gmap string string) (r : Recipient) : Recipient :=
  match d !! sol_wallet r with
  | Some v => with_status v r
  | None => r
  end.

Fixpoint restore_events `{Platform} (d : gmap string string) (k : nat)
    (rs : list Recipient) : list event :=
  match rs with
  | [] => []
  | r :: rs' =>
      match d !! sol_wallet r with
      | Some v => StatusSet k (status r) v :: restore_events d (S k) rs'
      | None => restore_events d (S k) rs'
      end
  end.

(** The wallet-to-status dict of a list of recipients (a later recipient
    with the same wallet wins). *)
Definition saved_statuses `{Platform} (rs : list Recipient) : gmap string string :=
  foldl (λ d r, <[sol_wallet r := status r]> d) ∅ rs.

(** The recipient list after the loop [for r in batch: r.status = v], and
    the status writes the loop makes (oldest first). *)
Fixpoint marked `{Platform} (v : string) (batch : list nat) (rs : list Recipient)
    : list Recipient :=
  match batch with
  | [] => rs
  | i :: batch' =>
      match rs !! i with
      | Some r => marked v batch' (<[i := with_status v r]> rs)
      | None => rs
      end
  end.

Fixpoint mark_events `{Platform} (v : string) (batch : list nat) (rs : list Recipient)
    : list event :=
  match batch with
  | [] => []
  | i :: batch' =>
      match rs !! i with
      | Some r => StatusSet i (status r) v
                  :: mark_events v batch' (<[i := with_status v r]> rs)
      | None => []
      end
  end.

(** A recipient with its status blanked: what no operation after loading
    and provisioning changes. *)
Definition static `{Platform} (r : Recipient) : Recipient := with_status "" r.

Definition keyed `{Platform} (rs : list Recipient) (i : nat) : bool :=
  match rs !! i with
  | Some r => has_keys r
  | None => false
  end.

(** [ix] is the transfer instruction of recipient [i]. *)
Definition is_transfer_of `{Platform} (cfg : AirdropConfig) (rs : list Recipient)
    (i : nat) (ix : instruction) : Prop :=
  ∃ r dest, rs !! i = Some r ∧ token_account r = Some dest
            ∧ transfer_ix cfg r dest = Some ix.

(** What the transfer executor may write to the journal while it works on
    the recipients [working]: status writes only on working recipients,
    from [pending] (or rewriting the same value) to [success] or [failed];
    a batch transaction made of the transfer instruction of each member of
    the batch that has its keys; single transactions within the retry
    bound; the guard log lines only for recipients without keys. *)
Definition transfer_event_ok `{Platform} (cfg : AirdropConfig) (rs : list Recipient)
    (working : list nat) (e : event) : Prop :=
  match e with
  | StatusSet i old new =>
      i ∈ working ∧ (old = "pending" ∨ old = new)
      ∧ (new = "success" ∨ new = "failed")
  | SentBatch batch tx _ =>
      batch ⊆ working ∧ tx.*1 = filter (λ i, keyed rs i = true) batch
      ∧ ∀ i ix, (i, ix) ∈ tx → is_transfer_of cfg rs i ix
  | SentSingle i k ix _ =>
      i ∈ working ∧ (k < Z.to_nat (max_retries cfg))%nat ∧ is_transfer_of cfg rs i ix
  | LogSkipTransfer i | LogCannotTransfer i => i ∈ working ∧ keyed rs i = false
  | LogAttemptFailed i k => i ∈ working ∧ (k < Z.to_nat (max_retries cfg))%nat
  | LogGaveUp i => i ∈ working
  | FileOpenedForWrite => True
  | SentCreate _ _ | LogInvalidPubkey _ => False
  end.

(** The events of the retry loop for recipient [i], attempts [lo] up to
    [hi]. *)
Definition single_event `{Platform} (cfg : AirdropConfig) (r : Recipient)
    (dest : Pubkey) (i lo hi : nat) (e : event) : Prop :=
  match e with
  | SentSingle j k ix _ => j = i ∧ (lo ≤ k < hi)%nat ∧ transfer_ix cfg r dest = Some ix
  | LogAttemptFailed j k => j = i ∧ (lo ≤ k < hi)%nat
  | LogGaveUp j => j = i
  | _ => False
  end.

Definition statics `{Platform} (s : Manager) : list Recipient :=
  map static (recipients s).

(** [r.status == v], counted over the list. *)
Definition count_status `{Platform} (v : string) (rs : list Recipient) : Z :=
  Z.of_nat (length (filter (λ r, status r = v) rs)).

(** What the executor keeps and guarantees between two states [s] and
    [s'], for the recipients [touched], [new] being what the journal
    gained. *)
Definition executor_step `{Platform} (cfg : AirdropConfig) (touched : list nat)
    (s s' : Manager) (new : list event) : Prop :=
  journal s' = new ++ journal s
  ∧ skipped_transfers s' = skipped_transfers s
  ∧ statics s' = statics s
  ∧ (∀ j, j ∉ touched → recipients s' !! j = recipients s !! j)
  ∧ Forall (transfer_event_ok cfg (statics s) touched) new
  ∧ successful_transfers s' - count_status "success" (recipients s')
    = successful_transfers s - count_status "success" (recipients s)
  ∧ failed_transfers s' - count_status "failed" (recipients s')
    = failed_transfers s - count_status "failed" (recipients s).

(** What a live executor reports once its batch loop is over, [s] being
    the manager at that point: the success rate is computed for the log
    (the division can raise), then the success counter is tested. *)
Definition live_report `{Platform} (s : Manager) : outcome bool :=
  match py_truediv (successful_transfers s) (Z.of_nat (length (recipients s))) with
  | Some _ => Done (bool_decide (0 < successful_transfers s))
  | None => Raised
  end.

(** An operation that, whatever its outcome, changes nothing of the
    manager but the tick and the journal, to which it adds only events
    satisfying [P]. *)
Definition quiet `{Platform} {A} (P : event → Prop) (m : M A) : Prop :=
  ∀ s, ∃ new t, snd (m s) = advance new t s ∧ Forall P new.

Definition is_create `{Platform} (e : event) : Prop :=
  match e with SentCreate _ _ => True | _ => False end.

(** [r'] is [r], possibly with its token account set. *)
Definition provisioned_from `{Platform} (r r' : Recipient) : Prop :=
  r' = r ∨ ∃ a, r' = with_token_account a r.

(** The status of recipient [i] according to the journal [j] (newest
    first), starting from the recipient list [init]. *)
Fixpoint status_after `{Platform} (init : list Recipient) (j : list event) (i : nat)
    : option string :=
  match j with
  | [] => status_at init i
  | StatusSet k _ new :: j' =>
      if decide (k = i) then Some new else status_after init j' i
  | _ :: j' => status_after init j' i
  end.

(** Every status write in the journal records as [old] the status the
    recipient had by the earlier writes. *)
Fixpoint journal_faithful `{Platform} (init : list Recipient) (j : list event) : Prop :=
  match j with
  | [] => True
  | e :: j' =>
      journal_faithful init j'
      ∧ match e with
        | StatusSet i old _ => status_after init j' i = Some old
        | _ => True
        end
  end.

(** The journal is the history of the statuses: it is faithful and the
    current status of every recipient is the one it gives. *)
Definition tracked `{Platform} (init : list Recipient) (s : Manager) : Prop :=
  journal_faithful init (journal s)
  ∧ ∀ i, status_at (recipients s) i = status_after init (journal s) i.

(** [m] preserves [I], whatever its outcome. *)
Definition keeps `{Platform} {A} (I : Manager → Prop) (m : M A) : Prop :=
  ∀ s, I s → I (snd (m s)).

(** The recipients a submission event is addressed to. *)
Definition targets `{Platform} (e : event) : list nat :=
  match e with
  | SentBatch batch tx _ => batch ++ tx.*1
  | SentSingle i _ _ _ => [i]
  | _ => []
  end.

(** A status write that respects terminal statuses. *)
Definition status_write_ok `{Platform} (e : event) : Prop :=
  match e with
  | StatusSet _ old new => is_terminal old = true → new = old
  | _ => True
  end.

(** No guard branch was taken, and a batch transaction misses no member. *)
Definition no_transfer_dropped `{Platform} (e : event) : Prop :=
  match e with
  | LogInvalidPubkey _ | LogSkipTransfer _ | LogCannotTransfer _ => False
  | SentBatch batch tx _ => tx.*1 = batch
  | _ => True
  end.


Definition is_status_write `{Platform} (e : event) : Prop :=
  match e with StatusSet _ _ _ => True | _ => False end.

(** The rows the validator rejects. *)
Definition rejected_rows `{Platform} (cfg : AirdropConfig) (rows : list row) : list row :=
  List.filter (λ r, match _parse_recipient_row cfg r with Some _ => false | None => true end) rows.

(** ** Example data *)

Module Examples.

#[local] Existing Instance Reference.platform.

Definition mint : string := "So11111111111111111111111111111111111111112".
Definition treasury : string := "11111111111111111111111111111111".
Definition alice : string := "TokenkegQfeZyiNwAJbNbGKPFXCWuBvf9Ss623VQ5DA".
Definition bob : string := "4Nd1mBQtrMJVYVfKf2PJy9NZUZdTAsp7D4xWLs4gDB4T".
Definition carol : string := "SysvarC1ock11111111111111111111111111111111".

(** The float [1.0], the default of both delays. *)
Definition one_second : float := PyFloat.of_decimal 10 1.

Definition config (dry : bool) : AirdropConfig :=
  {| source_pubkey := treasury; token_mint := mint; phase := 1; dry_run := dry;
     batch_size := 2; delay_between_batches := one_second;
     rpc_check_delay := one_second; rpc_check_batch := 3; max_retries := 3;
     token_decimals := 6 |}.

Definition csv_row (wallet balance tokens : string) : row :=
  <["sol_wallet" := Some wallet]>
    (<["worm_balance" := Some balance]> (<["phase1_tokens" := Some tokens]> ∅)).

(** Three rows, the last with a non-positive amount. *)
Definition rows : list row :=
  [csv_row alice "5" "100.0"; csv_row bob "3" "50.0"; csv_row carol "7" "0.0"].

(** A recipient as it stands after validation and provisioning. *)
Definition recipient (wallet : string) (tokens : float) (st : string) : Recipient :=
  {| sol_wallet := wallet; worm_balance := 1; sol_nema_tokens := tokens;
     pubkey := Some wallet; token_account := Some (wallet +:+ "/" +:+ mint);
     status := st |}.

Definition manager (rs : list Recipient) (disk : file) : Manager :=
  {| recipients := rs; successful_transfers := 0; failed_transfers := 0;
     skipped_transfers := 0; progress_file := disk; tick := 0; journal := [] |}.

Definition amount : float := PyFloat.of_decimal 125 1.

Definition fresh : list Recipient :=
  [recipient alice amount "pending"; recipient bob amount "pending"].

(** The manager of an earlier run, after a first batch that held Alice. *)
Definition interrupted : Manager :=
  {| recipients := [recipient alice amount "success"; recipient bob amount "pending"];
     successful_transfers := 1; failed_transfers := 0; skipped_transfers := 0;
     progress_file := Missing; tick := 9; journal := [] |}.

(** The checkpoint that run saved. *)
Definition checkpoint : file :=
  Contents (Document (snapshot (config false) 1700000000 interrupted)).

(** The manager of an earlier run in which every transfer failed, and the
    checkpoint it saved. *)
Definition gave_up : Manager :=
  {| recipients := [recipient alice amount "failed"; recipient bob amount "failed"];
     successful_transfers := 0; failed_transfers := 2; skipped_transfers := 0;
     progress_file := Missing; tick := 17; journal := [] |}.

Definition failed_checkpoint : file :=
  Contents (Document (snapshot (config false) 1700000000 gave_up)).

(** A world in which every RPC call answers and every write completes. *)
Definition calm : World :=
  {| rpc := λ _, Value 1000000000000; fs_write := λ _, Completes; clock := λ _, 1700000000 |}.

(** A world whose node rejects or drops every call. *)
Definition offline : World :=
  {| rpc := λ _, Raises; fs_write := λ _, Completes; clock := λ _, 1700000000 |}.

(** A world in which writes of the progress file stop half-way. *)
Definition disk_full : World :=
  {| rpc := λ _, Value 1000000000000; fs_write := λ _, CutShort; clock := λ _, 1700000000 |}.

(** A world whose node refuses the first transaction (a batch), accepts the
    next one, and then stops answering. *)
Definition flaky : World :=
  {| rpc := λ n, if (n =? 1)%nat then Null
                 else if (n <? 4)%nat then Value 1000000000000 else Raises;
     fs_write := λ _, Completes; clock := λ _, 1700000000 |}.

End Examples.

(** ** Further vocabulary *)



(** ** More example data *)

Module Scenarios.

#[local] Existing Instance Reference.platform.


(** A live configuration that sends one recipient a batch and pauses
    [delay] seconds between two batches. *)
Definition config_pausing (delay : float) : AirdropConfig :=
  {| source_pubkey := Examples.treasury; token_mint := Examples.mint; phase := 1;
     dry_run := false; batch_size := 1; delay_between_batches := delay;
     rpc_check_delay := Examples.one_second; rpc_check_batch := 3;
     max_retries := 3; token_decimals := 6 |}.



(** A checkpoint of phase 1 for two recipients that are not those of
    [Examples.fresh], both recorded as paid. *)
Definition foreign_checkpoint : file :=
  Contents (Document
    {| pd_timestamp := Some 1700000000; pd_phase := Some 1;
       pd_total_recipients := Some 2; pd_successful_transfers := Some 2;
       pd_failed_transfers := Some 0; pd_skipped_transfers := Some 0;
       pd_recipients :=
         Some [ {| pe_sol_wallet := Some Examples.carol;
                   pe_sol_nema_tokens := Some Examples.amount;
                   pe_status := Some "success" |};
                {| pe_sol_wallet := Some Examples.treasury;
                   pe_sol_nema_tokens := Some Examples.amount;
                   pe_status := Some "success" |} ] |}).

End Scenarios.

(** ** Confirmed payments *)



(** ** Provisioning, recipient by recipient *)

(** What the loop of [check_and_create_token_accounts] does to one
    recipient: the associated token account of its key and the mint is
    recorded, or, without a key, the recipient is marked [skipped]. *)
Definition provisioned `{Platform} (cfg : AirdropConfig) (r : Recipient) : Recipient :=
  match pubkey r with
  | Some key => with_token_account (get_associated_token_address key (token_mint cfg)) r
  | None => with_status "skipped" r
  end.

Definition keyless `{Platform} (r : Recipient) : bool :=
  match pubkey r with None => true | Some _ => false end.

(** An operation that returns from every state. *)
Definition total `{Platform} {A} (m : M A) : Prop := ∀ s, ∃ a s', m s = (Done a, s').


(** ** The executor without resume ([execute_token_transfers])

    The earlier form of the transfer step, still a method of the manager:
    it works on every recipient, whatever its status, and never reads or
    writes the progress file. [total_batches] divides by [batch_size] and
    [success_rate] by the number of recipients. *)

Section Legacy.
Context `{Platform} (w : World) (cfg : AirdropConfig).

(** The body of the batch loop: the statuses of a successful batch are
    set by [_execute_transfer_batch] itself. *)
Definition transfer_batch_or_singles (batch : list nat) : M unit :=
  let* ok := _execute_transfer_batch w cfg batch in
  if ok then add_successful (Z.of_nat (length batch))
  else fallback w cfg batch.

(** [execute_token_transfers] *)
Definition execute_token_transfers : M bool :=
  if dry_run cfg then
    modify (λ s, set_counters (Z.of_nat (length (recipients s)))
                   (failed_transfers s) (skipped_transfers s) s) ;;
    ret true
  else
    let* n := gets (λ s, length (recipients s)) in
    if batch_size cfg =? 0 then raise
    else
      for_each_paused (py_sleep (delay_between_batches cfg))
        (batches (batch_size cfg) (seq 0 n)) transfer_batch_or_singles ;;
      success_rate ;;
      let* k := gets successful_transfers in
      ret (bool_decide (0 < k)).

End Legacy.


(** ** More of Python's arithmetic *)

(** A value that is an [int] or a [float] at run time, such as
    [x / y * 100 if y > 0 else 0]. *)
Inductive number := IntNum (n : Z) | FloatNum (x : float).

(** The float [100.0] that [x * 100] multiplies by. *)
Definition hundred : float := PyFloat.of_digits 100.

(** [m / d] for [m >= 0], rounded to the nearest integer, ties to even. *)
Definition round_half_even (m : Z) (d : Z) : Z :=
  let q := m / d in
  let r := m mod d in
  if 2 * r <? d then q
  else if d <? 2 * r then q + 1
  else if Z.even q then q else q + 1.

(** [round(x, 2)] for a float: the decimal with two places nearest to the
    exact value of [x] (ties to even), read back as the nearest float;
    NaN and the infinities are returned as they are, and the sign of a
    zero result is that of [x]. *)
Definition py_round2 (x : float) : float :=
  match x with
  | S754_finite s m e =>
      let hundredths :=
        if 0 <=? e then Zpos m * 2 ^ e * 100
        else round_half_even (Zpos m * 100) (2 ^ (- e)) in
      let y := PyFloat.int_truediv hundredths 100 in
      if s then SFopp y else y
  | _ => x
  end.

(** [round(v, 2)] where [v] may be an int, which [round] returns as it is. *)
Definition round2 (v : number) : number :=
  match v with
  | IntNum n => IntNum n
  | FloatNum x => FloatNum (py_round2 x)
  end.

(** ** The final report ([generate_report], [_generate_csv_reports]) *)

(** A value handed to [csv.writer.writerow]; [Fixed2Cell] is a number
    formatted with [:.2f]. *)
Inductive cell `{Platform} :=
  | TextCell (s : string)
  | IntCell (n : Z)
  | FloatCell (x : float)
  | BoolCell (b : bool)
  | KeyCell (k : Pubkey)
  | Fixed2Cell (v : number).

(** The three files of a run's report directory; [None] is a file that was
    not written. *)
Record csv_reports `{Platform} := {
  successful_csv : option (list (list cell));
  failed_csv : option (list (list cell));
  summary_csv : option (list (list cell));
}.

Section Reports.
Context `{Platform} (cfg : AirdropConfig).

(** [[r for r in self.recipients if r.status == v]] *)
Definition with_status_of (v : string) (rs : list Recipient) : list Recipient :=
  filter (λ r, status r = v) rs.

Definition detail_header : list cell :=
  [TextCell "sol_wallet"; TextCell "worm_balance"; TextCell "sol_nema_tokens";
   TextCell "status"].

Definition detail_row (r : Recipient) : list cell :=
  [TextCell (sol_wallet r); IntCell (worm_balance r); FloatCell (sol_nema_tokens r);
   TextCell (status r)].

(** [(self.successful_transfers / n * 100) if n > 0 else 0]; [None] when
    the division raises. *)
Definition transfer_success_rate (s : Manager) : option number :=
  let n := Z.of_nat (length (recipients s)) in
  if 0 <? n then
    x ← py_truediv (successful_transfers s) n;
    Some (FloatNum (PyFloat.mul x hundred))
  else Some (IntNum 0).

(** [(successful_tokens / total_tokens * 100) if total_tokens > 0 else 0] *)
Definition token_success_rate (successful_tokens total : float) : number :=
  if PyFloat.ltb PyFloat.zero total
  then FloatNum (PyFloat.mul (PyFloat.div successful_tokens total) hundred)
  else IntNum 0.

(** The rows of the summary written before the rates are computed, and
    those written after. *)
Definition summary_counts (timestamp : Z) (s : Manager) : list (list cell) :=
  [ [TextCell "metric"; TextCell "value"];
    [TextCell "timestamp"; IntCell timestamp];
    [TextCell "phase"; IntCell (phase cfg)];
    [TextCell "total_recipients"; IntCell (Z.of_nat (length (recipients s)))];
    [TextCell "successful_transfers"; IntCell (successful_transfers s)];
    [TextCell "failed_transfers"; IntCell (failed_transfers s)];
    [TextCell "skipped_transfers"; IntCell (skipped_transfers s)];
    [TextCell "successful_tokens";
     FloatCell (total_tokens (with_status_of "success" (recipients s)))];
    [TextCell "failed_tokens";
     FloatCell (total_tokens (with_status_of "failed" (recipients s)))];
    [TextCell "total_tokens"; FloatCell (total_tokens (recipients s))] ].

Definition summary_rates (rpc_url : string) (rate : number) (s : Manager)
    : list (list cell) :=
  [ [TextCell "transfer_success_rate_percent"; Fixed2Cell rate];
    [TextCell "token_success_rate_percent";
     Fixed2Cell (token_success_rate
                   (total_tokens (with_status_of "success" (recipients s)))
                   (total_tokens (recipients s)))];
    [TextCell "dry_run"; BoolCell (dry_run cfg)];
    [TextCell "token_mint"; KeyCell (token_mint cfg)];
    [TextCell "rpc_url"; TextCell rpc_url] ].

(** One detail report: not written when no recipient has the status;
    [None] in the first component when [open] raised. *)
Definition detail_report (writable : bool) (v : string) (s : Manager)
    : option (option (list (list cell))) :=
  match with_status_of v (recipients s) with
  | [] => Some None
  | rs => if writable then Some (Some (detail_header :: map detail_row rs)) else None
  end.

(** [_generate_csv_reports], after the report directory exists. The three
    files are written in turn inside one [try]: the first [open] that
    raises ([writable] says which files can be opened) ends the function
    with the later files unwritten; a division that raises while the
    summary is being written leaves that file at the rows written so far. *)
Definition _generate_csv_reports (timestamp : Z) (rpc_url : string)
    (writable : string → bool) (s : Manager) : csv_reports :=
  match detail_report (writable "airdrop_successful.csv") "success" s with
  | None => {| successful_csv := None; failed_csv := None; summary_csv := None |}
  | Some ok =>
      match detail_report (writable "airdrop_failed.csv") "failed" s with
      | None => {| successful_csv := ok; failed_csv := None; summary_csv := None |}
      | Some ko =>
          {| successful_csv := ok; failed_csv := ko;
             summary_csv :=
               if writable "airdrop_summary.csv" then
                 Some (summary_counts timestamp s
                       ++ match transfer_success_rate s with
                          | Some rate => summary_rates rpc_url rate s
                          | None => []
                          end)
               else None |}
      end
  end.

(** [generate_report]: the console part computes the transfer success
    rate outside any [try], then the files are written; [os.makedirs] is
    outside the [try] as well. [None] is an exception. The manager is only
    read. *)
Definition generate_report (timestamp : Z) (rpc_url : string) (makedirs_ok : bool)
    (writable : string → bool) (s : Manager) : option csv_reports :=
  _ ← transfer_success_rate s;
  if makedirs_ok then Some (_generate_csv_reports timestamp rpc_url writable s)
  else None.

End Reports.



(** ** Configuration from the environment ([load_config_from_env]) *)



Section Config.
Context `{Platform}.
(** [Keypair.from_base58_string(s).pubkey()], [None] when the string is
    not a key pair; and the default CSV path under the script's base
    directory. *)
Variable keypair_pubkey : string → option Pubkey.
Variable default_csv_file_path : string.




End Config.

(** ** The holdings check (scripts/check_holdings.py) *)

Module Holdings.

(** One loaded row, the dict of [load_airdrop_data]. A cell that a short
    CSV row lacks is [None] and is stored as such for the wallet and the
    status. *)
Record airdrop_row := {
  ar_sol_wallet : option string;
  ar_airdropped_tokens : float;
  ar_status : option string;
}.

(** One result of [check_holdings]. *)
Record holding := {
  h_sol_wallet : option string;
  h_airdropped_tokens : float;
  h_current_balance : float;
  h_retention_percentage : number;
  h_category : string;
}.

(** What the summary of [generate_report] prints. *)
Record summary := {
  total_recipients : nat;
  full_holders : nat;
  partial_holders : nat;
  sold_all : nat;
  full_holders_percent : float;
  partial_holders_percent : float;
  sold_all_percent : float;
  total_airdropped : float;
  total_remaining : float;
  overall_retention : number;
}.

Section Script.
Context `{Platform} (w : World).

(** The dict built for one row: [row['k']] raises on a missing column,
    [float] on a missing cell or a cell that is not a number. *)
Definition airdrop_row_of (r : row) : option airdrop_row :=
  wallet ← r !! "sol_wallet";
  tokens_cell ← r !! "sol_nema_tokens";
  tokens_text ← tokens_cell;
  tokens ← py_float tokens_text;
  st ← r !! "status";
  Some {| ar_sol_wallet := wallet; ar_airdropped_tokens := tokens; ar_status := st |}.

(** [load_airdrop_data]: an absent file gives the empty list; nothing is
    caught, so an unreadable file or a bad row is an exception ([None]).
    Rows of every status are loaded. *)
Definition load_airdrop_data (csv : csv_file) : option (list airdrop_row) :=
  match csv with
  | CsvMissing => Some []
  | CsvUnreadable => None
  | CsvRows rows => mapM airdrop_row_of rows
  end.

(** [get_current_token_balance], from tick [t]: the balance and the next
    tick. Every exception gives [0.0]. *)
Definition get_current_token_balance (wallet_address : option string)
    (token_decimals : nat) (t : nat) : float * nat :=
  match wallet_address ≫= Pubkey_from_string with
  | None => (PyFloat.zero, t)
  | Some _ =>
      match rpc w t with                            (* get_account_info *)
      | Raises | Null => (PyFloat.zero, S t)
      | Value _ =>
          match rpc w (S t) with                    (* get_token_account_balance *)
          | Raises | Null => (PyFloat.zero, S (S t))
          | Value amount =>
              match PyFloat.of_int (10 ^ Z.of_nat token_decimals) with
              | Some scale =>
                  (PyFloat.div (PyFloat.of_digits amount) scale, S (S t))
              | None => (PyFloat.zero, S (S t))
              end
          end
      end
  end.

(** The literal [0.95]. *)
Definition threshold : float := PyFloat.of_decimal 95 2.

(** [(current / airdropped * 100) if airdropped > 0 else 0] *)
Definition retention (current airdropped : float) : number :=
  if PyFloat.ltb PyFloat.zero airdropped
  then FloatNum (PyFloat.mul (PyFloat.div current airdropped) hundred)
  else IntNum 0.

Definition category (current airdropped : float) : string :=
  if PyFloat.leb (PyFloat.mul airdropped threshold) current then "full_holder"
  else if PyFloat.ltb PyFloat.zero current then "partial_holder"
  else "sold_all".

Definition holding_of (r : airdrop_row) (current : float) : holding :=
  {| h_sol_wallet := ar_sol_wallet r;
     h_airdropped_tokens := ar_airdropped_tokens r;
     h_current_balance := current;
     h_retention_percentage := round2 (retention current (ar_airdropped_tokens r));
     h_category := category current (ar_airdropped_tokens r) |}.

(** The loop of [check_holdings] from the recipient of index [i]:
    [results] so far, the calls made to [save_partial_results] (the count
    in the file name and the rows handed over), and the tick. The balance
    is read with the default of six decimals. *)
Fixpoint check_holdings_from (i : nat) (recipients : list airdrop_row)
    (results : list holding) (saves : list (nat * list holding)) (t : nat)
    : list holding * list (nat * list holding) * nat :=
  match recipients with
  | [] => (results, saves, t)
  | r :: rest =>
      let '(current, t') := get_current_token_balance (ar_sol_wallet r) 6 t in
      let results' := results ++ [holding_of r current] in
      let saves' :=
        if (S i mod 25 =? 0)%nat then saves ++ [(S i, results')] else saves in
      check_holdings_from (S i) rest results' saves' t'
  end.

(** [check_holdings] *)
Definition check_holdings (recipients : list airdrop_row) (t : nat)
    : list holding * list (nat * list holding) * nat :=
  check_holdings_from 0 recipients [] [] t.

Definition count_category (c : string) (results : list holding) : nat :=
  length (filter (λ r, h_category r = c) results).

Definition sum_floats (xs : list float) : float :=
  fold_left PyFloat.add xs PyFloat.zero.

(** [n / total * 100] for two counts. *)
Definition percent_of (n total : nat) : option float :=
  x ← py_truediv (Z.of_nat n) (Z.of_nat total);
  Some (PyFloat.mul x hundred).

(** [generate_report]: the rows written to the file (after the header), or
    [None] when it could not be opened, and the summary, or [None] when
    the function raised. The file is written first; the percentages are
    computed while the summary is printed. *)
Definition generate_report (writable : bool) (results : list holding)
    : option (list holding) * option summary :=
  if negb writable then (None, None)
  else
    (Some results,
     let n := length results in
     let airdropped := sum_floats (map h_airdropped_tokens results) in
     let remaining := sum_floats (map h_current_balance results) in
     full ← percent_of (count_category "full_holder" results) n;
     part ← percent_of (count_category "partial_holder" results) n;
     sold ← percent_of (count_category "sold_all" results) n;
     Some {| total_recipients := n;
             full_holders := count_category "full_holder" results;
             partial_holders := count_category "partial_holder" results;
             sold_all := count_category "sold_all" results;
             full_holders_percent := full;
             partial_holders_percent := part;
             sold_all_percent := sold;
             total_airdropped := airdropped;
             total_remaining := remaining;
             overall_retention :=
               if PyFloat.ltb PyFloat.zero airdropped
               then FloatNum (PyFloat.mul (PyFloat.div remaining airdropped) hundred)
               else IntNum 0 |}).

End Script.



End Holdings.

(** ** The distribution table (scripts/sol_nema.py) *)

Module Distribution.


Section Script.
Context `{Platform}.













End Script.

End Distribution.

(** Scenario data for the distribution script. *)
Module DistributionExamples.






End DistributionExamples.


(** ** Creation transactions *)


(** Run from a state whose recipients are [rs], the operation leaves all
    but the tick and the journal as it was, adds to the journal events
    satisfying [P] only, and returns values satisfying [Q]. *)
Definition emits `{Platform} {A} (rs : list Recipient) (P : event → Prop)
    (Q : A → Prop) (m : M A) : Prop :=
  ∀ s, recipients s = rs →
    ∃ new t, snd (m s) = advance new t s ∧ Forall P new
             ∧ ∀ a, fst (m s) = Done a → Q a.

(** * Verification *)

(** ** Running the monad *)

Section Runs.
Context `{Platform}.

Lemma bind_done {A B} (m : M A) (k : A → M B) s a s1 :
  m s = (Done a, s1) → bind m k s = k a s1.
Proof. unfold bind. intros ->. reflexivity. Qed.

Lemma bind_raised {A B} (m : M A) (k : A → M B) s s1 :
  m s = (Raised, s1) → bind m k s = (Raised, s1).
Proof. unfold bind. intros ->. reflexivity. Qed.

Lemma try_done {A} (m h : M A) s a s1 :
  m s = (Done a, s1) → try_ m h s = (Done a, s1).
Proof. unfold try_. intros ->. reflexivity. Qed.

Lemma try_raised {A} (m h : M A) s s1 :
  m s = (Raised, s1) → try_ m h s = h s1.
Proof. unfold try_. intros ->. reflexivity. Qed.

Lemma manager_eta (s : Manager) :
  {| recipients := recipients s; successful_transfers := successful_transfers s;
     failed_transfers := failed_transfers s; skipped_transfers := skipped_transfers s;
     progress_file := progress_file s; tick := tick s; journal := journal s |} = s.
Proof. destruct s; reflexivity. Qed.

Lemma advance_nil s : advance [] (tick s) s = s.
Proof. apply manager_eta. Qed.

Lemma advance_advance new1 t1 new2 t2 s :
  advance new2 t2 (advance new1 t1 s) = advance (new2 ++ new1) t2 s.
Proof. unfold advance; cbn. rewrite app_assoc. reflexivity. Qed.

(** The pauses of a batch loop go unnoticed when [time.sleep] accepts the
    delay, and when there is at most one batch. *)
Lemma for_each_paused_calm {A} (d : float) (l : list A) (body : A → M unit) s :
  sleep_returns d = true ∨ (length l ≤ 1)%nat →
  for_each_paused (py_sleep d) l body s = for_each l body s.
Proof.
  revert s. induction l as [|x l IH]; intros s Hok; [reflexivity|].
  cbn [for_each_paused for_each].
  destruct (body x s) as [[[]|] s1] eqn:Hb.
  2:{ do 2 rewrite (bind_raised _ _ _ _ Hb). reflexivity. }
  do 2 rewrite (bind_done _ _ _ _ _ Hb).
  destruct l as [|y l]; [reflexivity|].
  destruct Hok as [Hd|Hlen]; [|cbn in Hlen; lia].
  assert (Hp : py_sleep d s1 = (Done (), s1))
    by (unfold py_sleep; rewrite Hd; reflexivity).
  rewrite (bind_done _ _ _ _ _ Hp).
  apply IH. left. exact Hd.
Qed.

(** A delay that [time.sleep] rejects ends a loop of two batches or more
    after the first. *)
Lemma for_each_paused_stops {A} (d : float) (x y : A) (l : list A)
    (body : A → M unit) s :
  sleep_returns d = false →
  for_each_paused (py_sleep d) (x :: y :: l) body s = (Raised, snd (body x s)).
Proof.
  intros Hd. cbn [for_each_paused].
  destruct (body x s) as [[[]|] s1] eqn:Hb.
  2:{ rewrite (bind_raised _ _ _ _ Hb). reflexivity. }
  rewrite (bind_done _ _ _ _ _ Hb).
  assert (Hp : py_sleep d s1 = (Raised, s1))
    by (unfold py_sleep; rewrite Hd; reflexivity).
  rewrite (bind_raised _ _ _ _ Hp). reflexivity.
Qed.


(** The end of a live executor: the success rate, then the report. *)
Lemma report_run s :
  bind success_rate
    (λ _, bind (gets successful_transfers) (λ n, ret (bool_decide (0 < n)))) s
  = (live_report s, s).
Proof.
  unfold live_report, success_rate, bind, gets, or_raise, ret, raise.
  destruct (py_truediv _ _); reflexivity.
Qed.

Lemma overflow_bound_large : 2 ^ 1023 ≤ overflow_bound.
Proof. vm_compute. discriminate. Qed.

(** A quotient of magnitude below [2^1023] is a float. *)
Lemma py_truediv_defined (a b : Z) :
  b ≠ 0 → Z.abs a ≤ 2 ^ 1023 * Z.abs b → is_Some (py_truediv a b).
Proof.
  intros Hb Ha. unfold py_truediv.
  destruct (Z.eqb_spec b 0) as [|_]; [contradiction|].
  pose proof overflow_bound_large as Hlarge.
  assert (Hpos : 0 < 2 ^ 1023) by (apply Z.pow_pos_nonneg; lia).
  destruct (Z.leb_spec (overflow_bound * Z.abs b) (Z.abs a)) as [Hle|_]; [|eauto].
  exfalso.
  assert (Hlt : 2 ^ 1023 * Z.abs b < overflow_bound * Z.abs b).
  { apply Z.mul_lt_mono_pos_r; [lia|]. vm_compute. reflexivity. }
  lia.
Qed.

Lemma for_each_app {A} (l1 l2 : list A) (body : A → M unit) s :
  for_each (l1 ++ l2) body s =
    bind (for_each l1 body) (λ _, for_each l2 body) s.
Proof.
  revert s. induction l1 as [|x l1 IH]; intros s; [reflexivity|].
  cbn [app for_each]. unfold bind in *.
  destruct (body x s) as [[[]|] s1]; [apply IH | reflexivity].
Qed.

End Runs.

Lemma filter_all {A} (P : A → Prop) `{∀ x, Decision (P x)} (l : list A) :
  (∀ x, x ∈ l → P x) → filter P l = l.
Proof.
  induction l as [|x l IH]; intros Hall; [reflexivity|].
  rewrite filter_cons, decide_True by (apply Hall; left).
  f_equal. apply IH. intros y Hy. apply Hall. right. exact Hy.
Qed.

Lemma elem_of_rev {A} (x : A) (l : list A) : x ∈ rev l ↔ x ∈ l.
Proof. rewrite !list_elem_of_In. symmetry. apply in_rev. Qed.

(** ** Raw-unit conversion *)

Lemma to_int_truncates (x : float) :
  PyFloat.to_int x =
    if PyFloat.is_finite x then Some (truncate_toward_zero (PyFloat.value x))
    else None.
Proof.
  destruct x as [s|s| |s m e]; try reflexivity.
  unfold PyFloat.to_int, PyFloat.is_finite, PyFloat.value, truncate_toward_zero.
  f_equal. destruct (Z.leb_spec 0 e) as [He|He]; cbn [Qnum Qden].
  - rewrite Z.quot_1_r, Z.shiftl_mul_pow2 by lia. reflexivity.
  - assert (Hp : 0 < 2 ^ (- e)) by (apply Z.pow_pos_nonneg; lia).
    rewrite Z2Pos.id by lia.
    rewrite Z.shiftr_div_pow2 by lia.
    destruct s; cbn [cond_Zopp].
    + rewrite Z.quot_opp_l by lia. rewrite Z.quot_div_nonneg by lia. reflexivity.
    + rewrite Z.quot_div_nonneg by lia. reflexivity.
Qed.

(** Truncation toward zero drops less than one unit and never moves away
    from zero. *)
Lemma truncate_toward_zero_spec (x : Q) :
  (Qabs (inject_Z (truncate_toward_zero x)) <= Qabs x)%Q
  ∧ (Qabs x < Qabs (inject_Z (truncate_toward_zero x)) + 1)%Q
  ∧ ((0 <= x)%Q → 0 ≤ truncate_toward_zero x)
  ∧ ((x <= 0)%Q → truncate_toward_zero x ≤ 0).
Proof.
  destruct x as [p d]. unfold truncate_toward_zero. cbn [Qnum Qden].
  assert (Hd : 0 < Z.pos d) by lia.
  assert (Habs : Z.abs (p ÷ Z.pos d) = Z.abs p / Z.pos d).
  { rewrite <- Z.quot_abs by lia. rewrite (Z.abs_eq (Z.pos d)) by lia.
    apply Z.quot_div_nonneg; lia. }
  pose proof (Z.mul_div_le (Z.abs p) (Z.pos d) Hd) as Hlo.
  pose proof (Z.mul_succ_div_gt (Z.abs p) (Z.pos d) Hd) as Hhi.
  unfold Qle, Qlt, Qabs, Qplus, inject_Z. cbn [Qnum Qden].
  rewrite Habs.
  split; [lia|]. split; [lia|].
  split; intros Hx.
  - apply Z.quot_pos; lia.
  - rewrite <- (Z.opp_involutive p). rewrite Z.quot_opp_l by lia.
    assert (0 ≤ - p ÷ Z.pos d) by (apply Z.quot_pos; lia). lia.
Qed.

(** [time.sleep] on a few delays; ["-1"] is a [BATCH_DELAY] that [float]
    reads and [time.sleep] rejects. *)
Lemma sleep_returns_examples :
  sleep_returns Examples.one_second = true
  ∧ sleep_returns PyFloat.zero = true
  ∧ sleep_returns (S754_zero true) = true
  ∧ sleep_returns (SFopp Examples.one_second) = false
  ∧ sleep_returns S754_nan = false
  ∧ sleep_returns (S754_infinity false) = false
  ∧ Reference.float_literal "-1" = Some (SFopp Examples.one_second).
Proof. vm_compute. repeat split; reflexivity. Qed.

(** The bound of [py_truediv] is where the correctly rounded quotient
    stops being a float: just below it the quotient is the largest float,
    at it the rounding gives an infinity. *)
Lemma py_truediv_at_the_bound :
  py_truediv (overflow_bound - 1) 1 = Some (S754_finite false (2 ^ 53 - 1) 971)
  ∧ PyFloat.int_truediv overflow_bound 1 = S754_infinity false
  ∧ py_truediv overflow_bound 1 = None
  ∧ py_truediv 1 0 = None.
Proof. vm_compute. repeat split; reflexivity. Qed.

(** The literal [1.2345675] of the specification's example is the float
    [of_decimal 12345675 7]: the reference parser returns it, and it lies
    within half a unit in the last place (2^-53) of the decimal. *)
Lemma example_amount_parsed :
  Reference.float_literal "1.2345675" = Some (PyFloat.of_decimal 12345675 7).
Proof. reflexivity. Qed.

Lemma example_amount_nearest :
  (Qabs (PyFloat.value (PyFloat.of_decimal 12345675 7) - (12345675 # 10000000))
   <= 1 # (2 ^ 53))%Q.
Proof. vm_compute. discriminate. Qed.

(** The product is taken in binary64 and is itself rounded to the nearest
    float before [int] truncates it. For the literal [2.01] and six
    decimals the float product is 2009999.99999999976..., and the raw
    quantity is 2009999. *)
Lemma float_product_then_truncation `{Platform} (cfg : AirdropConfig) (r : Recipient) :
  token_decimals cfg = 6%nat →
  sol_nema_tokens r = PyFloat.of_decimal 201 2 →
  Reference.float_literal "2.01" = Some (sol_nema_tokens r)
  ∧ token_amount_raw cfg r = Some 2009999.
Proof.
  intros Hd Hx. unfold token_amount_raw. rewrite Hd, Hx.
  split; vm_compute; reflexivity.
Qed.

(** The claim fails for the amount [0.3] with six decimals. The float read
    from ["0.3"] is a little below three tenths, so its exact product by
    10^6 is below 300000 and truncates to 299999; the binary64 product is
    rounded to the nearest float, 300000.0, and the raw quantity is
    300000. For ["2.01"] the raw quantity is 2009999, while the decimal
    2.01 times 10^6 is 2010000. *)
Lemma token_amount_raw_rounds_the_product :
  let cfg := Examples.config false in
  let three_tenths := Examples.recipient Examples.alice (PyFloat.of_decimal 3 1) "pending" in
  let two_oh_one := Examples.recipient Examples.bob (PyFloat.of_decimal 201 2) "pending" in
  Reference.float_literal "0.3" = Some (sol_nema_tokens three_tenths)
  ∧ token_amount_raw (H := Reference.platform) cfg three_tenths = Some 300000
  ∧ truncate_toward_zero
      (PyFloat.value (sol_nema_tokens three_tenths) * (1000000 # 1)) = 299999
  ∧ Reference.float_literal "2.01" = Some (sol_nema_tokens two_oh_one)
  ∧ token_amount_raw (H := Reference.platform) cfg two_oh_one = Some 2009999
  ∧ truncate_toward_zero ((201 # 100) * (1000000 # 1)) = 2010000.
Proof. vm_compute. repeat split; reflexivity. Qed.

(** C5, as the code has it. The raw quantity placed in a transfer
    instruction is the binary64 product of [allocationAmount] and
    [10^tokenDecimals], which is rounded to the nearest float, then
    truncated toward zero by [int], on both transfer paths ([transfer_ix]
    is the instruction of the batch path and of the single path); the
    conversion raises when the power of ten is too large for a float or
    the product is not finite. In particular 1.2345675 with six decimals
    gives 1234567: the float product is 1234567.5, which rounding to the
    nearest integer would take to 1234568. A quantity that is produced has
    the sign of the float product and is less than one unit short of it in
    magnitude; it can differ from the exact product truncated, as for 0.3
    (300000, the exact product truncating to 299999) and for 2.01
    (2009999). *)
Theorem token_amount_raw_truncates `{Platform} (cfg : AirdropConfig) (r : Recipient) :
  token_amount_raw cfg r =
    (scale ← PyFloat.of_int (10 ^ Z.of_nat (token_decimals cfg));
     let product := PyFloat.mul (sol_nema_tokens r) scale in
     if PyFloat.is_finite product
     then Some (truncate_toward_zero (PyFloat.value product))
     else None)
  ∧ (∀ amount, token_amount_raw cfg r = Some amount →
       ∃ scale, PyFloat.of_int (10 ^ Z.of_nat (token_decimals cfg)) = Some scale
         ∧ let product := PyFloat.value (PyFloat.mul (sol_nema_tokens r) scale) in
           (Qabs (inject_Z amount) <= Qabs product)%Q
           ∧ (Qabs product < Qabs (inject_Z amount) + 1)%Q
           ∧ ((0 <= product)%Q → 0 ≤ amount)
           ∧ ((product <= 0)%Q → amount ≤ 0))
  ∧ (∀ dest ix, transfer_ix cfg r dest = Some ix →
       ∃ amount, token_amount_raw cfg r = Some amount ∧
         ix = TransferChecked (source_token_account cfg) (token_mint cfg) dest
                (source_pubkey cfg) amount (token_decimals cfg))
  ∧ (token_decimals cfg = 6%nat →
     sol_nema_tokens r = PyFloat.of_decimal 12345675 7 →
     token_amount_raw cfg r = Some 1234567
     ∧ (PyFloat.value (PyFloat.mul (sol_nema_tokens r)
                         (binary_normalize PyFloat.prec PyFloat.emax 1000000 0 false))
        == 12345675 # 10)%Q
     ∧ truncate_toward_zero (12345675 # 10) = 1234567
     ∧ round_to_nearest (12345675 # 10) = 1234568)
  ∧ (token_decimals cfg = 6%nat →
     sol_nema_tokens r = PyFloat.of_decimal 3 1 →
     token_amount_raw cfg r = Some 300000
     ∧ truncate_toward_zero (PyFloat.value (sol_nema_tokens r) * (1000000 # 1))
       = 299999)
  ∧ (token_decimals cfg = 6%nat →
     sol_nema_tokens r = PyFloat.of_decimal 201 2 →
     token_amount_raw cfg r = Some 2009999).
Proof.
  split; [|split; [|split; [|split; [|split]]]].
  - unfold token_amount_raw.
    destruct (PyFloat.of_int _) as [scale|]; [|reflexivity].
    cbn. apply to_int_truncates.
  - intros amount. unfold token_amount_raw.
    destruct (PyFloat.of_int _) as [scale|]; [|discriminate].
    cbn [mbind option_bind]. rewrite to_int_truncates.
    destruct (PyFloat.is_finite _); [|discriminate]. intros [= <-].
    exists scale. split; [reflexivity|]. apply truncate_toward_zero_spec.
  - intros dest ix. unfold transfer_ix.
    destruct (token_amount_raw cfg r) as [amount|]; [|discriminate].
    cbn. intros [= <-]. eauto.
  - intros Hd Hx. unfold token_amount_raw. rewrite Hd, Hx.
    repeat split; vm_compute; congruence.
  - intros Hd Hx. unfold token_amount_raw. rewrite Hd, Hx.
    split; vm_compute; reflexivity.
  - intros Hd Hx. unfold token_amount_raw. rewrite Hd, Hx.
    vm_compute. reflexivity.
Qed.

Lemma token_amount_raw_truncates_witness :
  token_amount_raw (H := Reference.platform) (Examples.config false)
    (Examples.recipient Examples.alice (PyFloat.of_decimal 12345675 7) "pending")
  = Some 1234567.
Proof.
  apply (token_amount_raw_truncates (H := Reference.platform) (Examples.config false)
           (Examples.recipient Examples.alice (PyFloat.of_decimal 12345675 7) "pending"));
    reflexivity.
Defined.

(** ** Recipient Validator *)

Section Validator.
Context `{Platform} (cfg : AirdropConfig).

Lemma load_rows_run (rows : list row) (s : Manager) :
  for_each rows (λ r,
    match _parse_recipient_row cfg r with
    | Some rcp => modify (λ s, set_recipients (recipients s ++ [rcp]) s)
    | None => ret ()
    end) s
  = (Done (), set_recipients (recipients s ++ omap (_parse_recipient_row cfg) rows) s).
Proof.
  revert s. induction rows as [|r rows IH]; intros s.
  - cbn. rewrite app_nil_r. unfold ret, set_recipients. rewrite manager_eta. reflexivity.
  - cbn [for_each omap]. unfold bind.
    destruct (_parse_recipient_row cfg r) as [rcp|] eqn:Hp; cbn; rewrite ?Hp.
    + rewrite IH. cbn. rewrite <- app_assoc. reflexivity.
    + apply IH.
Qed.

Lemma parsed_recipient_shape (r : row) (rcp : Recipient) :
  _parse_recipient_row cfg r = Some rcp →
  status rcp = "pending" ∧ is_Some (pubkey rcp) ∧ token_account rcp = None
  ∧ PyFloat.leb (sol_nema_tokens rcp) PyFloat.zero = false.
Proof.
  unfold _parse_recipient_row. intros Hp.
  repeat (case_match; try discriminate).
  injection Hp as <-. cbn. eauto.
Qed.

Lemma rejected_count (rows : list row) :
  (length (omap (_parse_recipient_row cfg) rows) + length (rejected_rows cfg rows)
   = length rows)%nat.
Proof.
  unfold rejected_rows. induction rows as [|r rows IH]; [reflexivity|].
  cbn. destruct (_parse_recipient_row cfg r); cbn; lia.
Qed.

(** What loading the rows of a CSV does to the manager. *)
Lemma load_recipients_rows (rows : list row) (s : Manager) :
  let valid := omap (_parse_recipient_row cfg) rows in
  load_recipients cfg (CsvRows rows) s
    = (Done (bool_decide (0 < length (recipients s ++ valid))%nat),
       set_recipients (recipients s ++ valid) s)
  ∧ Forall (λ r, status r = "pending" ∧ is_Some (pubkey r)) valid.
Proof.
  intros valid. split.
  - unfold load_recipients.
    erewrite bind_done by apply load_rows_run. reflexivity.
  - apply Forall_forall. intros r Hr.
    apply list_elem_of_omap in Hr as (x & _ & Hx).
    apply parsed_recipient_shape in Hx. tauto.
Qed.

End Validator.

(** The claim fails at a CSV whose only row has a non-positive amount:
    loading reports failure, the run aborts whatever the world does, and
    nothing is counted as skipped. The same row after two good ones is
    dropped without being counted. *)
Lemma load_recipients_fatal_without_valid_row :
  let cfg := Examples.config false in
  let zero_row := Examples.csv_row Examples.carol "7" "0.0" in
  load_recipients cfg (CsvRows [zero_row]) (new_manager Missing)
    = (Done false, new_manager Missing)
  ∧ (∀ w, result_of (run_airdrop w cfg (CsvRows [zero_row]) (new_manager Missing))
          = Done false)
  ∧ (let s := state_of (load_recipients cfg
                 (CsvRows [Examples.csv_row Examples.alice "5" "100.0";
                           Examples.csv_row Examples.bob "3" "50.0"; zero_row])
                 (new_manager Missing)) in
     map sol_wallet (recipients s) = [Examples.alice; Examples.bob]
     ∧ skipped_transfers s = 0
     ∧ Forall (λ v, v ≠ "skipped") (map status (recipients s))).
Proof.
  split; [|split].
  - reflexivity.
  - intros w. vm_compute. reflexivity.
  - vm_compute. repeat split. repeat constructor; discriminate.
Qed.

(** C9, as the code has it. Loading never raises. The recipient list gains
    exactly the rows that parse, in input order, each [pending] with its
    public key and a positive (or NaN) amount; a row with a malformed
    address or a non-positive amount is dropped: it becomes no recipient,
    is not counted in [skipped_transfers], and the later rows are still
    read. Validated and rejected rows add up to the input. Loading
    succeeds exactly when at least one recipient is loaded. *)
Theorem load_recipients_drops_invalid_rows `{Platform} (cfg : AirdropConfig)
    (rows : list row) (s : Manager) :
  let valid := omap (_parse_recipient_row cfg) rows in
  load_recipients cfg (CsvRows rows) s
    = (Done (bool_decide (0 < length (recipients s ++ valid))%nat),
       set_recipients (recipients s ++ valid) s)
  ∧ (length valid + length (rejected_rows cfg rows) = length rows)%nat
  ∧ Forall (λ r, status r = "pending" ∧ is_Some (pubkey r)
                 ∧ PyFloat.leb (sol_nema_tokens r) PyFloat.zero = false) valid
  ∧ (∀ r cell, r !! "sol_wallet" = Some (Some cell) →
       Pubkey_from_string (py_strip cell) = None →
       _parse_recipient_row cfg r = None)
  ∧ (∀ r cell x, r !! phase_column cfg = Some (Some cell) →
       py_float cell = Some x → PyFloat.leb x PyFloat.zero = true →
       _parse_recipient_row cfg r = None).
Proof.
  intros valid. split; [|split; [|split; [|split]]].
  - unfold load_recipients.
    erewrite bind_done by apply load_rows_run. reflexivity.
  - apply rejected_count.
  - apply Forall_forall. intros r Hr.
    apply list_elem_of_omap in Hr as (x & _ & Hx).
    apply parsed_recipient_shape in Hx. tauto.
  - intros r cell Hw Hk. unfold _parse_recipient_row. rewrite Hw.
    repeat (case_match; try reflexivity); congruence.
  - intros r cell x Hc Hf Hle. unfold _parse_recipient_row. rewrite Hc.
    repeat (case_match; try reflexivity); congruence.
Qed.

Lemma load_recipients_drops_invalid_rows_witness :
  _parse_recipient_row (H := Reference.platform) (Examples.config false)
    (Examples.csv_row "not-an-address" "7" "12.5") = None
  ∧ _parse_recipient_row (H := Reference.platform) (Examples.config false)
      (Examples.csv_row Examples.carol "7" "0.0") = None.
Proof.
  destruct (load_recipients_drops_invalid_rows (H := Reference.platform)
              (Examples.config false) [] (new_manager Missing))
    as (_ & _ & _ & Haddr & Hamount).
  split.
  - apply (Haddr _ "not-an-address"); reflexivity.
  - apply (Hamount _ "0.0" (S754_zero false)); reflexivity.
Defined.

(** ** Checkpoint Store *)

Section Checkpoint.
Context `{Platform} (w : World) (cfg : AirdropConfig).

Lemma recipient_at_run (s : Manager) (i : nat) (r : Recipient) :
  recipients s !! i = Some r → recipient_at i s = (Done r, s).
Proof. unfold recipient_at. intros ->. reflexivity. Qed.

Lemma set_status_run (s : Manager) (i : nat) (r : Recipient) (v : string) :
  recipients s !! i = Some r →
  set_status i v s =
    (Done (), record (StatusSet i (status r) v)
                (set_recipients (<[i := with_status v r]> (recipients s)) s)).
Proof. unfold set_status. intros ->. reflexivity. Qed.

Lemma restore_loop (d : gmap string string) (rest done : list Recipient) (s : Manager) :
  recipients s = done ++ rest →
  for_each (seq (length done) (length rest)) (λ i,
    let* r := recipient_at i in
    match d !! sol_wallet r with
    | Some v => set_status i v
    | None => ret ()
    end) s
  = (Done (),
     advance (rev (restore_events d (length done) rest)) (tick s)
       (set_recipients (done ++ map (restored d) rest) s)).
Proof.
  revert done s. induction rest as [|r rest IH]; intros done s Hs.
  - cbn. unfold ret, advance; cbn. rewrite <- Hs. rewrite manager_eta. reflexivity.
  - cbn [length seq for_each].
    assert (Hi : recipients s !! length done = Some r)
      by (rewrite Hs; apply list_lookup_middle; reflexivity).
    unfold bind at 1. unfold bind at 1. rewrite (recipient_at_run s _ r Hi).
    cbn [restore_events map].
    destruct (d !! sol_wallet r) as [v|] eqn:Hd.
    + assert (Hr : restored d r = with_status v r)
        by (unfold restored; rewrite Hd; reflexivity).
      rewrite Hr, (set_status_run s _ r v Hi).
      specialize (IH (done ++ [with_status v r])).
      rewrite length_app, Nat.add_1_r in IH.
      rewrite IH.
      * unfold advance; cbn. rewrite <- !app_assoc. reflexivity.
      * cbn. rewrite Hs.
        rewrite (insert_app_r_alt done) by lia.
        rewrite Nat.sub_diag. cbn. rewrite <- app_assoc. reflexivity.
    + assert (Hr : restored d r = r)
        by (unfold restored; rewrite Hd; reflexivity).
      rewrite Hr. unfold ret at 1.
      specialize (IH (done ++ [r])).
      rewrite length_app, Nat.add_1_r in IH.
      rewrite IH.
      * rewrite <- !app_assoc. reflexivity.
      * rewrite Hs, <- app_assoc. reflexivity.
Qed.

Lemma restore_statuses_run (d : gmap string string) (s : Manager) :
  restore_statuses d s =
    (Done (),
     advance (rev (restore_events d 0 (recipients s))) (tick s)
       (set_recipients (map (restored d) (recipients s)) s)).
Proof.
  unfold restore_statuses, gets, bind.
  apply (restore_loop d (recipients s) [] s). reflexivity.
Qed.

Lemma restore_events_writes d k rs : Forall is_status_write (restore_events d k rs).
Proof.
  revert k. induction rs as [|r rs IH]; intros k; cbn; [constructor|].
  destruct (d !! sol_wallet r); [constructor; [exact I|]|]; apply IH.
Qed.

Lemma progress_statuses_fold (rs : list Recipient) (acc : gmap string string) :
  foldl (λ acc e,
           match acc, pe_sol_wallet e, pe_status e with
           | Some d, Some wallet, Some v => Some (<[wallet := v]> d)
           | _, _, _ => None
           end)
        (Some acc) (map entry_of rs)
  = Some (foldl (λ d r, <[sol_wallet r := status r]> d) acc rs).
Proof.
  revert acc. induction rs as [|r rs IH]; intros acc; [reflexivity|].
  cbn. apply IH.
Qed.

Lemma progress_statuses_saved (rs : list Recipient) :
  progress_statuses (map entry_of rs) = Some (saved_statuses rs).
Proof. apply progress_statuses_fold. Qed.

Lemma saved_fold_lookup (rs : list Recipient) (acc : gmap string string) (k v : string) :
  foldl (λ d r, <[sol_wallet r := status r]> d) acc rs !! k = Some v →
  acc !! k = Some v ∨ ∃ p, p ∈ rs ∧ sol_wallet p = k ∧ status p = v.
Proof.
  revert acc. induction rs as [|r rs IH]; intros acc; cbn; [tauto|].
  intros Hl. apply IH in Hl as [Hl|(p & Hp & Hw & Hv)].
  - destruct (decide (sol_wallet r = k)) as [<-|Hne].
    + rewrite lookup_insert_eq in Hl. injection Hl as <-.
      right. exists r. split; [left|]; done.
    + rewrite lookup_insert_ne in Hl by done. tauto.
  - right. exists p. split; [right|]; done.
Qed.

Lemma saved_fold_lookup_None (rs : list Recipient) (acc : gmap string string) (k : string) :
  foldl (λ d r, <[sol_wallet r := status r]> d) acc rs !! k = None →
  acc !! k = None ∧ ∀ p, p ∈ rs → sol_wallet p ≠ k.
Proof.
  revert acc. induction rs as [|r rs IH]; intros acc; cbn.
  - intros ->. split; [done|]. intros p Hp. inversion Hp.
  - intros Hl. apply IH in Hl as [Hl Hrs].
    destruct (decide (sol_wallet r = k)) as [<-|Hne].
    + rewrite lookup_insert_eq in Hl. discriminate.
    + rewrite lookup_insert_ne in Hl by done. split; [done|].
      intros p [->|Hp]%elem_of_cons; auto.
Qed.

Lemma saved_fold_fresh (rs : list Recipient) (acc : gmap string string) (k : string) :
  k ∉ map sol_wallet rs →
  foldl (λ d r, <[sol_wallet r := status r]> d) acc rs !! k = acc !! k.
Proof.
  revert acc. induction rs as [|r rs IH]; intros acc Hk; cbn; [done|].
  cbn in Hk. apply not_elem_of_cons in Hk as [Hne Hk].
  rewrite IH by done. apply lookup_insert_ne. done.
Qed.

Lemma saved_statuses_lookup (rs : list Recipient) (k v : string) :
  saved_statuses rs !! k = Some v →
  ∃ p, p ∈ rs ∧ sol_wallet p = k ∧ status p = v.
Proof.
  intros [Hl|Hl]%saved_fold_lookup; [|done].
  rewrite lookup_empty in Hl. discriminate.
Qed.

Lemma saved_statuses_lookup_None (rs : list Recipient) (k : string) :
  saved_statuses rs !! k = None → ∀ p, p ∈ rs → sol_wallet p ≠ k.
Proof. intros Hl. apply saved_fold_lookup_None in Hl. tauto. Qed.

(** With pairwise distinct wallets the dict gives back each recipient's
    own status. *)
Lemma saved_statuses_distinct (rs : list Recipient) (i : nat) (p : Recipient) :
  NoDup (map sol_wallet rs) → rs !! i = Some p →
  saved_statuses rs !! sol_wallet p = Some (status p).
Proof.
  unfold saved_statuses. generalize (∅ : gmap string string).
  revert i. induction rs as [|r rs IH]; intros i acc Hnd Hi; [done|].
  cbn in Hnd. apply NoDup_cons in Hnd as [Hr Hnd].
  destruct i as [|i]; cbn in Hi |- *.
  - injection Hi as ->. rewrite saved_fold_fresh by done. apply lookup_insert_eq.
  - eapply IH; eauto.
Qed.

(** [load_progress] on a file that is absent, cannot be opened or does not
    parse: nothing changes. *)
Lemma load_progress_unusable (s : Manager) :
  progress_file s = Missing ∨ progress_file s = Unreadable
  ∨ progress_file s = Contents Garbled →
  load_progress cfg s = (Done false, s).
Proof.
  unfold load_progress, try_, bind, gets.
  intros [-> | [-> | ->]]; reflexivity.
Qed.

(** [load_progress] on a document. *)
Lemma load_progress_document (s : Manager) (pd : progress_data) :
  progress_file s = Contents (Document pd) →
  load_progress cfg s =
    if bool_decide (pd_phase pd = Some (phase cfg))
       && bool_decide (pd_total_recipients pd = Some (Z.of_nat (length (recipients s))))
    then
      let s1 := set_counters (default 0 (pd_successful_transfers pd))
                  (default 0 (pd_failed_transfers pd))
                  (default 0 (pd_skipped_transfers pd)) s in
      match progress_statuses (default [] (pd_recipients pd)) with
      | Some d =>
          (Done true,
           advance (rev (restore_events d 0 (recipients s))) (tick s)
             (set_recipients (map (restored d) (recipients s)) s1))
      | None => (Done false, s1)
      end
    else (Done false, s).
Proof.
  intros Hf. unfold load_progress, try_, bind at 1, gets at 1. rewrite Hf.
  destruct (bool_decide (pd_phase pd = _)); cbn [negb andb]; [|reflexivity].
  unfold bind at 1, gets at 1. cbn [length].
  destruct (bool_decide (pd_total_recipients pd = _)); cbn [negb]; [|reflexivity].
  unfold bind at 1, modify at 1.
  unfold bind at 1.
  destruct (progress_statuses _) as [d|]; cbn [or_raise]; [|reflexivity].
  unfold ret at 1. unfold bind at 1. rewrite restore_statuses_run. reflexivity.
Qed.

End Checkpoint.

Lemma pending_from_all `{Platform} (k : nat) (rs : list Recipient) :
  Forall (λ r, status r = "pending") rs → pending_from k rs = seq k (length rs).
Proof.
  intros Hall. revert k. induction Hall as [|r rs Hr _ IH]; intros k; [reflexivity|].
  cbn. rewrite Hr. cbn. f_equal. apply IH.
Qed.

Lemma restored_shape `{Platform} (d : gmap string string) (r : Recipient) :
  restored d r = with_status (status (restored d r)) r.
Proof. unfold restored. destruct (d !! sol_wallet r); destruct r; reflexivity. Qed.

(** C2. A checkpoint persisted by [save_progress] (of any earlier run) is
    restored if and only if its phase equals the current phase and its
    recipient count equals the length of the current recipient list: then
    the three counters are those of the checkpoint and each recipient takes
    the status the checkpoint records for its wallet, nothing else of it
    changing. On a mismatch, and when the file is absent, cannot be read or
    does not parse, [load_progress] answers "no" and leaves the manager
    exactly as it was, so that freshly loaded recipients all stay pending
    and all of them form the working set. *)
Theorem load_progress_restores_iff_match `{Platform} (cfg prev_cfg : AirdropConfig)
    (timestamp : Z) (prev s : Manager) :
  let matching :=
    phase prev_cfg = phase cfg ∧ length (recipients prev) = length (recipients s) in
  (progress_file s = Contents (Document (snapshot prev_cfg timestamp prev)) →
     (matching →
        ∃ s', load_progress cfg s = (Done true, s')
          ∧ successful_transfers s' = successful_transfers prev
          ∧ failed_transfers s' = failed_transfers prev
          ∧ skipped_transfers s' = skipped_transfers prev
          ∧ ∀ i r, recipients s !! i = Some r →
              ∃ r', recipients s' !! i = Some r' ∧ r' = with_status (status r') r
                ∧ ((∃ p, p ∈ recipients prev ∧ sol_wallet p = sol_wallet r
                         ∧ status r' = status p)
                   ∨ ((∀ p, p ∈ recipients prev → sol_wallet p ≠ sol_wallet r)
                      ∧ status r' = status r)))
     ∧ (¬ matching → load_progress cfg s = (Done false, s)))
  ∧ (progress_file s = Missing ∨ progress_file s = Unreadable
     ∨ progress_file s = Contents Garbled →
     load_progress cfg s = (Done false, s))
  ∧ (load_progress cfg s = (Done false, s) →
     Forall (λ r, status r = "pending") (recipients s) →
     pending_from 0 (recipients s) = seq 0 (length (recipients s))).
Proof.
  intros matching. split; [|split].
  - intros Hf. rewrite (load_progress_document cfg s _ Hf). cbn [snapshot pd_phase
      pd_total_recipients pd_successful_transfers pd_failed_transfers
      pd_skipped_transfers pd_recipients default from_option id].
    rewrite progress_statuses_saved.
    split.
    + intros [Hp Hn].
      rewrite Hp, Hn, !bool_decide_eq_true_2 by reflexivity. cbn [andb].
      eexists. split; [reflexivity|]. cbn.
      repeat (split; [reflexivity|]).
      intros i r Hi. exists (restored (saved_statuses (recipients prev)) r).
      split; [rewrite list_lookup_fmap, Hi; reflexivity|].
      split; [apply restored_shape|].
      unfold restored.
      destruct (saved_statuses (recipients prev) !! sol_wallet r) as [v|] eqn:Hd.
      * left. apply saved_statuses_lookup in Hd as (p & Hp' & Hw & Hv).
        exists p. cbn. auto.
      * right. split; [|reflexivity].
        apply saved_statuses_lookup_None. exact Hd.
    + intros Hm.
      destruct (bool_decide _) eqn:Hb1; [|reflexivity].
      destruct (bool_decide (_ = Some (Z.of_nat (length (recipients s))))) eqn:Hb2;
        [|reflexivity].
      exfalso. apply Hm.
      apply bool_decide_eq_true_1 in Hb1, Hb2.
      injection Hb1 as Hb1. injection Hb2 as Hb2. split; [done | lia].
  - apply load_progress_unusable.
  - intros _. apply pending_from_all.
Qed.

Lemma load_progress_restores_iff_match_witness :
  ∃ s', load_progress (H := Reference.platform) (Examples.config false)
          (Examples.manager Examples.fresh Examples.checkpoint) = (Done true, s')
        ∧ successful_transfers s' = 1
        ∧ map status (recipients s') = ["success"; "pending"].
Proof.
  destruct (load_progress_restores_iff_match (H := Reference.platform)
              (Examples.config false) (Examples.config false) 1700000000
              Examples.interrupted
              (Examples.manager Examples.fresh Examples.checkpoint))
    as [Hdoc _].
  destruct (Hdoc eq_refl) as [Hyes _].
  destruct (Hyes (conj eq_refl eq_refl)) as (s' & Hrun & Hok & _).
  exists s'. split; [exact Hrun|]. split; [exact Hok|].
  replace s' with (state_of (load_progress (Examples.config false)
                     (Examples.manager Examples.fresh Examples.checkpoint)))
    by (rewrite Hrun; reflexivity).
  vm_compute. reflexivity.
Defined.

(** Beyond the files [save_progress] writes: a document that parses but
    lacks a key of an entry (here a status) makes the dict comprehension
    raise after the three counters have been assigned, so [load_progress]
    answers "no" with every status untouched and the counters of the
    document in place. *)
Lemma load_progress_incomplete_document :
  let d := {| pd_timestamp := Some 1700000000; pd_phase := Some 1;
              pd_total_recipients := Some 2;
              pd_successful_transfers := Some 1; pd_failed_transfers := Some 0;
              pd_skipped_transfers := Some 0;
              pd_recipients :=
                Some [ {| pe_sol_wallet := Some Examples.alice;
                          pe_sol_nema_tokens := Some Examples.amount;
                          pe_status := None |} ] |} in
  let run := load_progress (H := Reference.platform) (Examples.config false)
               (Examples.manager Examples.fresh (Contents (Document d))) in
  result_of run = Done false
  ∧ map status (recipients (state_of run)) = ["pending"; "pending"]
  ∧ successful_transfers (state_of run) = 1.
Proof. vm_compute. auto. Qed.

Section Saving.
Context `{Platform} (w : World) (cfg : AirdropConfig).

Lemma save_progress_run (s : Manager) :
  save_progress w cfg s =
    (Done (),
     match fs_write w (S (tick s)) with
     | Completes =>
         set_progress_file (Contents (Document (snapshot cfg (clock w (tick s)) s)))
           (advance [FileOpenedForWrite] (S (S (tick s))) s)
     | OpenFails => advance [] (S (S (tick s))) s
     | CutShort =>
         set_progress_file (Contents Garbled)
           (advance [FileOpenedForWrite] (S (S (tick s))) s)
     end).
Proof.
  unfold save_progress, try_, bind, now, gets, fate_of_write. cbn.
  destruct (fs_write w (S (tick s))); reflexivity.
Qed.

(** A save answers without raising and changes nothing of the manager but
    the file, the tick and the journal, where it notes the opening. *)
Lemma save_progress_frame (s : Manager) :
  ∃ s' new, save_progress w cfg s = (Done (), s')
    ∧ recipients s' = recipients s
    ∧ successful_transfers s' = successful_transfers s
    ∧ failed_transfers s' = failed_transfers s
    ∧ skipped_transfers s' = skipped_transfers s
    ∧ journal s' = new ++ journal s
    ∧ Forall (λ e, e = FileOpenedForWrite) new.
Proof.
  rewrite save_progress_run.
  destruct (fs_write w (S (tick s)));
    [eexists _, [FileOpenedForWrite] | eexists _, [] | eexists _, [FileOpenedForWrite]];
    (split; [reflexivity|]); repeat (split; [reflexivity|]); repeat constructor.
Qed.

End Saving.

(** The claim fails where a write is cut short (the world [disk_full]): a
    run resumed from a usable checkpoint saves, the dump stops after the
    file was opened, and what is left on disk is neither the old checkpoint
    nor the new one; the next load sees that partial file and rejects it. *)
Lemma save_progress_cut_short_loses_checkpoint :
  let cfg := Examples.config false in
  let s := Examples.manager Examples.fresh Examples.checkpoint in
  let s' := state_of (save_progress Examples.disk_full cfg s) in
  result_of (load_progress cfg s) = Done true
  ∧ progress_file s' = Contents Garbled
  ∧ progress_file s' ≠ progress_file s
  ∧ (∀ t, progress_file s' ≠ Contents (Document (snapshot cfg t s)))
  ∧ load_progress cfg s' = (Done false, s').
Proof.
  cbv zeta. split; [|split; [|split; [|split]]].
  - vm_compute. reflexivity.
  - vm_compute. reflexivity.
  - vm_compute. discriminate.
  - intros t. vm_compute. discriminate.
  - reflexivity.
Qed.

(** C8, as the code has it. [save_progress] never raises and changes
    neither recipients nor counters. When the write completes, the file
    holds the full snapshot (phase, recipient count, the three counters and
    one entry with the status of every recipient) in place of its prior
    content, and a load by the same run accepts it. The write is made in
    place on the file itself: when [open] fails the prior file is
    untouched, and when the dump is cut short after [open] has truncated
    the file, a partial file is left, which a later load rejects without
    restoring anything. *)
Theorem save_progress_in_place `{Platform} (w : World) (cfg : AirdropConfig)
    (s : Manager) :
  let '(o, s') := save_progress w cfg s in
  o = Done ()
  ∧ recipients s' = recipients s
  ∧ successful_transfers s' = successful_transfers s
  ∧ failed_transfers s' = failed_transfers s
  ∧ skipped_transfers s' = skipped_transfers s
  ∧ match fs_write w (S (tick s)) with
    | Completes =>
        ∃ d, progress_file s' = Contents (Document d)
          ∧ pd_phase d = Some (phase cfg)
          ∧ pd_total_recipients d = Some (Z.of_nat (length (recipients s)))
          ∧ pd_successful_transfers d = Some (successful_transfers s)
          ∧ pd_failed_transfers d = Some (failed_transfers s)
          ∧ pd_skipped_transfers d = Some (skipped_transfers s)
          ∧ pd_recipients d = Some (map entry_of (recipients s))
          ∧ result_of (load_progress cfg s') = Done true
    | OpenFails => progress_file s' = progress_file s
    | CutShort =>
        progress_file s' = Contents Garbled
        ∧ load_progress cfg s' = (Done false, s')
    end.
Proof.
  rewrite save_progress_run.
  repeat (split; [destruct (fs_write w (S (tick s))); reflexivity|]).
  destruct (fs_write w (S (tick s))).
  - eexists. repeat (split; [reflexivity|]).
    erewrite load_progress_document by reflexivity.
    cbn. rewrite !bool_decide_eq_true_2 by reflexivity. cbn.
    rewrite progress_statuses_saved. reflexivity.
  - reflexivity.
  - split; [reflexivity|]. apply load_progress_unusable. cbn. auto.
Qed.

(** ** Transfer Executor: the single-transfer path *)

Section Single.
Context `{Platform} (w : World) (cfg : AirdropConfig).

(** One attempt answers without raising; it adds to the journal either the
    successful submission, or the failure line, preceded by the submission
    when one was made. *)
Lemma single_attempt_spec (i : nat) (r : Recipient) (dest : Pubkey) (k : nat)
    (s : Manager) :
  ∃ b new t, single_attempt w cfg i r dest k s = (Done b, advance new t s)
    ∧ (b = true → ∃ ix v, transfer_ix cfg r dest = Some ix
                          ∧ new = [SentSingle i k ix (Value v)])
    ∧ (b = false →
         new = [LogAttemptFailed i k]
         ∨ ∃ ix reply, transfer_ix cfg r dest = Some ix
             ∧ (∀ v, reply ≠ Value v)
             ∧ new = [LogAttemptFailed i k; SentSingle i k ix reply]).
Proof.
  unfold single_attempt, try_, bind, or_raise, get_latest_blockhash, rpc_call,
    log, modify, sent, ret, raise.
  destruct (transfer_ix cfg r dest) as [ix|] eqn:Hix; cbn.
  2:{ exists false, [LogAttemptFailed i k], (tick s).
      split; [reflexivity|]. split; [discriminate|]. auto. }
  destruct (rpc w (tick s)) eqn:Hb; cbn.
  2,3: exists false, [LogAttemptFailed i k], (S (tick s));
       (split; [reflexivity|]); (split; [discriminate|]); auto.
  destruct (rpc w (S (tick s))) as [v'| |] eqn:Hr; cbn.
  - exists true, [SentSingle i k ix (Value v')], (S (S (tick s))).
    split; [reflexivity|]. split; [eauto|discriminate].
  - exists false, [LogAttemptFailed i k; SentSingle i k ix Null], (S (S (tick s))).
    split; [reflexivity|]. split; [discriminate|].
    intros _. right. exists ix, Null. repeat split; congruence.
  - exists false, [LogAttemptFailed i k; SentSingle i k ix Raises], (S (S (tick s))).
    split; [reflexivity|]. split; [discriminate|].
    intros _. right. exists ix, Raises. repeat split; congruence.
Qed.

Lemma single_event_mono r dest i lo lo' hi hi' e :
  (lo' ≤ lo)%nat → (hi ≤ hi')%nat →
  single_event cfg r dest i lo hi e → single_event cfg r dest i lo' hi' e.
Proof. intros ? ?. destruct e; cbn; try tauto; intuition lia. Qed.

(** The retry loop: it answers without raising, touches nothing but the
    journal and the tick, makes at most [n] attempts, answers [true]
    exactly when it made a successful submission, and has logged every one
    of the [n] attempts as failed when it answers [false]. *)
Lemma single_attempts_spec (i : nat) (r : Recipient) (dest : Pubkey) (n a : nat)
    (s : Manager) :
  ∃ b new t, single_attempts w cfg i r dest a n s = (Done b, advance new t s)
    ∧ Forall (single_event cfg r dest i a (a + n)) new
    ∧ (b = true ↔ ∃ k ix v, SentSingle i k ix (Value v) ∈ new)
    ∧ (b = false → ∀ k, (a ≤ k < a + n)%nat → LogAttemptFailed i k ∈ new).
Proof.
  revert a s. induction n as [|n IH]; intros a s.
  - exists false, [LogGaveUp i], (tick s). split; [reflexivity|].
    split; [repeat constructor|]. split.
    + split; [discriminate|]. intros (k & ix & v & Hin).
      apply list_elem_of_singleton in Hin. discriminate.
    + intros _ k Hk. lia.
  - cbn [single_attempts].
    destruct (single_attempt_spec i r dest a s) as (b & new & t & Hrun & Hyes & Hno).
    rewrite (bind_done _ _ _ _ _ Hrun).
    destruct b.
    + destruct (Hyes eq_refl) as (ix & v & Hix & ->).
      exists true, [SentSingle i a ix (Value v)], t. split; [reflexivity|].
      split; [repeat constructor; cbn; auto with lia|].
      split; [|discriminate].
      split; [|reflexivity]. intros _. exists a, ix, v. left.
    + destruct (IH (S a) (advance new t s)) as (b' & new' & t' & Hrun' & Hev & Hb & Hfail).
      exists b', (new' ++ new), t'.
      split; [rewrite Hrun', advance_advance; reflexivity|].
      assert (Hnew : Forall (single_event cfg r dest i a (a + S n)) new
                     ∧ LogAttemptFailed i a ∈ new
                     ∧ ∀ k ix v, SentSingle i k ix (Value v) ∉ new).
      { destruct (Hno eq_refl) as [->|(ix & reply & Hix & Hreply & ->)].
        - split; [repeat constructor; cbn; lia|]. split; [left|].
          intros k ix v Hin. apply list_elem_of_singleton in Hin. discriminate.
        - split; [repeat constructor; cbn; auto with lia|]. split; [left|].
          intros k ix' v Hin.
          apply elem_of_cons in Hin as [Hin|Hin]; [discriminate|].
          apply list_elem_of_singleton in Hin. injection Hin as _ _ Hv.
          eapply Hreply; eauto. }
      destruct Hnew as (Hnew & Hlog & Hnone).
      split; [apply Forall_app; split; [|exact Hnew]|].
      { eapply Forall_impl; [exact Hev|]. intros e.
        apply single_event_mono; lia. }
      split.
      * rewrite Hb. split; intros (k & ix & v & Hin); exists k, ix, v.
        -- apply elem_of_app. auto.
        -- apply elem_of_app in Hin as [Hin|Hin]; [exact Hin|].
           exfalso. eapply Hnone; eauto.
      * intros Hb' k Hk. apply elem_of_app.
        destruct (decide (k = a)) as [->|Hne]; [right; exact Hlog|].
        left. apply Hfail; [exact Hb'|lia].
Qed.

End Single.

(** ** Facts on recipient lists *)

Section Lists.
Context `{Platform}.

Lemma static_with_status (v : string) (r : Recipient) : static (with_status v r) = static r.
Proof. reflexivity. Qed.

Lemma has_keys_static (r : Recipient) : has_keys (static r) = has_keys r.
Proof. reflexivity. Qed.

Lemma static_insert (rs : list Recipient) (i : nat) (r : Recipient) (v : string) :
  rs !! i = Some r → map static (<[i := with_status v r]> rs) = map static rs.
Proof.
  intros Hi. rewrite list_fmap_insert, static_with_status.
  apply list_insert_id. rewrite list_lookup_fmap, Hi. reflexivity.
Qed.

Lemma keyed_static (rs : list Recipient) (i : nat) :
  keyed (map static rs) i = keyed rs i.
Proof.
  unfold keyed. rewrite list_lookup_fmap. destruct (rs !! i); reflexivity.
Qed.

Lemma is_transfer_of_static (cfg : AirdropConfig) (rs : list Recipient) (i : nat)
    (ix : instruction) :
  is_transfer_of cfg (map static rs) i ix ↔ is_transfer_of cfg rs i ix.
Proof.
  unfold is_transfer_of. rewrite list_lookup_fmap. split.
  - intros (r & dest & Hr & Hd & Hix).
    destruct (rs !! i) as [r0|]; [|discriminate]. injection Hr as <-.
    exists r0, dest. auto.
  - intros (r & dest & Hr & Hd & Hix). rewrite Hr.
    exists (static r), dest. auto.
Qed.

Lemma transfer_event_ok_mono (cfg : AirdropConfig) (rs : list Recipient)
    (L L' : list nat) (e : event) :
  L ⊆ L' → transfer_event_ok cfg rs L e → transfer_event_ok cfg rs L' e.
Proof.
  intros HL. destruct e; cbn; try tauto; try (intuition auto; fail).
  intros (Hb & Htx & Hix). split; [|auto]. set_solver.
Qed.

Lemma marked_length (v : string) (batch : list nat) (rs : list Recipient) :
  length (marked v batch rs) = length rs.
Proof.
  revert rs. induction batch as [|i batch IH]; intros rs; [reflexivity|].
  cbn. destruct (rs !! i); [|reflexivity]. rewrite IH. apply length_insert.
Qed.

Lemma marked_static (v : string) (batch : list nat) (rs : list Recipient) :
  map static (marked v batch rs) = map static rs.
Proof.
  revert rs. induction batch as [|i batch IH]; intros rs; [reflexivity|].
  cbn. destruct (rs !! i) eqn:Hi; [|reflexivity].
  rewrite IH. apply static_insert. exact Hi.
Qed.

Lemma marked_lookup (v : string) (batch : list nat) (rs : list Recipient) (j : nat) :
  (∀ i, i ∈ batch → is_Some (rs !! i)) →
  marked v batch rs !! j =
    if decide (j ∈ batch) then with_status v <$> rs !! j else rs !! j.
Proof.
  revert rs. induction batch as [|i batch IH]; intros rs Hv.
  - cbn. rewrite decide_False by apply not_elem_of_nil. reflexivity.
  - cbn. destruct (Hv i) as [r Hr]; [left|]. rewrite Hr.
    rewrite IH.
    2:{ intros k Hk. apply lookup_lt_is_Some. rewrite length_insert.
        apply lookup_lt_is_Some. apply Hv. right. exact Hk. }
    destruct (decide (j = i)) as [->|Hne].
    + rewrite list_lookup_insert_eq by (eapply lookup_lt_Some; eauto).
      rewrite (decide_True (P := i ∈ i :: batch)) by left.
      rewrite Hr. cbn. destruct (decide (i ∈ batch)); reflexivity.
    + rewrite list_lookup_insert_ne by done.
      destruct (decide (j ∈ batch)) as [Hin|Hout].
      * rewrite decide_True by (right; exact Hin). reflexivity.
      * rewrite decide_False; [reflexivity|].
        intros [?|?]%elem_of_cons; done.
Qed.

(** Every write of the marking loop is on a member of the batch and
    replaces the member's initial status, or rewrites [v]. *)
Lemma mark_events_spec (v : string) (batch : list nat) (rs : list Recipient) :
  Forall (λ e, ∃ i old, e = StatusSet i old v ∧ i ∈ batch
                        ∧ (status_at rs i = Some old ∨ old = v))
    (mark_events v batch rs).
Proof.
  revert rs. induction batch as [|i batch IH]; intros rs; [constructor|].
  cbn. destruct (rs !! i) as [r|] eqn:Hr; [|constructor].
  constructor.
  - exists i, (status r). split; [reflexivity|]. split; [left|].
    left. unfold status_at. rewrite Hr. reflexivity.
  - eapply Forall_impl; [apply IH|]. cbn.
    intros e (j & old & -> & Hj & Hold). exists j, old.
    split; [reflexivity|]. split; [right; exact Hj|].
    destruct Hold as [Hold|Hold]; [|auto].
    unfold status_at in Hold |- *.
    destruct (decide (j = i)) as [->|Hne].
    + rewrite list_lookup_insert_eq in Hold by (eapply lookup_lt_Some; eauto).
      cbn in Hold. injection Hold as <-. auto.
    + rewrite list_lookup_insert_ne in Hold by done. auto.
Qed.

Lemma count_status_insert (v v' : string) (rs : list Recipient) (i : nat) (r : Recipient) :
  rs !! i = Some r →
  count_status v (<[i := with_status v' r]> rs) =
    count_status v rs - (if decide (status r = v) then 1 else 0)
                      + (if decide (v' = v) then 1 else 0).
Proof.
  unfold count_status. revert i. induction rs as [|x rs IH]; intros i Hi; [done|].
  destruct i as [|i]; cbn in Hi.
  - injection Hi as ->.
    change (<[0%nat := with_status v' r]> (r :: rs)) with (with_status v' r :: rs).
    rewrite !(filter_cons (λ r0, status r0 = v)). cbn [with_status status].
    destruct (decide (v' = v)), (decide (status r = v)); cbn [length]; lia.
  - specialize (IH i Hi).
    change (<[S i := with_status v' r]> (x :: rs))
      with (x :: <[i := with_status v' r]> rs).
    rewrite !(filter_cons (λ r0, status r0 = v)).
    destruct (decide (status x = v)); cbn [length]; lia.
Qed.

Lemma marked_idem (v : string) (batch : list nat) (rs : list Recipient) :
  (∀ i, i ∈ batch → is_Some (rs !! i)) →
  marked v batch (marked v batch rs) = marked v batch rs.
Proof.
  intros Hv. apply list_eq. intros j.
  assert (Hv' : ∀ i, i ∈ batch → is_Some (marked v batch rs !! i)).
  { intros i Hi. apply lookup_lt_is_Some. rewrite marked_length.
    apply lookup_lt_is_Some, Hv, Hi. }
  rewrite (marked_lookup v batch (marked v batch rs) j Hv').
  rewrite (marked_lookup v batch rs j Hv).
  destruct (decide (j ∈ batch)); [|reflexivity].
  destruct (rs !! j); reflexivity.
Qed.

Lemma count_status_marked (u v : string) (batch : list nat) (rs : list Recipient) :
  NoDup batch → u ≠ "pending" →
  (∀ i, i ∈ batch → status_at rs i = Some "pending") →
  count_status u (marked v batch rs) =
    count_status u rs + (if decide (v = u) then Z.of_nat (length batch) else 0).
Proof.
  intros Hnd Hu. revert rs. induction Hnd as [|i batch Hi Hnd IH]; intros rs Hp.
  - cbn. destruct (decide (v = u)); lia.
  - assert (Hr : ∃ r, rs !! i = Some r ∧ status r = "pending").
    { specialize (Hp i (list_elem_of_here _ _)). unfold status_at in Hp.
      destruct (rs !! i) as [r|]; [|discriminate].
      exists r. split; [reflexivity|]. cbn in Hp. congruence. }
    destruct Hr as (r & Hr & Hst). cbn [marked]. rewrite Hr.
    rewrite IH.
    2:{ intros j Hj. unfold status_at.
        rewrite list_lookup_insert_ne by (intros ->; contradiction).
        apply Hp. right. exact Hj. }
    rewrite (count_status_insert _ _ _ _ _ Hr), Hst.
    rewrite (decide_False (P := "pending" = u)) by congruence.
    cbn [length]. destruct (decide (v = u)); lia.
Qed.

Lemma chunks_concat {A} (fuel n : nat) (xs : list A) :
  (0 < n)%nat → (length xs ≤ fuel)%nat → concat (chunks fuel n xs) = xs.
Proof.
  intros Hn. revert xs. induction fuel as [|fuel IH]; intros xs Hlen.
  - destruct xs; [reflexivity|cbn in Hlen; lia].
  - destruct xs as [|x xs]; [reflexivity|].
    cbn [chunks concat]. rewrite IH.
    + apply take_drop.
    + rewrite length_drop. cbn [length] in *. lia.
Qed.

Lemma batches_concat {A} (n : Z) (xs : list A) :
  0 < n → concat (batches n xs) = xs.
Proof.
  intros Hn. unfold batches. rewrite (proj2 (Z.leb_gt n 0)) by lia.
  apply chunks_concat; lia.
Qed.


End Lists.

(** ** Transfer Executor: the marking loops *)

Section Marking.
Context `{Platform}.

Lemma valid_after_insert (rs : list Recipient) (i : nat) (x : Recipient) (batch : list nat) :
  (∀ k, k ∈ i :: batch → is_Some (rs !! k)) →
  ∀ k, k ∈ batch → is_Some (<[i := x]> rs !! k).
Proof.
  intros Hv k Hk. apply lookup_lt_is_Some. rewrite length_insert.
  apply lookup_lt_is_Some. apply Hv. right. exact Hk.
Qed.

(** [for recipient in batch: recipient.status = v] *)
Lemma mark_loop (v : string) (batch : list nat) (s : Manager) :
  (∀ i, i ∈ batch → is_Some (recipients s !! i)) →
  for_each batch (λ i, set_status i v) s =
    (Done (),
     advance (rev (mark_events v batch (recipients s))) (tick s)
       (set_recipients (marked v batch (recipients s)) s)).
Proof.
  revert s. induction batch as [|i batch IH]; intros s Hv.
  - cbn. unfold ret, advance, set_recipients. cbn. rewrite manager_eta. reflexivity.
  - destruct (Hv i) as [r Hr]; [left|].
    cbn [for_each marked mark_events]. rewrite Hr.
    erewrite bind_done by (apply set_status_run, Hr).
    rewrite IH by (cbn; apply valid_after_insert, Hv).
    unfold advance, set_recipients, record. cbn.
    rewrite <- app_assoc. reflexivity.
Qed.

(** The dry-run loop: mark, and count one success each. *)
Lemma dry_run_marking_run (cfg : AirdropConfig) (batch : list nat) (s : Manager) :
  (∀ i, i ∈ batch → is_Some (recipients s !! i)) →
  dry_run_marking batch s =
    (Done (),
     advance (rev (mark_events "success" batch (recipients s))) (tick s)
       (set_counters (successful_transfers s + Z.of_nat (length batch))
          (failed_transfers s) (skipped_transfers s)
          (set_recipients (marked "success" batch (recipients s)) s))).
Proof.
  unfold dry_run_marking.
  revert s. induction batch as [|i batch IH]; intros s Hv.
  - cbn. unfold ret, advance, set_recipients, set_counters. cbn.
    rewrite Z.add_0_r, manager_eta. reflexivity.
  - destruct (Hv i) as [r Hr]; [left|].
    cbn [for_each marked mark_events length]. rewrite Hr.
    erewrite bind_done;
      [|erewrite bind_done by (apply set_status_run, Hr); reflexivity].
    rewrite IH by (cbn; apply valid_after_insert, Hv).
    rewrite Nat2Z.inj_succ.
    unfold advance, set_recipients, set_counters, record, add_successful, modify.
    cbn [recipients successful_transfers failed_transfers skipped_transfers
         progress_file tick journal rev].
    rewrite <- app_assoc.
    replace (successful_transfers s + 1 + Z.of_nat (length batch))
      with (successful_transfers s + Z.succ (Z.of_nat (length batch))) by lia.
    reflexivity.
Qed.

End Marking.

(** ** The working set *)

Section Pending.
Context `{Platform}.

Lemma pending_from_elem (k : nat) (rs : list Recipient) (i : nat) :
  i ∈ pending_from k rs ↔
  (k ≤ i)%nat ∧ ∃ r, rs !! (i - k)%nat = Some r ∧ status r = "pending".
Proof.
  revert k. induction rs as [|x rs IH]; intros k.
  - cbn. split; [intros Hin; inversion Hin|]. intros (_ & r & Hr & _). discriminate.
  - cbn [pending_from]. unfold is_pending.
    assert (Hrest : i ∈ pending_from (S k) rs ↔
              (k < i)%nat ∧ ∃ r, (x :: rs) !! (i - k)%nat = Some r ∧ status r = "pending").
    { rewrite IH. split.
      - intros (Hle & r & Hr & Hs). split; [lia|]. exists r. split; [|exact Hs].
        replace (i - k)%nat with (S (i - S k)) by lia. exact Hr.
      - intros (Hlt & r & Hr & Hs). split; [lia|]. exists r. split; [|exact Hs].
        replace (i - k)%nat with (S (i - S k)) in Hr by lia. exact Hr. }
    case_bool_decide as Hx.
    + rewrite elem_of_cons, Hrest. split.
      * intros [->|(Hlt & Hr)]; [|split; [lia|exact Hr]].
        split; [lia|]. exists x. rewrite Nat.sub_diag. auto.
      * intros (Hle & r & Hr & Hs).
        destruct (decide (i = k)) as [->|Hne]; [left; reflexivity|].
        right. split; [lia|]. eauto.
    + rewrite Hrest. split.
      * intros (Hlt & Hr). split; [lia|exact Hr].
      * intros (Hle & r & Hr & Hs). split; [|eauto].
        destruct (decide (i = k)) as [->|Hne]; [|lia].
        rewrite Nat.sub_diag in Hr. injection Hr as ->. contradiction.
Qed.

Lemma pending_elem (rs : list Recipient) (i : nat) :
  i ∈ pending_from 0 rs ↔ ∃ r, rs !! i = Some r ∧ status r = "pending".
Proof.
  rewrite pending_from_elem, Nat.sub_0_r. split; [tauto|].
  intros Hr. split; [lia|exact Hr].
Qed.

Lemma pending_from_NoDup (k : nat) (rs : list Recipient) : NoDup (pending_from k rs).
Proof.
  revert k. induction rs as [|x rs IH]; intros k; cbn; [constructor|].
  destruct (is_pending (status x)); [|apply IH].
  constructor; [|apply IH].
  rewrite pending_from_elem. lia.
Qed.

Lemma pending_valid (rs : list Recipient) (i : nat) :
  i ∈ pending_from 0 rs → is_Some (rs !! i).
Proof. rewrite pending_elem. intros (r & Hr & _). eauto. Qed.

Lemma pending_from_length (k : nat) (rs : list Recipient) :
  Z.of_nat (length (pending_from k rs)) = count_status "pending" rs.
Proof.
  unfold count_status. revert k. induction rs as [|x rs IH]; intros k; [reflexivity|].
  cbn [pending_from]. rewrite (filter_cons (λ r, status r = "pending")).
  unfold is_pending. case_bool_decide as Hx.
  - rewrite decide_True by exact Hx. cbn [length].
    rewrite !Nat2Z.inj_succ, IH. reflexivity.
  - rewrite decide_False by exact Hx. apply IH.
Qed.

End Pending.

Section Loading.
Context `{Platform} (cfg : AirdropConfig).

Lemma restore_events_old (d : gmap string string) (k : nat) (rs : list Recipient)
    (e : event) :
  e ∈ restore_events d k rs →
  ∃ i r v, e = StatusSet i (status r) v ∧ (k ≤ i)%nat
           ∧ rs !! (i - k)%nat = Some r ∧ d !! sol_wallet r = Some v.
Proof.
  revert k. induction rs as [|x rs IH]; intros k He; cbn in He; [inversion He|].
  assert (Hrest : e ∈ restore_events d (S k) rs →
            ∃ i r v, e = StatusSet i (status r) v ∧ (k ≤ i)%nat
                     ∧ (x :: rs) !! (i - k)%nat = Some r ∧ d !! sol_wallet r = Some v).
  { intros Hin. destruct (IH _ Hin) as (i & r & v & -> & Hle & Hr & Hd).
    exists i, r, v. split; [reflexivity|]. split; [lia|]. split; [|exact Hd].
    replace (i - k)%nat with (S (i - S k)) by lia. exact Hr. }
  destruct (d !! sol_wallet x) as [v|] eqn:Hd; [|auto].
  apply elem_of_cons in He as [->|He]; [|auto].
  exists k, x, v. rewrite Nat.sub_diag. auto.
Qed.

Lemma restored_static (d : gmap string string) (rs : list Recipient) :
  map static (map (restored d) rs) = map static rs.
Proof.
  rewrite <- list_fmap_compose. apply list_fmap_ext. intros i r _. cbn.
  unfold restored. destruct (d !! sol_wallet r); reflexivity.
Qed.

(** Whatever the file holds, [load_progress] answers without raising,
    leaves the file and the tick alone, writes only statuses to the
    journal, and leaves everything but status and counters of the
    recipients alone. *)
Lemma load_progress_frame (s : Manager) :
  ∃ b s1 new, load_progress cfg s = (Done b, s1)
    ∧ progress_file s1 = progress_file s
    ∧ tick s1 = tick s
    ∧ journal s1 = new ++ journal s
    ∧ Forall is_status_write new
    ∧ (∀ e, e ∈ new → ∃ i old v, e = StatusSet i old v
                         ∧ status_at (recipients s) i = Some old)
    ∧ statics s1 = statics s.
Proof.
  destruct (progress_file s) as [| |[|pd]] eqn:Hf.
  1-3: exists false, s, []; rewrite load_progress_unusable by auto;
       repeat split; auto; intros e He; inversion He.
  rewrite (load_progress_document cfg s pd Hf).
  destruct (_ && _); [|exists false, s, []; repeat split; auto; intros e He; inversion He].
  cbv zeta. destruct (progress_statuses _) as [d|].
  - eexists true, _, _. split; [reflexivity|]. cbn.
    repeat split; auto.
    + apply Forall_rev, restore_events_writes.
    + intros e He. rewrite elem_of_rev in He.
      apply restore_events_old in He as (i & r & v & -> & _ & Hr & _).
      rewrite Nat.sub_0_r in Hr. exists i, (status r), v.
      split; [reflexivity|]. unfold status_at. rewrite Hr. reflexivity.
    + unfold statics. cbn. apply restored_static.
  - eexists false, _, []. split; [reflexivity|]. cbn.
    repeat split; auto. intros e He; inversion He.
Qed.

End Loading.

(** ** Dry run *)

(** C3. In dry-run mode the executor answers success, and with [s1] the
    manager as [load_progress] leaves it and [pending] its pending
    recipients: each pending recipient is marked [success] and nothing else
    of any recipient changes; the success counter grows by the number of
    pending recipients and the two other counters stay; the progress file
    is what it was (absent stays absent); the tick of the world has not
    moved, so no RPC call, clock read or file write was made; and the
    journal gained status writes only: no transaction was sent and the
    file was never opened for writing. *)
Theorem dry_run_marks_pending_without_writing `{Platform} (w : World)
    (cfg : AirdropConfig) (s : Manager) :
  dry_run cfg = true →
  let s1 := state_of (load_progress cfg s) in
  let pending := pending_from 0 (recipients s1) in
  ∃ s', execute_token_transfers_with_resume w cfg s = (Done true, s')
    ∧ (∀ i, recipients s' !! i =
              if decide (i ∈ pending)
              then with_status "success" <$> recipients s1 !! i
              else recipients s1 !! i)
    ∧ successful_transfers s' = successful_transfers s1 + Z.of_nat (length pending)
    ∧ failed_transfers s' = failed_transfers s1
    ∧ skipped_transfers s' = skipped_transfers s1
    ∧ progress_file s' = progress_file s
    ∧ tick s' = tick s
    ∧ ∃ new, journal s' = new ++ journal s ∧ Forall is_status_write new.
Proof.
  intros Hdry s1 pending.
  destruct (load_progress_frame cfg s) as (b & s1' & new & Hload & Hfile & Htick & Hj & Hnew & _ & _).
  assert (Hs1 : s1 = s1') by (unfold s1; rewrite Hload; reflexivity).
  subst s1'. clearbody s1.
  unfold execute_token_transfers_with_resume.
  rewrite (bind_done _ _ _ _ _ Hload).
  unfold bind at 1, get_pending_recipients at 1, gets at 1.
  fold pending. destruct pending as [|i0 rest] eqn:Hp.
  - exists s1. split; [reflexivity|].
    split; [intros i; rewrite decide_False by apply not_elem_of_nil; reflexivity|].
    cbn [length]. rewrite Z.add_0_r. repeat (split; [auto|]). eauto.
  - rewrite Hdry, <- Hp.
    assert (Hvalid : ∀ i, i ∈ pending → is_Some (recipients s1 !! i))
      by (intros i; apply pending_valid).
    erewrite bind_done by (apply (dry_run_marking_run cfg), Hvalid).
    eexists. split; [reflexivity|]. cbn.
    split; [intros i; apply marked_lookup, Hvalid|].
    repeat (split; [auto|]).
    exists (rev (mark_events "success" pending (recipients s1)) ++ new).
    split; [rewrite Hj, app_assoc; reflexivity|].
    apply Forall_app. split; [|exact Hnew].
    apply Forall_rev. eapply Forall_impl; [apply mark_events_spec|].
    intros e (i & old & -> & _). exact I.
Qed.

Lemma dry_run_marks_pending_without_writing_witness :
  ∃ s', execute_token_transfers_with_resume (H := Reference.platform)
          Examples.offline (Examples.config true)
          (Examples.manager Examples.fresh Examples.checkpoint) = (Done true, s')
        ∧ successful_transfers s' = 2
        ∧ progress_file s' = Examples.checkpoint
        ∧ tick s' = 0%nat.
Proof.
  destruct (dry_run_marks_pending_without_writing (H := Reference.platform)
              Examples.offline (Examples.config true)
              (Examples.manager Examples.fresh Examples.checkpoint) eq_refl)
    as (s' & Hrun & _ & Hok & _ & _ & Hfile & Htick & _).
  exists s'. split; [exact Hrun|]. split; [|split; [exact Hfile|exact Htick]].
  rewrite Hok. vm_compute. reflexivity.
Defined.

(** ** Transfer Executor: one batch *)

Section Batch.
Context `{Platform} (w : World) (cfg : AirdropConfig).

Lemma is_transfer_of_statics (s : Manager) (i : nat) (r : Recipient) (dest : Pubkey)
    (ix : instruction) :
  recipients s !! i = Some r → token_account r = Some dest →
  transfer_ix cfg r dest = Some ix → is_transfer_of cfg (statics s) i ix.
Proof.
  intros Hr Hd Hix. apply is_transfer_of_static. exists r, dest. auto.
Qed.

Lemma keyed_statics (s : Manager) (i : nat) : keyed (statics s) i = keyed (recipients s) i.
Proof. apply keyed_static. Qed.

(** [_execute_single_transfer] answers without raising and touches only
    the journal and the tick. *)
Lemma execute_single_spec (i : nat) (r : Recipient) (s : Manager) :
  recipients s !! i = Some r →
  ∃ b new t, _execute_single_transfer w cfg i s = (Done b, advance new t s)
    ∧ Forall (transfer_event_ok cfg (statics s) [i]) new
    ∧ Forall (λ e, ¬ is_status_write e) new
    ∧ (b = true ↔ ∃ k ix v, SentSingle i k ix (Value v) ∈ new)
    ∧ (b = false → has_keys r = true →
       ∀ k, (k < Z.to_nat (max_retries cfg))%nat → LogAttemptFailed i k ∈ new).
Proof.
  intros Hr. unfold _execute_single_transfer.
  rewrite (bind_done _ _ _ _ _ (recipient_at_run s i r Hr)).
  assert (Hkeys : keyed (statics s) i = has_keys r)
    by (rewrite keyed_statics; unfold keyed; rewrite Hr; reflexivity).
  unfold has_keys in *.
  destruct (pubkey r) as [key|] eqn:Hk, (token_account r) as [dest|] eqn:Hd.
  2-4: exists false, [LogCannotTransfer i], (tick s);
       (split; [reflexivity|]);
       (split; [constructor; [split; [left|exact Hkeys]|constructor]|]);
       (split; [constructor; [cbn; tauto|constructor]|]);
       (split; [|discriminate]);
       (split; [discriminate|]);
       intros (k & ix & v & Hin); apply list_elem_of_singleton in Hin; discriminate.
  destruct (single_attempts_spec w cfg i r dest (Z.to_nat (max_retries cfg)) 0 s)
    as (b & new & t & Hrun & Hev & Hb & Hfail).
  exists b, new, t. split; [exact Hrun|].
  split; [|split; [|split; [exact Hb|]]].
  - eapply Forall_impl; [exact Hev|]. intros e He.
    destruct e; cbn in He |- *; try contradiction.
    + destruct He as (-> & Hlt & Hix). split; [left|]. split; [lia|].
      eapply is_transfer_of_statics; eauto.
    + destruct He as (-> & Hlt). split; [left|lia].
    + subst. left.
  - eapply Forall_impl; [exact Hev|]. intros e He.
    destruct e; cbn in He |- *; tauto.
  - intros Hb' _ k Hlt. apply Hfail; [exact Hb'|lia].
Qed.

(** The instruction loop of the batch path: it changes nothing but the
    journal, where it logs the members without keys; when it does not
    raise, the transaction holds the transfer instruction of every member
    that has its keys, in order. *)
Lemma build_transfer_tx_spec (batch : list nat) (s : Manager) :
  (∀ i, i ∈ batch → is_Some (recipients s !! i)) →
  ∃ o new, build_transfer_tx cfg batch s = (o, advance new (tick s) s)
    ∧ Forall (λ e, ∃ i, e = LogSkipTransfer i ∧ i ∈ batch
                        ∧ keyed (recipients s) i = false) new
    ∧ ∀ tx, o = Done tx →
        tx.*1 = filter (λ i, keyed (recipients s) i = true) batch
        ∧ ∀ i ix, (i, ix) ∈ tx → is_transfer_of cfg (recipients s) i ix.
Proof.
  revert s. induction batch as [|i batch IH]; intros s Hv.
  - exists (Done []), []. split; [cbn; unfold ret; rewrite advance_nil; reflexivity|].
    split; [constructor|]. intros tx [= <-]. split; [reflexivity|].
    intros i ix Hin. inversion Hin.
  - destruct (Hv i) as [r Hr]; [left|].
    assert (Hv' : ∀ k, k ∈ batch → is_Some (recipients s !! k))
      by (intros k Hk; apply Hv; right; exact Hk).
    cbn [build_transfer_tx].
    rewrite (bind_done _ _ _ _ _ (recipient_at_run s i r Hr)).
    assert (Hkeys : keyed (recipients s) i = has_keys r)
      by (unfold keyed; rewrite Hr; reflexivity).
    rewrite (filter_cons (λ i, keyed (recipients s) i = true)).
    unfold has_keys in Hkeys.
    destruct (pubkey r) as [key|] eqn:Hk, (token_account r) as [dest|] eqn:Hd.
    2-4: destruct (IH (advance [LogSkipTransfer i] (tick s) s) Hv')
           as (o & new & Hrun & Hev & Htx);
         exists o, (new ++ [LogSkipTransfer i]);
         (split; [unfold bind, log, modify; cbn;
                  change (record (LogSkipTransfer i) s)
                    with (advance [LogSkipTransfer i] (tick s) s);
                  rewrite Hrun, advance_advance; reflexivity|]);
         (split; [apply Forall_app; split;
                  [eapply Forall_impl; [exact Hev|];
                   intros e (j & -> & Hj & Hkj); exists j;
                   (split; [reflexivity|]); (split; [right; exact Hj|exact Hkj])
                  |constructor; [|constructor]; exists i; (split; [reflexivity|]);
                   (split; [left|exact Hkeys])]|]);
         intros tx Ho; rewrite decide_False by (rewrite Hkeys; discriminate);
         apply (Htx tx Ho).
    destruct (transfer_ix cfg r dest) as [ix|] eqn:Hix.
    2:{ exists Raised, []. split; [cbn; unfold bind, raise; rewrite advance_nil; reflexivity|].
        split; [constructor|]. discriminate. }
    destruct (IH s Hv') as (o & new & Hrun & Hev & Htx).
    cbn [or_raise]. unfold bind at 1, ret at 1.
    destruct o as [tx|].
    + exists (Done ((i, ix) :: tx)), new.
      split; [rewrite (bind_done _ _ _ _ _ Hrun); reflexivity|].
      split; [eapply Forall_impl; [exact Hev|];
              intros e (j & -> & Hj & Hkj); exists j;
              split; [reflexivity|]; split; [right; exact Hj|exact Hkj]|].
      intros tx' [= <-]. destruct (Htx tx eq_refl) as [Hfst Hall].
      rewrite decide_True by exact Hkeys. split; [cbn; rewrite Hfst; reflexivity|].
      intros j jx [[= -> ->]|Hin]%elem_of_cons; [|auto].
      exists r, dest. auto.
    + exists Raised, new.
      split; [rewrite (bind_raised _ _ _ _ Hrun); reflexivity|].
      split; [eapply Forall_impl; [exact Hev|];
              intros e (j & -> & Hj & Hkj); exists j;
              split; [reflexivity|]; split; [right; exact Hj|exact Hkj]|].
      discriminate.
Qed.

Lemma pending_valid_at (s : Manager) (batch : list nat) :
  (∀ i, i ∈ batch → status_at (recipients s) i = Some "pending") →
  ∀ i, i ∈ batch → is_Some (recipients s !! i).
Proof.
  intros Hp i Hi. specialize (Hp i Hi). unfold status_at in Hp.
  destruct (recipients s !! i); [eauto|discriminate].
Qed.

Lemma mark_events_ok (s : Manager) (batch : list nat) (rs : list Recipient) :
  (∀ i, i ∈ batch → status_at (recipients s) i = Some "pending") →
  Forall (transfer_event_ok cfg rs batch)
    (rev (mark_events "success" batch (recipients s))).
Proof.
  intros Hp. apply Forall_rev.
  eapply Forall_impl; [apply mark_events_spec|].
  intros e (i & old & -> & Hi & Hold). cbn. split; [exact Hi|].
  split; [|auto]. destruct Hold as [Hold|Hold]; [|auto].
  left. rewrite (Hp i Hi) in Hold. congruence.
Qed.

Lemma sent_batch_ok (s : Manager) (batch : list nat) (tx : list (nat * instruction))
    (reply : rpc_reply) :
  tx.*1 = filter (λ i, keyed (recipients s) i = true) batch →
  (∀ i ix, (i, ix) ∈ tx → is_transfer_of cfg (recipients s) i ix) →
  transfer_event_ok cfg (statics s) batch (SentBatch batch tx reply).
Proof.
  intros Hfst Hall. cbn. split; [done|]. split.
  - rewrite Hfst. apply list_filter_iff. intros i. rewrite keyed_statics. tauto.
  - intros i ix Hin. apply is_transfer_of_static. auto.
Qed.

Lemma skip_logs_ok (s : Manager) (batch : list nat) (new : list event) :
  Forall (λ e, ∃ i, e = LogSkipTransfer i ∧ i ∈ batch
                    ∧ keyed (recipients s) i = false) new →
  Forall (transfer_event_ok cfg (statics s) batch) new
  ∧ Forall (λ e, ¬ is_status_write e) new.
Proof.
  intros Hev. split; (eapply Forall_impl; [exact Hev|]);
    intros e (i & -> & Hi & Hk); cbn; [|tauto].
  rewrite keyed_statics. auto.
Qed.

(** [_execute_transfer_batch] on a batch of pending recipients: it answers
    without raising; the answer is [true] exactly when the members were
    marked [success], and otherwise no recipient changed. *)
Lemma execute_batch_spec (batch : list nat) (s : Manager) :
  (∀ i, i ∈ batch → status_at (recipients s) i = Some "pending") →
  ∃ (b : bool) new t,
    _execute_transfer_batch w cfg batch s =
      (Done b,
       advance new t
         (set_recipients
            (if b then marked "success" batch (recipients s) else recipients s) s))
    ∧ Forall (transfer_event_ok cfg (statics s) batch) new
    ∧ (b = false → Forall (λ e, ¬ is_status_write e) new).
Proof.
  intros Hp. pose proof (pending_valid_at s batch Hp) as Hv.
  unfold _execute_transfer_batch, try_.
  unfold bind at 1, get_latest_blockhash at 1, bind at 1, rpc_call at 1.
  destruct (rpc w (tick s)) as [v0| |].
  2,3: exists false, [], (S (tick s)); cbn;
       (split; [reflexivity|]); split; [constructor|intros _; constructor].
  cbn [ret].
  destruct (build_transfer_tx_spec batch (next_tick s) Hv)
    as (o & new1 & Hbuild & Hev1 & Htx).
  apply (skip_logs_ok s batch new1) in Hev1 as [Hok1 Hnw1].
  unfold bind at 1. rewrite Hbuild.
  destruct o as [tx|].
  2:{ exists false, new1, (S (tick s)). split; [reflexivity|]. auto. }
  destruct (Htx tx eq_refl) as [Hfst Hall].
  pose proof (sent_batch_ok s batch tx) as Hsent.
  unfold bind at 1, rpc_call at 1. cbn [tick advance next_tick].
  unfold bind at 1, log at 1, modify at 1.
  unfold bind at 1, sent at 1.
  destruct (rpc w (S (tick s))) as [v1| |] eqn:Hreply.
  - cbn [ret]. unfold bind at 1.
    rewrite mark_loop by exact Hv.
    exists true, (rev (mark_events "success" batch (recipients s))
                  ++ SentBatch batch tx (Value v1) :: new1), (S (S (tick s))).
    split; [unfold ret, advance, set_recipients, record; cbn;
            rewrite <- app_assoc; reflexivity|].
    split; [|discriminate].
    apply Forall_app. split; [apply mark_events_ok, Hp|].
    constructor; [apply Hsent; assumption|exact Hok1].
  - exists false, (SentBatch batch tx Null :: new1), (S (S (tick s))).
    split; [reflexivity|].
    split; [constructor; [apply Hsent; assumption|exact Hok1]|].
    intros _. constructor; [cbn; tauto|exact Hnw1].
  - exists false, (SentBatch batch tx Raises :: new1), (S (S (tick s))).
    split; [reflexivity|].
    split; [constructor; [apply Hsent; assumption|exact Hok1]|].
    intros _. constructor; [cbn; tauto|exact Hnw1].
Qed.

Lemma status_at_insert_ne (rs : list Recipient) (i j : nat) (x : Recipient) :
  i ≠ j → status_at (<[i := x]> rs) j = status_at rs j.
Proof. intros Hne. unfold status_at. rewrite list_lookup_insert_ne by done. reflexivity. Qed.

(** The per-recipient fallback over a batch of distinct pending
    recipients. *)
Lemma fallback_spec (batch : list nat) (s : Manager) :
  NoDup batch →
  (∀ i, i ∈ batch → status_at (recipients s) i = Some "pending") →
  ∃ s' new, fallback w cfg batch s = (Done (), s')
    ∧ journal s' = new ++ journal s
    ∧ progress_file s' = progress_file s
    ∧ skipped_transfers s' = skipped_transfers s
    ∧ statics s' = statics s
    ∧ (∀ j, j ∉ batch → recipients s' !! j = recipients s !! j)
    ∧ Forall (transfer_event_ok cfg (statics s) batch) new
    ∧ successful_transfers s' - count_status "success" (recipients s')
      = successful_transfers s - count_status "success" (recipients s)
    ∧ failed_transfers s' - count_status "failed" (recipients s')
      = failed_transfers s - count_status "failed" (recipients s)
    ∧ ∀ i, i ∈ batch →
        ∃ r', recipients s' !! i = Some r'
          ∧ (status r' = "success" ∨ status r' = "failed")
          ∧ (status r' = "success" ↔ ∃ k ix v, SentSingle i k ix (Value v) ∈ new)
          ∧ (status r' = "failed" → keyed (recipients s) i = true →
             ∀ k, (k < Z.to_nat (max_retries cfg))%nat → LogAttemptFailed i k ∈ new).
Proof.
  revert s. induction batch as [|i batch IH]; intros s Hnd Hp.
  - exists s, []. split; [reflexivity|]. repeat (split; [auto|]).
    intros i Hi. inversion Hi.
  - apply NoDup_cons in Hnd as [Hi Hnd].
    assert (Hr : ∃ r, recipients s !! i = Some r ∧ status r = "pending").
    { specialize (Hp i (list_elem_of_here _ _)). unfold status_at in Hp.
      destruct (recipients s !! i) as [r|]; [|discriminate].
      exists r. split; [reflexivity|]. cbn in Hp. congruence. }
    destruct Hr as (r & Hr & Hst).
    destruct (execute_single_spec i r s Hr) as (b & new1 & t1 & Hrun & Hok1 & Hnw1 & Hb & Hfail).
    set (v := if b then "success" else "failed").
    set (sb := record (StatusSet i "pending" v)
                 (set_recipients (<[i := with_status v r]> (recipients s))
                    (set_counters
                       (successful_transfers s + (if b then 1 else 0))
                       (failed_transfers s + (if b then 0 else 1))
                       (skipped_transfers s) (advance new1 t1 s)))).
    assert (Hstep : bind (_execute_single_transfer w cfg i)
                      (λ ok, if ok then add_successful 1 ;; set_status i "success"
                             else add_failed 1 ;; set_status i "failed") s
                    = (Done (), sb)).
    { rewrite (bind_done _ _ _ _ _ Hrun). unfold sb, v.
      destruct b; unfold bind, add_successful, add_failed, modify, set_status; cbn;
        rewrite Hr, Hst, ?Z.add_0_r; reflexivity. }
    assert (Hp' : ∀ j, j ∈ batch → status_at (recipients sb) j = Some "pending").
    { intros j Hj. cbn. rewrite status_at_insert_ne by (intros ->; contradiction).
      apply Hp. right. exact Hj. }
    assert (Hstat : statics sb = statics s)
      by (unfold statics; cbn; apply static_insert, Hr).
    destruct (IH sb Hnd Hp')
      as (s' & new2 & Hrun2 & Hj2 & Hf2 & Hsk2 & Hst2 & Hframe2 & Hok2 & Hc2 & Hd2 & Hper2).
    exists s', (new2 ++ StatusSet i "pending" v :: new1).
    split; [cbn [fallback for_each]; rewrite (bind_done _ _ _ _ _ Hstep); exact Hrun2|].
    split; [rewrite Hj2; cbn; rewrite <- app_assoc; reflexivity|].
    split; [rewrite Hf2; reflexivity|].
    split; [rewrite Hsk2; reflexivity|].
    split; [rewrite Hst2; exact Hstat|].
    split.
    { intros j Hj. apply not_elem_of_cons in Hj as [Hne Hj].
      rewrite Hframe2 by exact Hj. cbn. apply list_lookup_insert_ne. done. }
    split.
    { apply Forall_app. split.
      - rewrite Hstat in Hok2. eapply Forall_impl; [exact Hok2|].
        intros e. apply transfer_event_ok_mono. set_solver.
      - constructor.
        + cbn. split; [left|]. split; [auto|]. unfold v. destruct b; auto.
        + eapply Forall_impl; [exact Hok1|].
          intros e. apply transfer_event_ok_mono. set_solver. }
    split.
    { rewrite Hc2. cbn. rewrite (count_status_insert _ _ _ _ _ Hr), Hst.
      rewrite decide_False by discriminate.
      unfold v. destruct b; [rewrite decide_True by reflexivity
                            |rewrite decide_False by discriminate]; lia. }
    split.
    { rewrite Hd2. cbn. rewrite (count_status_insert _ _ _ _ _ Hr), Hst.
      rewrite decide_False by discriminate.
      unfold v. destruct b; [rewrite decide_False by discriminate
                            |rewrite decide_True by reflexivity]; lia. }
    assert (Hnot2 : ∀ j k ix reply, j ∉ batch → SentSingle j k ix reply ∉ new2).
    { intros j k ix reply Hj Hin.
      rewrite Forall_forall in Hok2. apply Hok2 in Hin. cbn in Hin. tauto. }
    assert (Hnot1 : ∀ j k ix reply, j ≠ i → SentSingle j k ix reply ∉ new1).
    { intros j k ix reply Hj Hin.
      rewrite Forall_forall in Hok1. apply Hok1 in Hin. cbn in Hin.
      destruct Hin as [Hin _]. apply list_elem_of_singleton in Hin. contradiction. }
    intros j [->|Hj]%elem_of_cons.
    + exists (with_status v r).
      split; [rewrite Hframe2 by exact Hi; cbn;
              apply list_lookup_insert_eq; eapply lookup_lt_Some; eauto|].
      cbn [status with_status].
      split; [unfold v; destruct b; auto|].
      split.
      * split.
        -- intros Hv. assert (b = true) as Hbt by (unfold v in Hv; destruct b; done).
           apply Hb in Hbt as (k & ix & v0 & Hin). exists k, ix, v0.
           apply elem_of_app. right. right. exact Hin.
        -- intros (k & ix & v0 & Hin).
           apply elem_of_app in Hin as [Hin|Hin]; [exfalso; eapply Hnot2; eauto|].
           apply elem_of_cons in Hin as [Hin|Hin]; [discriminate|].
           assert (b = true) as -> by (apply Hb; eauto). reflexivity.
      * intros Hv Hk k Hlt.
        assert (b = false) as Hbf by (unfold v in Hv; destruct b; done).
        apply elem_of_app. right. right. apply Hfail; [exact Hbf| |exact Hlt].
        unfold keyed in Hk. rewrite Hr in Hk. exact Hk.
    + destruct (Hper2 j Hj) as (r' & Hr' & Hterm & Hiff & Hlog).
      assert (Hne : j ≠ i) by (intros ->; contradiction).
      exists r'. split; [exact Hr'|]. split; [exact Hterm|]. split.
      * rewrite Hiff. split; intros (k & ix & v0 & Hin); exists k, ix, v0.
        -- apply elem_of_app. left. exact Hin.
        -- apply elem_of_app in Hin as [Hin|Hin]; [exact Hin|].
           apply elem_of_cons in Hin as [Hin|Hin]; [discriminate|].
           exfalso. eapply Hnot1; eauto.
      * intros Hv Hk k Hlt. apply elem_of_app. left.
        apply Hlog; [exact Hv| |exact Hlt].
        rewrite <- keyed_statics, Hstat, keyed_statics. exact Hk.
Qed.

(** The body of the batch loop, on a batch of distinct pending recipients:
    it never raises, leaves every member [success] or [failed], touches no
    other recipient, and keeps the difference between each counter and the
    number of recipients with that status. *)
Lemma process_batch_spec (batch : list nat) (s : Manager) :
  NoDup batch →
  (∀ i, i ∈ batch → status_at (recipients s) i = Some "pending") →
  ∃ s' new, process_batch w cfg batch s = (Done (), s')
    ∧ journal s' = new ++ journal s
    ∧ skipped_transfers s' = skipped_transfers s
    ∧ statics s' = statics s
    ∧ (∀ j, j ∉ batch → recipients s' !! j = recipients s !! j)
    ∧ Forall (transfer_event_ok cfg (statics s) batch) new
    ∧ successful_transfers s' - count_status "success" (recipients s')
      = successful_transfers s - count_status "success" (recipients s)
    ∧ failed_transfers s' - count_status "failed" (recipients s')
      = failed_transfers s - count_status "failed" (recipients s)
    ∧ ∀ i, i ∈ batch →
        ∃ r', recipients s' !! i = Some r'
              ∧ (status r' = "success" ∨ status r' = "failed").
Proof.
  intros Hnd Hp. pose proof (pending_valid_at s batch Hp) as Hv.
  destruct (execute_batch_spec batch s Hp) as (b & new1 & t1 & Hrun & Hok1 & _).
  unfold process_batch. rewrite (bind_done _ _ _ _ _ Hrun).
  destruct b.
  - set (rs1 := marked "success" batch (recipients s)) in *.
    assert (Hv1 : ∀ i, i ∈ batch → is_Some (rs1 !! i)).
    { intros i Hi. apply lookup_lt_is_Some. unfold rs1. rewrite marked_length.
      apply lookup_lt_is_Some, Hv, Hi. }
    assert (Hmark : ∃ sm,
      bind (add_successful (Z.of_nat (length batch)))
        (λ _, for_each batch (λ i, set_status i "success"))
        (advance new1 t1 (set_recipients rs1 s)) = (Done (), sm)
      ∧ recipients sm = rs1
      ∧ journal sm = rev (mark_events "success" batch rs1) ++ new1 ++ journal s
      ∧ successful_transfers sm = successful_transfers s + Z.of_nat (length batch)
      ∧ failed_transfers sm = failed_transfers s
      ∧ skipped_transfers sm = skipped_transfers s).
    { eexists. split.
      - unfold bind at 1, add_successful at 1, modify at 1.
        rewrite mark_loop by (cbn; exact Hv1). reflexivity.
      - cbn. split; [apply marked_idem, Hv|]. auto. }
    destruct Hmark as (sm & Hrun2 & Hrs & Hj & Hc & Hd & Hsk).
    rewrite (bind_done _ _ _ _ _ Hrun2).
    destruct (save_progress_frame w cfg sm) as (s' & new3 & Hrun3 & Hrs3 & Hc3 & Hd3 & Hsk3 & Hj3 & Hok3).
    exists s', (new3 ++ rev (mark_events "success" batch rs1) ++ new1).
    split; [exact Hrun3|].
    split; [rewrite Hj3, Hj, <- !app_assoc; reflexivity|].
    split; [congruence|].
    split; [unfold statics; rewrite Hrs3, Hrs; apply marked_static|].
    split.
    { intros j Hj'. rewrite Hrs3, Hrs. unfold rs1.
      rewrite marked_lookup by exact Hv.
      rewrite decide_False by exact Hj'. reflexivity. }
    split.
    { apply Forall_app. split; [|apply Forall_app; split; [|exact Hok1]].
      - eapply Forall_impl; [exact Hok3|]. intros e ->. exact I.
      - apply Forall_rev. eapply Forall_impl; [apply mark_events_spec|].
        intros e (i & old & -> & Hi & Hold). cbn. split; [exact Hi|].
        split; [|auto]. destruct Hold as [Hold|Hold]; [|auto]. right.
        unfold status_at, rs1 in Hold. rewrite marked_lookup in Hold by exact Hv.
        rewrite decide_True in Hold by exact Hi.
        destruct (recipients s !! i); cbn in Hold; congruence. }
    assert (Hcount : ∀ u, u ≠ "pending" →
              count_status u rs1 = count_status u (recipients s)
                + (if decide ("success" = u) then Z.of_nat (length batch) else 0))
      by (intros u Hu; apply count_status_marked; assumption).
    split.
    { rewrite Hc3, Hrs3, Hc, Hrs, Hcount by discriminate.
      rewrite decide_True by reflexivity. lia. }
    split.
    { rewrite Hd3, Hrs3, Hd, Hrs, Hcount by discriminate.
      rewrite decide_False by discriminate. lia. }
    intros i Hi.
    destruct (Hv i Hi) as [r Hr]. exists (with_status "success" r).
    split; [|left; reflexivity].
    rewrite Hrs3, Hrs. unfold rs1. rewrite marked_lookup by exact Hv.
    rewrite decide_True by exact Hi. rewrite Hr. reflexivity.
  - set (sa := advance new1 t1 (set_recipients (recipients s) s)) in *.
    destruct (fallback_spec batch sa Hnd Hp)
      as (s2 & new2 & Hrun2 & Hj2 & _ & Hsk2 & Hst2 & Hframe2 & Hok2 & Hc2 & Hd2 & Hper2).
    rewrite (bind_done _ _ _ _ _ Hrun2).
    destruct (save_progress_frame w cfg s2) as (s' & new3 & Hrun3 & Hrs3 & Hc3 & Hd3 & Hsk3 & Hj3 & Hok3).
    exists s', (new3 ++ new2 ++ new1).
    split; [exact Hrun3|].
    split; [rewrite Hj3, Hj2; cbn; rewrite <- !app_assoc; reflexivity|].
    split; [rewrite Hsk3, Hsk2; reflexivity|].
    split; [unfold statics in *; rewrite Hrs3; exact Hst2|].
    split; [intros j Hj; rewrite Hrs3; apply (Hframe2 j Hj)|].
    split.
    { apply Forall_app. split; [eapply Forall_impl; [exact Hok3|]; intros e ->; exact I|].
      apply Forall_app. split; [exact Hok2|exact Hok1]. }
    split; [rewrite Hc3, Hrs3; exact Hc2|].
    split; [rewrite Hd3, Hrs3; exact Hd2|].
    intros i Hi. destruct (Hper2 i Hi) as (r' & Hr' & Hterm & _).
    exists r'. rewrite Hrs3. auto.
Qed.

End Batch.

(** ** Transfer Executor: the batch loop and the whole executor *)

Section Executor.
Context `{Platform} (w : World) (cfg : AirdropConfig).

Lemma executor_step_refl (touched : list nat) (s : Manager) : executor_step cfg touched s s [].
Proof. unfold executor_step. repeat split; auto. Qed.

Lemma executor_step_trans (t1 t2 : list nat) (s s1 s2 : Manager) (new1 new2 : list event) :
  executor_step cfg t1 s s1 new1 → executor_step cfg t2 s1 s2 new2 →
  executor_step cfg (t1 ++ t2) s s2 (new2 ++ new1).
Proof.
  intros (Hj1 & Hsk1 & Hst1 & Hf1 & Hok1 & Hc1 & Hd1)
         (Hj2 & Hsk2 & Hst2 & Hf2 & Hok2 & Hc2 & Hd2).
  unfold executor_step.
  split; [rewrite Hj2, Hj1, app_assoc; reflexivity|].
  split; [congruence|]. split; [congruence|].
  split.
  { intros j Hj. apply not_elem_of_app in Hj as [Hj1' Hj2'].
    rewrite Hf2, Hf1 by assumption. reflexivity. }
  split.
  { apply Forall_app. split.
    - rewrite Hst1 in Hok2. eapply Forall_impl; [exact Hok2|].
      intros e. apply transfer_event_ok_mono. set_solver.
    - eapply Forall_impl; [exact Hok1|].
      intros e. apply transfer_event_ok_mono. set_solver. }
  split; congruence.
Qed.

(** The batch loop over pairwise disjoint batches of pending recipients. *)
Lemma transfer_loop_spec (bs : list (list nat)) (s : Manager) :
  NoDup (concat bs) →
  (∀ i, i ∈ concat bs → status_at (recipients s) i = Some "pending") →
  ∃ s' new, for_each bs (process_batch w cfg) s = (Done (), s')
    ∧ executor_step cfg (concat bs) s s' new
    ∧ ∀ i, i ∈ concat bs →
        ∃ r', recipients s' !! i = Some r'
              ∧ (status r' = "success" ∨ status r' = "failed").
Proof.
  revert s. induction bs as [|batch bs IH]; intros s Hnd Hp.
  - exists s, []. split; [reflexivity|]. split; [apply executor_step_refl|].
    intros i Hi. inversion Hi.
  - cbn [concat] in *. apply NoDup_app in Hnd as (Hnd1 & Hdisj & Hnd2).
    destruct (process_batch_spec w cfg batch s Hnd1)
      as (s1 & new1 & Hrun1 & Hj1 & Hsk1 & Hst1 & Hf1 & Hok1 & Hc1 & Hd1 & Hper1).
    { intros i Hi. apply Hp, elem_of_app. auto. }
    destruct (IH s1 Hnd2) as (s2 & new2 & Hrun2 & Hstep2 & Hper2).
    { intros i Hi. unfold status_at. rewrite Hf1.
      - apply Hp, elem_of_app. auto.
      - intros Hin. eapply Hdisj; eauto. }
    exists s2, (new2 ++ new1).
    split; [cbn [for_each]; rewrite (bind_done _ _ _ _ _ Hrun1); exact Hrun2|].
    split.
    { apply (executor_step_trans batch (concat bs) s s1 s2); [|exact Hstep2].
      unfold executor_step. auto 10. }
    intros i [Hi|Hi]%elem_of_app; [|auto].
    destruct (Hper1 i Hi) as (r' & Hr' & Hterm).
    exists r'. split; [|exact Hterm].
    destruct Hstep2 as (_ & _ & _ & Hf2 & _). rewrite Hf2; [exact Hr'|].
    eapply Hdisj; eauto.
Qed.

Lemma batches_cover (n : Z) (L : list nat) :
  NoDup L → NoDup (concat (batches n L)) ∧ concat (batches n L) ⊆ L
            ∧ (0 < n → concat (batches n L) = L).
Proof.
  intros Hnd. destruct (Z.ltb_spec 0 n) as [Hn|Hn].
  - rewrite batches_concat by exact Hn. auto.
  - unfold batches. rewrite (proj2 (Z.leb_le n 0)) by lia. cbn.
    split; [constructor|]. split; [set_solver|lia].
Qed.

Lemma executor_step_mono (t t' : list nat) (s s' : Manager) (new : list event) :
  t ⊆ t' → executor_step cfg t s s' new → executor_step cfg t' s s' new.
Proof.
  intros Ht (Hj & Hsk & Hst & Hf & Hok & Hc & Hd). unfold executor_step.
  split; [exact Hj|]. split; [exact Hsk|]. split; [exact Hst|].
  split; [intros j Hj'; apply Hf; set_solver|].
  split; [|auto].
  eapply Forall_impl; [exact Hok|]. intros e. apply transfer_event_ok_mono, Ht.
Qed.

(** The executor as a whole, from the manager [s1] that [load_progress]
    leaves and its pending recipients [L]. *)
Lemma executor_spec (s : Manager) :
  let s1 := state_of (load_progress cfg s) in
  let L := pending_from 0 (recipients s1) in
  let bs := batches (batch_size cfg) L in
  ∃ o s' new, execute_token_transfers_with_resume w cfg s = (o, s')
    ∧ executor_step cfg L s1 s' new
    ∧ ((L = [] ∧ o = Done true ∧ s' = s1)
       ∨ (L ≠ [] ∧ dry_run cfg = true ∧ o = Done true
          ∧ ∀ i, i ∈ L → status_at (recipients s') i = Some "success")
       ∨ (L ≠ [] ∧ dry_run cfg = false ∧ batch_size cfg = 0 ∧ o = Raised ∧ s' = s1)
       ∨ (L ≠ [] ∧ dry_run cfg = false ∧ batch_size cfg ≠ 0
          ∧ (sleep_returns (delay_between_batches cfg) = true ∨ (length bs ≤ 1)%nat)
          ∧ o = live_report s'
          ∧ (0 < batch_size cfg →
             ∀ i, i ∈ L → ∃ r', recipients s' !! i = Some r'
                                ∧ (status r' = "success" ∨ status r' = "failed")))
       ∨ (L ≠ [] ∧ dry_run cfg = false ∧ batch_size cfg ≠ 0
          ∧ sleep_returns (delay_between_batches cfg) = false
          ∧ (2 ≤ length bs)%nat ∧ o = Raised)).
Proof.
  intros s1 L bs. unfold bs. clear bs.
  destruct (load_progress_frame cfg s) as (b & s1' & new0 & Hload & _).
  assert (Hs1 : s1 = s1') by (unfold s1; rewrite Hload; reflexivity).
  subst s1'. clearbody s1.
  assert (HL : ∀ i, i ∈ L → status_at (recipients s1) i = Some "pending").
  { intros i Hi. apply pending_elem in Hi as (r & Hr & Hst).
    unfold status_at. rewrite Hr. cbn. congruence. }
  assert (Hnd : NoDup L) by apply pending_from_NoDup.
  unfold execute_token_transfers_with_resume.
  rewrite (bind_done _ _ _ _ _ Hload).
  unfold bind at 1, get_pending_recipients at 1, gets at 1. fold L.
  destruct L as [|i0 rest] eqn:HLeq.
  { exists (Done true), s1, []. split; [reflexivity|].
    split; [apply executor_step_refl|]. left. auto. }
  rewrite <- HLeq in *. assert (Hne : L ≠ []) by (rewrite HLeq; discriminate).
  clear HLeq i0 rest.
  destruct (dry_run cfg) eqn:Hdry.
  { pose proof (pending_valid_at s1 L HL) as Hv.
    rewrite (bind_done _ _ _ _ _ (dry_run_marking_run cfg L s1 Hv)).
    eexists (Done true), _, _. split; [reflexivity|]. split.
    - unfold executor_step. cbn.
      split; [reflexivity|]. split; [reflexivity|].
      split; [apply marked_static|].
      split; [intros j Hj; rewrite marked_lookup by exact Hv;
              rewrite decide_False by exact Hj; reflexivity|].
      split; [apply mark_events_ok, HL|].
      rewrite !count_status_marked by (assumption || discriminate).
      rewrite decide_True by reflexivity. rewrite decide_False by discriminate.
      split; lia.
    - right. left. repeat (split; [auto|]). intros i Hi. cbn.
      unfold status_at. rewrite marked_lookup by exact Hv.
      rewrite decide_True by exact Hi.
      destruct (Hv i Hi) as [r ->]. reflexivity. }
  destruct (Z.eqb_spec (batch_size cfg) 0) as [Hz|Hnz].
  { exists Raised, s1, []. split; [reflexivity|].
    split; [apply executor_step_refl|]. right. right. left. auto. }
  destruct (batches_cover (batch_size cfg) L Hnd) as (Hnd' & Hsub & Hall).
  set (bs := batches (batch_size cfg) L) in *.
  assert (Hcases : (sleep_returns (delay_between_batches cfg) = true
                    ∨ (length bs ≤ 1)%nat)
                   ∨ sleep_returns (delay_between_batches cfg) = false
                     ∧ ∃ b1 b2 more, bs = b1 :: b2 :: more).
  { destruct (sleep_returns (delay_between_batches cfg)); [auto|].
    destruct bs as [|b1 [|b2 more]]; cbn; [left; right; lia|left; right; lia|].
    right. eauto. }
  destruct Hcases as [Hcalm|(Hd & b1 & b2 & more & Hbs)].
  { destruct (transfer_loop_spec bs s1 Hnd') as (s' & new & Hrun & Hstep & Hper).
    { intros i Hi. apply HL, Hsub, Hi. }
    rewrite <- (for_each_paused_calm (delay_between_batches cfg) bs _ s1 Hcalm) in Hrun.
    rewrite (bind_done _ _ _ _ _ Hrun), report_run.
    exists (live_report s'), s', new.
    split; [reflexivity|].
    split; [eapply executor_step_mono; [exact Hsub|exact Hstep]|].
    right. right. right. left. repeat (split; [auto|]).
    intros Hpos i Hi. apply Hper. rewrite Hall by exact Hpos. exact Hi. }
  rewrite Hbs in Hnd', Hsub |- *.
  assert (Hnd1 : NoDup (concat [b1])).
  { cbn [concat] in Hnd' |- *. rewrite app_nil_r.
    apply NoDup_app in Hnd' as (Hnd1 & _). exact Hnd1. }
  assert (Hsub1 : concat [b1] ⊆ L).
  { intros i Hi. apply Hsub. cbn [concat] in Hi |- *. rewrite app_nil_r in Hi.
    apply elem_of_app. left. exact Hi. }
  destruct (transfer_loop_spec [b1] s1 Hnd1) as (s' & new & Hrun & Hstep & _).
  { intros i Hi. apply HL, Hsub1, Hi. }
  assert (Hfirst : snd (process_batch w cfg b1 s1) = s').
  { revert Hrun. cbn [for_each]. unfold bind, ret.
    destruct (process_batch w cfg b1 s1) as [[[]|] sx]; [|discriminate].
    intros [= <-]. reflexivity. }
  rewrite (bind_raised _ _ _ _
             (for_each_paused_stops (delay_between_batches cfg) b1 b2 more
                (process_batch w cfg) s1 Hd)).
  rewrite Hfirst.
  exists Raised, s', new. split; [reflexivity|].
  split; [eapply executor_step_mono; [exact Hsub1|exact Hstep]|].
  right. right. right. right.
  split; [exact Hne|]. split; [reflexivity|]. split; [exact Hnz|].
  split; [exact Hd|]. split; [cbn [length]; lia|reflexivity].
Qed.

End Executor.

(** ** Per-item fallback *)

(** C4. When the group submission of a batch of (distinct, pending)
    recipients fails, the per-recipient fallback and the rest of the loop
    body complete without raising, and every recipient of the batch ends
    [success] or [failed], none [pending]: [success] exactly when one of its
    individual submissions was confirmed, [failed] otherwise, in which case
    every one of the [max_retries] attempts is logged as failed (for a
    recipient that has its keys); no individual attempt is numbered
    [max_retries] or more. *)
Theorem fallback_leaves_batch_terminal `{Platform} (w : World) (cfg : AirdropConfig)
    (batch : list nat) (s s1 : Manager) :
  NoDup batch →
  (∀ i, i ∈ batch → status_at (recipients s) i = Some "pending") →
  _execute_transfer_batch w cfg batch s = (Done false, s1) →
  ∃ s2 s' new,
    fallback w cfg batch s1 = (Done (), s2)
    ∧ process_batch w cfg batch s = (Done (), s')
    ∧ recipients s' = recipients s2
    ∧ journal s2 = new ++ journal s1
    ∧ ∀ i, i ∈ batch →
        ∃ r', recipients s' !! i = Some r'
          ∧ (status r' = "success" ∨ status r' = "failed")
          ∧ status r' ≠ "pending"
          ∧ (status r' = "success" ↔ ∃ k ix v, SentSingle i k ix (Value v) ∈ new)
          ∧ (∀ k ix reply, SentSingle i k ix reply ∈ new →
               (k < Z.to_nat (max_retries cfg))%nat)
          ∧ (status r' = "failed" → keyed (recipients s) i = true →
               ∀ k, (k < Z.to_nat (max_retries cfg))%nat → LogAttemptFailed i k ∈ new).
Proof.
  intros Hnd Hp Hbatch.
  destruct (execute_batch_spec w cfg batch s Hp) as (b & new1 & t1 & Hrun & _ & _).
  rewrite Hbatch in Hrun. injection Hrun as <- ->.
  destruct (fallback_spec w cfg batch
              (advance new1 t1 (set_recipients (recipients s) s)) Hnd Hp)
    as (s2 & new2 & Hrun2 & Hj2 & _ & _ & _ & _ & Hok2 & _ & _ & Hper2).
  destruct (save_progress_frame w cfg s2) as (s' & new3 & Hrun3 & Hrs3 & _).
  exists s2, s', new2.
  split; [exact Hrun2|].
  split.
  { unfold process_batch. rewrite (bind_done _ _ _ _ _ Hbatch).
    rewrite (bind_done _ _ _ _ _ Hrun2). exact Hrun3. }
  split; [exact Hrs3|]. split; [exact Hj2|].
  intros i Hi. destruct (Hper2 i Hi) as (r' & Hr' & Hterm & Hiff & Hlog).
  exists r'. rewrite Hrs3. split; [exact Hr'|]. split; [exact Hterm|].
  split; [destruct Hterm as [-> | ->]; discriminate|].
  split; [exact Hiff|]. split; [|exact Hlog].
  intros k ix reply Hin. rewrite Forall_forall in Hok2.
  apply Hok2 in Hin. cbn in Hin. tauto.
Qed.

Lemma fallback_leaves_batch_terminal_witness :
  ∃ s', process_batch (H := Reference.platform) Examples.flaky (Examples.config false)
          [0; 1]%nat (Examples.manager Examples.fresh Missing) = (Done (), s')
        ∧ map status (recipients s') = ["success"; "failed"].
Proof.
  destruct (fallback_leaves_batch_terminal (H := Reference.platform)
              Examples.flaky (Examples.config false) [0; 1]%nat
              (Examples.manager Examples.fresh Missing)
              (state_of (_execute_transfer_batch Examples.flaky (Examples.config false)
                           [0; 1]%nat (Examples.manager Examples.fresh Missing))))
    as (s2 & s' & new & _ & Hrun & _).
  - repeat constructor; set_solver.
  - intros i Hi. repeat (apply elem_of_cons in Hi as [->|Hi]; [reflexivity|]).
    inversion Hi.
  - reflexivity.
  - exists s'. split; [exact Hrun|].
    replace s' with (state_of (process_batch Examples.flaky (Examples.config false)
                                 [0; 1]%nat (Examples.manager Examples.fresh Missing)))
      by (rewrite Hrun; reflexivity).
    vm_compute. reflexivity.
Defined.

(** ** What the executor reports *)

Lemma count_status_pos `{Platform} (v : string) (rs : list Recipient) :
  0 < count_status v rs ↔ Exists (λ r, status r = v) rs.
Proof.
  unfold count_status. induction rs as [|r rs IH].
  - cbn. split; [lia|]. intros Hex. inversion Hex.
  - rewrite (filter_cons (λ r, status r = v)), Exists_cons.
    destruct (decide (status r = v)) as [Hr|Hr]; cbn [length].
    + split; [auto|lia].
    + rewrite IH. tauto.
Qed.

(** The claim fails on a run that resumes from a checkpoint in which every
    recipient is [failed]: nothing is pending, the executor reports
    success, and no recipient is [success]. *)
Lemma executor_success_without_any_success :
  let run := execute_token_transfers_with_resume (H := Reference.platform)
               Examples.calm (Examples.config false)
               (Examples.manager Examples.fresh Examples.failed_checkpoint) in
  result_of run = Done true
  ∧ map status (recipients (state_of run)) = ["failed"; "failed"]
  ∧ successful_transfers (state_of run) = 0.
Proof. vm_compute. auto. Qed.

(** A checkpoint of the same phase and the same number of recipients is
    restored whatever wallets it lists: its success counter is taken as it
    is, no status matches, and with the node offline the executor reports
    success while both recipients end [failed]. *)
Lemma executor_success_with_foreign_checkpoint :
  let run := execute_token_transfers_with_resume (H := Reference.platform)
               Examples.offline (Examples.config false)
               (Examples.manager Examples.fresh Scenarios.foreign_checkpoint) in
  result_of run = Done true
  ∧ map status (recipients (state_of run)) = ["failed"; "failed"]
  ∧ successful_transfers (state_of run) = 2.
Proof. vm_compute. auto. Qed.

(** A batch delay that [time.sleep] rejects ends a live run of two batches
    after the first: the executor raises, the first recipient is paid and
    the second is still [pending]. With one batch there is no pause. *)
Lemma executor_stops_at_a_rejected_delay :
  let minus_one := SFopp Examples.one_second in
  let run := execute_token_transfers_with_resume (H := Reference.platform)
               Examples.calm (Scenarios.config_pausing minus_one)
               (Examples.manager Examples.fresh Missing) in
  let alone := execute_token_transfers_with_resume (H := Reference.platform)
               Examples.calm (Scenarios.config_pausing minus_one)
               (Examples.manager [Examples.recipient Examples.alice Examples.amount "pending"]
                  Missing) in
  sleep_returns minus_one = false
  ∧ result_of run = Raised
  ∧ map status (recipients (state_of run)) = ["success"; "pending"]
  ∧ result_of alone = Done true.
Proof. vm_compute. auto. Qed.

(** C6, as the code has it. With [s1] the manager as [load_progress] leaves
    it and [L] its pending recipients: when [L] is empty the executor
    reports success, whatever the statuses are. Otherwise, in dry-run mode
    it reports success; in a live run it raises when the batch size is zero
    or when [time.sleep] rejects the batch delay and there are two batches
    or more, and else it reports whether the success counter is positive
    (raising if the success rate of the log line cannot be computed). The
    counter exceeds the number of recipients with status [success] by the
    same amount at the end as after the load; so when the two agreed after
    the load, a report is positive if and only if at least one recipient
    ends with status [success]. *)
Theorem executor_success_report `{Platform} (w : World) (cfg : AirdropConfig)
    (s : Manager) :
  let s1 := state_of (load_progress cfg s) in
  let L := pending_from 0 (recipients s1) in
  let bs := batches (batch_size cfg) L in
  ∃ o s', execute_token_transfers_with_resume w cfg s = (o, s')
    ∧ successful_transfers s' - count_status "success" (recipients s')
      = successful_transfers s1 - count_status "success" (recipients s1)
    ∧ (L = [] → o = Done true ∧ s' = s1)
    ∧ (L ≠ [] → dry_run cfg = true → o = Done true)
    ∧ (L ≠ [] → dry_run cfg = false →
       o = if batch_size cfg =? 0 then Raised
           else if sleep_returns (delay_between_batches cfg) || (length bs <=? 1)%nat
                then live_report s'
                else Raised)
    ∧ (L ≠ [] →
       successful_transfers s1 = count_status "success" (recipients s1) →
       ∀ b, o = Done b →
         (b = true ↔ Exists (λ r, status r = "success") (recipients s'))).
Proof.
  intros s1 L bs.
  destruct (executor_spec w cfg s) as (o & s' & new & Hrun & Hstep & Hcases).
  fold s1 L bs in Hstep, Hcases.
  exists o, s'. split; [exact Hrun|].
  destruct Hstep as (_ & _ & _ & _ & _ & Hc & _).
  split; [exact Hc|].
  destruct Hcases as [(HL & -> & ->)|[(HL & Hdry & -> & Hall)
                     |[(HL & Hdry & Hz & -> & ->)
                     |[(HL & Hdry & Hnz & Hcalm & -> & _)
                      |(HL & Hdry & Hnz & Hd & Hlen & ->)]]]].
  - split; [auto|]. repeat split; intros; contradiction.
  - split; [intros; contradiction|]. split; [auto|].
    split; [intros _ Hd; congruence|].
    intros _ _ b [= <-]. split; [|reflexivity].
    intros _. destruct L as [|i rest]; [contradiction|].
    specialize (Hall i (list_elem_of_here _ _)). unfold status_at in Hall.
    destruct (recipients s' !! i) as [r|] eqn:Hr; [|discriminate].
    apply Exists_exists. exists r. split; [eapply list_elem_of_lookup_2; eauto|].
    cbn in Hall. congruence.
  - split; [intros; contradiction|]. split; [intros _ Hd; congruence|].
    split; [|intros _ _ b; discriminate].
    intros _ _. rewrite (proj2 (Z.eqb_eq _ _) Hz). reflexivity.
  - split; [intros; contradiction|]. split; [intros _ Hd; congruence|].
    split.
    + intros _ _. rewrite (proj2 (Z.eqb_neq _ _) Hnz).
      destruct Hcalm as [->|Hlen]; [reflexivity|].
      rewrite (proj2 (Nat.leb_le _ _) Hlen), orb_true_r. reflexivity.
    + intros _ Hagree b. unfold live_report.
      destruct (py_truediv _ _); [|discriminate]. intros [= <-].
      rewrite bool_decide_eq_true.
      replace (successful_transfers s') with (count_status "success" (recipients s'))
        by lia.
      apply count_status_pos.
  - split; [intros; contradiction|]. split; [intros _ Hd'; congruence|].
    split; [|intros _ _ b; discriminate].
    intros _ _. rewrite (proj2 (Z.eqb_neq _ _) Hnz), Hd.
    rewrite (proj2 (Nat.leb_gt _ _)) by lia. reflexivity.
Qed.

Lemma executor_success_report_witness :
  ∃ o s', execute_token_transfers_with_resume (H := Reference.platform)
            Examples.offline (Examples.config false)
            (Examples.manager Examples.fresh Missing) = (o, s')
          ∧ o = Done false
          ∧ ¬ Exists (λ r, status r = "success") (recipients s').
Proof.
  destruct (executor_success_report (H := Reference.platform)
              Examples.offline (Examples.config false)
              (Examples.manager Examples.fresh Missing))
    as (o & s' & Hrun & _ & _ & _ & _ & Hiff).
  assert (Ho : o = Done false).
  { replace o with (result_of (execute_token_transfers_with_resume Examples.offline
                      (Examples.config false) (Examples.manager Examples.fresh Missing)))
      by (rewrite Hrun; reflexivity).
    vm_compute. reflexivity. }
  exists o, s'. split; [exact Hrun|]. split; [exact Ho|].
  intros Hex. apply (Hiff ltac:(discriminate) eq_refl false Ho) in Hex. discriminate.
Defined.

(** ** Resuming *)

Section Resume.
Context `{Platform} (cfg prev_cfg : AirdropConfig).

Lemma count_status_map (v : string) (rs : list Recipient) :
  count_status v rs = Z.of_nat (length (filter (λ x, x = v) (map status rs))).
Proof.
  unfold count_status. f_equal. induction rs as [|r rs IH]; [reflexivity|].
  cbn [map]. rewrite (filter_cons (λ r, status r = v)), (filter_cons (λ x, x = v)).
  destruct (decide (status r = v)); cbn [length]; rewrite IH; reflexivity.
Qed.

(** A run over the same distinct wallets as the run that saved the
    checkpoint gets every recipient's saved status back. *)
Lemma resume_load (timestamp : Z) (prev s : Manager) :
  phase prev_cfg = phase cfg →
  map sol_wallet (recipients prev) ≡ₚ map sol_wallet (recipients s) →
  NoDup (map sol_wallet (recipients s)) →
  progress_file s = Contents (Document (snapshot prev_cfg timestamp prev)) →
  let d := saved_statuses (recipients prev) in
  ∃ s1, load_progress cfg s = (Done true, s1)
    ∧ recipients s1 = map (restored d) (recipients s)
    ∧ (∀ p, p ∈ recipients prev → d !! sol_wallet p = Some (status p))
    ∧ (∀ r, r ∈ recipients s → ∃ p, p ∈ recipients prev ∧ sol_wallet p = sol_wallet r).
Proof.
  intros Hphase Hperm Hnd Hf d.
  assert (Hnd' : NoDup (map sol_wallet (recipients prev))) by (rewrite Hperm; exact Hnd).
  assert (Hlen : length (recipients prev) = length (recipients s)).
  { rewrite <- (length_map sol_wallet (recipients prev)),
            <- (length_map sol_wallet (recipients s)).
    apply Permutation_length, Hperm. }
  rewrite (load_progress_document cfg s _ Hf).
  cbn [snapshot pd_phase pd_total_recipients pd_successful_transfers
       pd_failed_transfers pd_skipped_transfers pd_recipients default from_option id].
  rewrite Hphase, Hlen, !bool_decide_eq_true_2 by reflexivity. cbn [andb].
  rewrite progress_statuses_saved.
  eexists. split; [reflexivity|]. split; [reflexivity|]. split.
  - intros p Hp. apply list_elem_of_lookup in Hp as [i Hi].
    eapply saved_statuses_distinct; eauto.
  - intros r Hr.
    assert (Hw : sol_wallet r ∈ map sol_wallet (recipients prev)).
    { rewrite Hperm. apply list_elem_of_fmap. eauto. }
    apply list_elem_of_fmap in Hw as (p & Hw & Hp). eauto.
Qed.

End Resume.

(** C1. A run resumes with the phase and the (pairwise distinct) wallets of
    the run that saved the checkpoint. Then the working set is exactly the
    recipients whose saved status is [pending], and its size is the number
    of [pending] statuses in the checkpoint; every transaction the executor
    submits is addressed to members of the working set only; and a
    recipient saved as [success], [failed] or [skipped] keeps that status
    to the end and is named in no submission. *)
Theorem resume_working_set `{Platform} (w : World) (cfg prev_cfg : AirdropConfig)
    (timestamp : Z) (prev s : Manager) :
  phase prev_cfg = phase cfg →
  map sol_wallet (recipients prev) ≡ₚ map sol_wallet (recipients s) →
  NoDup (map sol_wallet (recipients s)) →
  progress_file s = Contents (Document (snapshot prev_cfg timestamp prev)) →
  let s1 := state_of (load_progress cfg s) in
  let working := pending_from 0 (recipients s1) in
  (∀ i, i ∈ working ↔
        ∃ r p, recipients s !! i = Some r ∧ p ∈ recipients prev
               ∧ sol_wallet p = sol_wallet r ∧ status p = "pending")
  ∧ Z.of_nat (length working) = count_status "pending" (recipients prev)
  ∧ ∃ o s' new, execute_token_transfers_with_resume w cfg s = (o, s')
      ∧ journal s' = new ++ journal s1
      ∧ (∀ e i, e ∈ new → i ∈ targets e → i ∈ working)
      ∧ ∀ i r p, recipients s !! i = Some r → p ∈ recipients prev →
          sol_wallet p = sol_wallet r → is_terminal (status p) = true →
          status_at (recipients s') i = Some (status p)
          ∧ ∀ e, e ∈ new → i ∉ targets e.
Proof.
  intros Hphase Hperm Hnd Hf s1 working.
  destruct (resume_load cfg prev_cfg timestamp prev s Hphase Hperm Hnd Hf)
    as (s1' & Hload & Hrs & Hd & Hex).
  assert (Hs1 : s1 = s1') by (unfold s1; rewrite Hload; reflexivity).
  subst s1'. set (d := saved_statuses (recipients prev)) in *.
  assert (Hrestored : ∀ r p, r ∈ recipients s → p ∈ recipients prev →
            sol_wallet p = sol_wallet r → status (restored d r) = status p).
  { intros r p _ Hp Hw. unfold restored. rewrite <- Hw, (Hd p Hp). reflexivity. }
  assert (Hwork : ∀ i, i ∈ working ↔
            ∃ r p, recipients s !! i = Some r ∧ p ∈ recipients prev
                   ∧ sol_wallet p = sol_wallet r ∧ status p = "pending").
  { intros i. unfold working. rewrite pending_elem, Hrs. split.
    - intros (r1 & Hr1 & Hst). rewrite list_lookup_fmap in Hr1.
      destruct (recipients s !! i) as [r|] eqn:Hr; [|discriminate].
      injection Hr1 as <-.
      assert (Hin : r ∈ recipients s) by (eapply list_elem_of_lookup_2; eauto).
      destruct (Hex r Hin) as (p & Hp & Hw). exists r, p.
      rewrite <- (Hrestored r p Hin Hp Hw). auto.
    - intros (r & p & Hr & Hp & Hw & Hst). exists (restored d r).
      rewrite list_lookup_fmap, Hr. split; [reflexivity|].
      rewrite (Hrestored r p) by (eauto using list_elem_of_lookup_2). exact Hst. }
  split; [exact Hwork|]. split.
  { unfold working. rewrite pending_from_length, !count_status_map. f_equal.
    apply Permutation_length, filter_Permutation.
    set (g := λ k : string, default "" (d !! k)).
    assert (H1 : map status (recipients s1) = map g (map sol_wallet (recipients s))).
    { rewrite Hrs, <- !list_fmap_compose. apply list_fmap_ext. intros i r Hr. cbn.
      assert (Hin : r ∈ recipients s) by (eapply list_elem_of_lookup_2; eauto).
      destruct (Hex r Hin) as (p & Hp & Hw).
      rewrite (Hrestored r p Hin Hp Hw). unfold g. rewrite <- Hw, (Hd p Hp). reflexivity. }
    assert (H2 : map status (recipients prev) = map g (map sol_wallet (recipients prev))).
    { rewrite <- list_fmap_compose. apply list_fmap_ext. intros i p Hp. cbn.
      unfold g. rewrite (Hd p) by (eapply list_elem_of_lookup_2; eauto). reflexivity. }
    rewrite H1, H2. apply fmap_Permutation. symmetry. exact Hperm. }
  destruct (executor_spec w cfg s) as (o & s' & new & Hrun & Hstep & _).
  fold s1 working in Hstep.
  destruct Hstep as (Hj & _ & _ & Hframe & Hok & _).
  exists o, s', new. split; [exact Hrun|]. split; [exact Hj|].
  assert (Htargets : ∀ e i, e ∈ new → i ∈ targets e → i ∈ working).
  { intros e i He Hi. rewrite Forall_forall in Hok. specialize (Hok e He).
    destruct e; cbn in Hi, Hok; try (inversion Hi; fail).
    - destruct Hok as (Hb & Htx & _). apply elem_of_app in Hi as [Hi|Hi]; [auto|].
      rewrite Htx in Hi. apply list_elem_of_filter in Hi as [_ Hi]. auto.
    - apply list_elem_of_singleton in Hi as ->. tauto. }
  split; [exact Htargets|].
  intros i r p Hr Hp Hw Hterm.
  assert (Hout : i ∉ working).
  { rewrite Hwork. intros (r0 & p0 & Hr0 & Hp0 & Hw0 & Hst0).
    rewrite Hr in Hr0. injection Hr0 as <-.
    assert (Hpp : status p = status p0).
    { rewrite <- (Hrestored r p), <- (Hrestored r p0);
        eauto using list_elem_of_lookup_2. }
    rewrite Hpp, Hst0 in Hterm. discriminate. }
  split.
  - unfold status_at. rewrite (Hframe i Hout), Hrs, list_lookup_fmap, Hr. cbn.
    rewrite (Hrestored r p) by (eauto using list_elem_of_lookup_2). reflexivity.
  - intros e He Hi. apply Hout. eauto.
Qed.

Lemma resume_working_set_witness :
  Z.of_nat (length (pending_from (H := Reference.platform) 0
    (recipients (state_of (load_progress (Examples.config false)
                             (Examples.manager Examples.fresh Examples.checkpoint))))))
  = 1.
Proof.
  destruct (resume_working_set (H := Reference.platform) Examples.calm
              (Examples.config false) (Examples.config false) 1700000000
              Examples.interrupted
              (Examples.manager Examples.fresh Examples.checkpoint))
    as (_ & Hsize & _).
  - reflexivity.
  - reflexivity.
  - repeat constructor; set_solver.
  - reflexivity.
  - rewrite Hsize. vm_compute. reflexivity.
Defined.

(** Beyond that data model: the checkpoint is read back as a dict keyed by
    wallet, so when the recipient list names a wallet twice the later entry
    decides for both rows. A row saved as [success] before a [pending] row
    of the same wallet comes back [pending] and is in the working set. *)
Lemma load_progress_repeated_wallet :
  let twice (first second : string) :=
    [Examples.recipient Examples.alice Examples.amount first;
     Examples.recipient Examples.alice Examples.amount second] in
  let prev := {| recipients := twice "success" "pending";
                 successful_transfers := 1; failed_transfers := 0;
                 skipped_transfers := 0; progress_file := Missing;
                 tick := 9; journal := [] |} in
  let s := Examples.manager (twice "pending" "pending")
             (Contents (Document (snapshot (H := Reference.platform)
                                    (Examples.config false) 1700000000 prev))) in
  pending_from 0 (recipients (state_of (load_progress (Examples.config false) s)))
  = [0; 1]%nat.
Proof. vm_compute. reflexivity. Qed.

(** ** Operations that leave the recipients alone *)

Section Quiet.
Context `{Platform} (w : World) (cfg : AirdropConfig).

Lemma quiet_ret {A} (P : event → Prop) (a : A) : quiet P (ret a).
Proof. intros s. exists [], (tick s). rewrite advance_nil. split; [reflexivity|constructor]. Qed.

Lemma quiet_raise {A} (P : event → Prop) : quiet P (raise (A := A)).
Proof. intros s. exists [], (tick s). rewrite advance_nil. split; [reflexivity|constructor]. Qed.

Lemma quiet_gets {A} (P : event → Prop) (f : Manager → A) : quiet P (gets f).
Proof. intros s. exists [], (tick s). rewrite advance_nil. split; [reflexivity|constructor]. Qed.

Lemma quiet_or_raise {A} (P : event → Prop) (o : option A) : quiet P (or_raise o).
Proof. destruct o; [apply quiet_ret|apply quiet_raise]. Qed.

Lemma quiet_recipient_at (P : event → Prop) (i : nat) : quiet P (recipient_at i).
Proof.
  intros s. exists [], (tick s). rewrite advance_nil. unfold recipient_at.
  destruct (recipients s !! i); split; (reflexivity || constructor).
Qed.

Lemma quiet_rpc_call (P : event → Prop) : quiet P (rpc_call w).
Proof. intros s. exists [], (S (tick s)). split; [reflexivity|constructor]. Qed.

Lemma quiet_log (P : event → Prop) (e : event) : P e → quiet P (log e).
Proof. intros He s. exists [e], (tick s). split; [reflexivity|repeat constructor; exact He]. Qed.

Lemma quiet_bind {A B} (P : event → Prop) (m : M A) (k : A → M B) :
  quiet P m → (∀ a, quiet P (k a)) → quiet P (bind m k).
Proof.
  intros Hm Hk s. destruct (Hm s) as (new1 & t1 & Hs1 & Hok1).
  unfold bind. destruct (m s) as [[a|] s1]; cbn in Hs1; subst s1.
  - destruct (Hk a (advance new1 t1 s)) as (new2 & t2 & Hs2 & Hok2).
    exists (new2 ++ new1), t2. rewrite Hs2, advance_advance.
    split; [reflexivity|]. apply Forall_app. auto.
  - exists new1, t1. auto.
Qed.

Lemma quiet_try {A} (P : event → Prop) (m h : M A) :
  quiet P m → quiet P h → quiet P (try_ m h).
Proof.
  intros Hm Hh s. destruct (Hm s) as (new1 & t1 & Hs1 & Hok1).
  unfold try_. destruct (m s) as [[a|] s1]; cbn in Hs1; subst s1.
  - exists new1, t1. auto.
  - destruct (Hh (advance new1 t1 s)) as (new2 & t2 & Hs2 & Hok2).
    exists (new2 ++ new1), t2. rewrite Hs2, advance_advance.
    split; [reflexivity|]. apply Forall_app. auto.
Qed.

Lemma quiet_sum_each {A} (P : event → Prop) (l : list A) (body : A → M Z) :
  (∀ x, quiet P (body x)) → quiet P (sum_each l body).
Proof.
  intros Hbody. induction l as [|x l IH]; cbn [sum_each]; [apply quiet_ret|].
  apply quiet_bind; [apply Hbody|]. intros n.
  apply quiet_bind; [exact IH|]. intros m. apply quiet_ret.
Qed.

Lemma quiet_py_sleep (P : event → Prop) (d : float) : quiet P (py_sleep d).
Proof. unfold py_sleep. destruct (sleep_returns d); [apply quiet_ret|apply quiet_raise]. Qed.

Lemma quiet_sum_each_paused {A} (P : event → Prop) (pause : M unit) (l : list A)
    (body : A → M Z) :
  quiet P pause → (∀ x, quiet P (body x)) → quiet P (sum_each_paused pause l body).
Proof.
  intros Hpause Hbody. induction l as [|x l IH]; cbn [sum_each_paused]; [apply quiet_ret|].
  apply quiet_bind; [apply Hbody|]. intros n.
  apply quiet_bind; [destruct l; [apply quiet_ret|exact Hpause]|]. intros _.
  apply quiet_bind; [exact IH|]. intros m. apply quiet_ret.
Qed.

Lemma quiet_get_latest_blockhash (P : event → Prop) : quiet P (get_latest_blockhash w).
Proof.
  apply quiet_bind; [apply quiet_rpc_call|].
  intros [v| |]; [apply quiet_ret|apply quiet_raise|apply quiet_raise].
Qed.

Lemma quiet_sent (P : event → Prop) (reply : rpc_reply) : quiet P (sent reply).
Proof. destruct reply; [apply quiet_ret|apply quiet_ret|apply quiet_raise]. Qed.

(** The funding pre-flight reads balances and changes nothing. *)
Lemma validate_configuration_quiet : quiet (λ _, False) (validate_configuration w cfg).
Proof.
  unfold validate_configuration.
  repeat first
    [ apply quiet_ret | apply quiet_raise | apply quiet_gets | apply quiet_or_raise
    | apply quiet_rpc_call
    | apply quiet_try
    | apply quiet_bind; [|intros ?]
    | case_match ].
Qed.

Lemma _create_single_token_account_quiet (i : nat) :
  quiet is_create (_create_single_token_account w cfg i).
Proof.
  unfold _create_single_token_account.
  repeat first
    [ apply quiet_ret | apply quiet_raise | apply quiet_recipient_at
    | apply quiet_get_latest_blockhash | apply quiet_rpc_call | apply quiet_sent
    | apply quiet_log; exact I
    | apply quiet_try
    | apply quiet_bind; [|intros ?]
    | case_match ].
Qed.

Lemma build_create_tx_quiet (batch : list nat) : quiet is_create (build_create_tx cfg batch).
Proof.
  induction batch as [|i batch IH]; cbn [build_create_tx]; [apply quiet_ret|].
  apply quiet_bind; [apply quiet_recipient_at|]. intros r.
  apply quiet_bind; [exact IH|]. intros tx.
  destruct (pubkey r); apply quiet_ret.
Qed.

(** Account creation sends transactions and changes nothing of the
    manager. *)
Lemma _create_token_accounts_batch_quiet (todo : list nat) :
  quiet is_create (_create_token_accounts_batch w cfg todo).
Proof.
  unfold _create_token_accounts_batch.
  destruct (dry_run cfg); [apply quiet_ret|].
  apply quiet_bind; [|intros ?; apply quiet_ret].
  apply quiet_sum_each_paused; [apply quiet_py_sleep|]. intros batch.
  apply quiet_try.
  - repeat first
      [ apply quiet_ret | apply quiet_get_latest_blockhash | apply quiet_rpc_call
      | apply quiet_sent | apply build_create_tx_quiet
      | apply quiet_log; exact I
      | apply quiet_bind; [|intros ?] ].
  - apply quiet_sum_each. intros i.
    apply quiet_bind; [apply _create_single_token_account_quiet|].
    intros ?. apply quiet_ret.
Qed.

Lemma account_missing_quiet (P : event → Prop) : quiet P (account_missing w).
Proof.
  unfold account_missing.
  apply quiet_try; [|apply quiet_ret].
  apply quiet_bind; [apply quiet_rpc_call|].
  intros [v| |]; [apply quiet_ret|apply quiet_ret|apply quiet_raise].
Qed.

End Quiet.

(** ** Account Provisioner *)

Section Provisioner.
Context `{Platform} (w : World) (cfg : AirdropConfig).

Lemma provisioned_refl (rs : list Recipient) : Forall2 provisioned_from rs rs.
Proof. apply Forall2_same_length_lookup. split; [reflexivity|].
  intros i x y Hx Hy. left. congruence. Qed.

Lemma provisioned_trans (rs1 rs2 rs3 : list Recipient) :
  Forall2 provisioned_from rs1 rs2 → Forall2 provisioned_from rs2 rs3 →
  Forall2 provisioned_from rs1 rs3.
Proof.
  intros H12. revert rs3. induction H12 as [|a b rs1 rs2 Hab _ IH]; intros rs3 H23.
  - inversion H23. constructor.
  - inversion H23 as [|b' c rs2' rs3' Hbc Hrest]; subst. constructor; [|apply IH, Hrest].
    destruct Hab as [->|[x ->]], Hbc as [->|[y ->]]; unfold provisioned_from; eauto.
Qed.

Lemma provisioned_insert (rs : list Recipient) (i : nat) (r : Recipient) (a : Pubkey) :
  rs !! i = Some r → Forall2 provisioned_from rs (<[i := with_token_account a r]> rs).
Proof.
  intros Hr. apply Forall2_same_length_lookup. split; [rewrite length_insert; reflexivity|].
  intros j x y Hx Hy. destruct (decide (j = i)) as [->|Hne].
  - rewrite list_lookup_insert_eq in Hy by (eapply lookup_lt_Some; eauto).
    right. exists a. congruence.
  - rewrite list_lookup_insert_ne in Hy by done. left. congruence.
Qed.

Lemma provisioned_keeps (r r' : Recipient) :
  provisioned_from r r' →
  status r' = status r ∧ pubkey r' = pubkey r
  ∧ (is_Some (token_account r) → is_Some (token_account r')).
Proof. intros [->|[a ->]]; cbn; eauto. Qed.

Lemma quiet_nothing {A} (m : M A) (s : Manager) :
  quiet (λ _, False) m → ∃ t, snd (m s) = advance [] t s.
Proof.
  intros Hq. destruct (Hq s) as (new & t & Hs & Hno).
  destruct new as [|e new]; [eauto|]. inversion Hno; contradiction.
Qed.

(** The existence-check loop on recipients that all have their public key:
    it writes no status and logs nothing, and when it completes every
    recipient it visited has its token account. *)
Lemma check_accounts_spec (idx : list nat) (s : Manager) :
  Forall (λ r, is_Some (pubkey r)) (recipients s) →
  (∀ i, i ∈ idx → is_Some (recipients s !! i)) →
  ∃ o s', check_accounts w cfg idx s = (o, s')
    ∧ journal s' = journal s
    ∧ successful_transfers s' = successful_transfers s
    ∧ failed_transfers s' = failed_transfers s
    ∧ skipped_transfers s' = skipped_transfers s
    ∧ progress_file s' = progress_file s
    ∧ Forall2 provisioned_from (recipients s) (recipients s')
    ∧ ∀ l, o = Done l → ∀ i, i ∈ idx →
        ∃ r', recipients s' !! i = Some r' ∧ is_Some (token_account r').
Proof.
  revert s. induction idx as [|i idx IH]; intros s Hkeys Hv.
  - exists (Done []), s. split; [reflexivity|]. repeat (split; [reflexivity|]).
    split; [apply provisioned_refl|]. intros l _ i Hi. inversion Hi.
  - destruct (Hv i) as [r Hr]; [left|].
    assert (Hk : is_Some (pubkey r)).
    { rewrite Forall_forall in Hkeys. eapply Hkeys, list_elem_of_lookup_2, Hr. }
    destruct Hk as [key Hk].
    cbn [check_accounts]. rewrite (bind_done _ _ _ _ _ (recipient_at_run s i r Hr)), Hk.
    set (a := get_associated_token_address key (token_mint cfg)).
    set (sa := set_recipients (<[i := with_token_account a r]> (recipients s)) s).
    assert (Hset : set_token_account i a s = (Done (), sa))
      by (unfold set_token_account; rewrite Hr; reflexivity).
    rewrite (bind_done _ _ _ _ _ Hset).
    destruct (quiet_nothing (account_missing w) sa (account_missing_quiet w _)) as [t Ht].
    assert (Hmiss : ∃ missing, account_missing w sa = (Done missing, advance [] t sa)).
    { revert Ht. unfold account_missing, try_, bind, rpc_call, ret, raise.
      destruct (rpc w (tick sa)); cbn; intros <-; eauto. }
    destruct Hmiss as [missing Hmiss]. rewrite (bind_done _ _ _ _ _ Hmiss).
    set (sb := advance [] t sa) in *.
    assert (Hprov : Forall2 provisioned_from (recipients s) (recipients sb))
      by (apply provisioned_insert, Hr).
    assert (Hrate : rate_limit cfg i sb = (Done (), sb)
                    ∨ rate_limit cfg i sb = (Raised, sb)).
    { unfold rate_limit, py_sleep. repeat case_match; auto. }
    destruct Hrate as [Hrate|Hrate].
    2:{ rewrite (bind_raised _ _ _ _ Hrate).
        exists Raised, sb. split; [reflexivity|]. repeat (split; [reflexivity|]).
        split; [exact Hprov|]. discriminate. }
    rewrite (bind_done _ _ _ _ _ Hrate).
    destruct (IH sb) as (o & s' & Hrun & Hj & Hc & Hd & Hsk & Hf & Hprov' & Hdone).
    { cbn. apply Forall_forall. intros x Hx.
      apply list_elem_of_lookup in Hx as [j Hj].
      destruct (decide (j = i)) as [->|Hne].
      - rewrite list_lookup_insert_eq in Hj by (eapply lookup_lt_Some; eauto).
        injection Hj as <-. cbn. eauto.
      - rewrite list_lookup_insert_ne in Hj by done.
        rewrite Forall_forall in Hkeys. eapply Hkeys, list_elem_of_lookup_2, Hj. }
    { intros j Hj. cbn. apply lookup_lt_is_Some. rewrite length_insert.
      apply lookup_lt_is_Some, Hv. right. exact Hj. }
    destruct o as [more|].
    + exists (Done (if missing then i :: more else more)), s'.
      split; [rewrite (bind_done _ _ _ _ _ Hrun); reflexivity|].
      split; [rewrite Hj; reflexivity|].
      split; [rewrite Hc; reflexivity|]. split; [rewrite Hd; reflexivity|].
      split; [rewrite Hsk; reflexivity|]. split; [rewrite Hf; reflexivity|].
      split; [eapply provisioned_trans; eauto|].
      intros l _ j [->|Hj']%elem_of_cons; [|eapply Hdone; eauto].
      assert (Hi : recipients sb !! i = Some (with_token_account a r))
        by (cbn; apply list_lookup_insert_eq; eapply lookup_lt_Some; eauto).
      destruct (Forall2_lookup_l _ _ _ _ _ Hprov' Hi) as (r' & Hr' & Hrel).
      exists r'. split; [exact Hr'|].
      apply provisioned_keeps in Hrel as (_ & _ & Hacc). apply Hacc. cbn. eauto.
    + exists Raised, s'.
      split; [rewrite (bind_raised _ _ _ _ Hrun); reflexivity|].
      split; [rewrite Hj; reflexivity|].
      split; [rewrite Hc; reflexivity|]. split; [rewrite Hd; reflexivity|].
      split; [rewrite Hsk; reflexivity|]. split; [rewrite Hf; reflexivity|].
      split; [eapply provisioned_trans; eauto|]. discriminate.
Qed.

(** Provisioning of recipients that all have their public key: statuses
    and counters stay, the journal gains account-creation submissions
    only, and when it reports success every recipient has both keys. *)
Lemma check_and_create_spec (s : Manager) :
  Forall (λ r, is_Some (pubkey r)) (recipients s) →
  ∃ o s' new, check_and_create_token_accounts w cfg s = (o, s')
    ∧ journal s' = new ++ journal s
    ∧ Forall is_create new
    ∧ successful_transfers s' = successful_transfers s
    ∧ failed_transfers s' = failed_transfers s
    ∧ skipped_transfers s' = skipped_transfers s
    ∧ progress_file s' = progress_file s
    ∧ Forall2 provisioned_from (recipients s) (recipients s')
    ∧ (o = Done true → Forall (λ r, has_keys r = true) (recipients s')).
Proof.
  intros Hkeys. unfold check_and_create_token_accounts.
  unfold bind at 1, gets at 1.
  destruct (check_accounts_spec (seq 0 (length (recipients s))) s Hkeys)
    as (o & s1 & Hrun & Hj & Hc & Hd & Hsk & Hf & Hprov & Hdone).
  { intros i Hi. apply elem_of_seq in Hi. apply lookup_lt_is_Some. lia. }
  unfold bind at 1. rewrite Hrun.
  destruct o as [todo|].
  2:{ exists Raised, s1, []. split; [reflexivity|]. split; [exact Hj|].
      split; [constructor|]. repeat (split; [assumption|]). discriminate. }
  assert (Hall : Forall (λ r, has_keys r = true) (recipients s1)).
  { apply Forall_forall. intros r' Hr'.
    apply list_elem_of_lookup in Hr' as [i Hi].
    destruct (Forall2_lookup_r _ _ _ _ _ Hprov Hi) as (r & Hr & Hrel).
    destruct (Hdone todo eq_refl i) as (r'' & Hr'' & Hacc).
    { apply elem_of_seq. apply lookup_lt_Some in Hr. lia. }
    rewrite Hi in Hr''. injection Hr'' as <-.
    apply provisioned_keeps in Hrel as (_ & Hpk & _).
    rewrite Forall_forall in Hkeys.
    destruct (Hkeys r (list_elem_of_lookup_2 _ _ _ Hr)) as [key Hkey].
    destruct Hacc as [acc Hacc].
    unfold has_keys. rewrite Hpk, Hkey, Hacc. reflexivity. }
  destruct todo as [|i0 todo].
  { exists (Done true), s1, []. split; [reflexivity|]. split; [exact Hj|].
    split; [constructor|]. repeat (split; [assumption|]). auto. }
  destruct (_create_token_accounts_batch_quiet w cfg (i0 :: todo) s1)
    as (new & t & Hs2 & Hnew).
  destruct (_create_token_accounts_batch w cfg (i0 :: todo) s1) as [o2 s2] eqn:Hrun2.
  cbn in Hs2. subst s2.
  exists o2, (advance new t s1), new. split; [reflexivity|].
  split; [cbn; rewrite Hj; reflexivity|]. split; [exact Hnew|].
  repeat (split; [assumption|]). auto.
Qed.

End Provisioner.

(** ** The journal is the history of the statuses *)

Section Tracking.
Context `{Platform} (w : World) (cfg : AirdropConfig).

Lemma keeps_ret {A} (I : Manager → Prop) (a : A) : keeps I (ret a).
Proof. intros s Hs. exact Hs. Qed.

Lemma keeps_raise {A} (I : Manager → Prop) : keeps I (raise (A := A)).
Proof. intros s Hs. exact Hs. Qed.

Lemma keeps_gets {A} (I : Manager → Prop) (f : Manager → A) : keeps I (gets f).
Proof. intros s Hs. exact Hs. Qed.

Lemma keeps_or_raise {A} (I : Manager → Prop) (o : option A) : keeps I (or_raise o).
Proof. destruct o; intros s Hs; exact Hs. Qed.

Lemma keeps_recipient_at (I : Manager → Prop) (i : nat) : keeps I (recipient_at i).
Proof. intros s Hs. unfold recipient_at. destruct (recipients s !! i); exact Hs. Qed.

Lemma keeps_bind {A B} (I : Manager → Prop) (m : M A) (k : A → M B) :
  keeps I m → (∀ a, keeps I (k a)) → keeps I (bind m k).
Proof.
  intros Hm Hk s Hs. specialize (Hm s Hs). unfold bind.
  destruct (m s) as [[a|] s1]; cbn in Hm; [apply Hk, Hm|exact Hm].
Qed.

Lemma keeps_try {A} (I : Manager → Prop) (m h : M A) :
  keeps I m → keeps I h → keeps I (try_ m h).
Proof.
  intros Hm Hh s Hs. specialize (Hm s Hs). unfold try_.
  destruct (m s) as [[a|] s1]; cbn in Hm; [exact Hm|apply Hh, Hm].
Qed.

Lemma keeps_for_each {A} (I : Manager → Prop) (l : list A) (body : A → M unit) :
  (∀ x, keeps I (body x)) → keeps I (for_each l body).
Proof.
  intros Hbody. induction l as [|x l IH]; cbn [for_each]; [apply keeps_ret|].
  apply keeps_bind; [apply Hbody|]. intros _. exact IH.
Qed.

Lemma keeps_py_sleep (I : Manager → Prop) (d : float) : keeps I (py_sleep d).
Proof. unfold py_sleep. destruct (sleep_returns d); [apply keeps_ret|apply keeps_raise]. Qed.

Lemma keeps_for_each_paused {A} (I : Manager → Prop) (pause : M unit) (l : list A)
    (body : A → M unit) :
  keeps I pause → (∀ x, keeps I (body x)) → keeps I (for_each_paused pause l body).
Proof.
  intros Hpause Hbody. induction l as [|x l IH]; cbn [for_each_paused]; [apply keeps_ret|].
  apply keeps_bind; [apply Hbody|]. intros _.
  apply keeps_bind; [destruct l; [apply keeps_ret|exact Hpause]|]. intros _. exact IH.
Qed.

Lemma tracked_ext (init : list Recipient) (s s' : Manager) :
  map status (recipients s') = map status (recipients s) → journal s' = journal s →
  tracked init s → tracked init s'.
Proof.
  intros Hr Hj [Hf Hst]. unfold tracked. rewrite Hj. split; [exact Hf|].
  intros i. rewrite <- Hst. unfold status_at.
  assert (Hl : status <$> recipients s' = status <$> recipients s) by exact Hr.
  rewrite <- !list_lookup_fmap, Hl. reflexivity.
Qed.

Lemma tracked_log (init : list Recipient) (e : event) (s : Manager) :
  ¬ is_status_write e → tracked init s → tracked init (record e s).
Proof.
  intros He [Hf Hst]. unfold tracked. cbn.
  destruct e; cbn in He; try contradiction; auto.
Qed.

(** A quiet operation that writes no status keeps the journal the history
    of the statuses. *)
Lemma keeps_quiet {A} (init : list Recipient) (P : event → Prop) (m : M A) :
  (∀ e, P e → ¬ is_status_write e) → quiet P m → keeps (tracked init) m.
Proof.
  intros HP Hq s Hs. destruct (Hq s) as (new & t & -> & Hnew).
  induction Hnew as [|e new He _ IH].
  - eapply tracked_ext; [| |exact Hs]; reflexivity.
  - change (advance (e :: new) t s) with (record e (advance new t s)).
    apply tracked_log; [apply HP, He|exact IH].
Qed.

Lemma keeps_modify_counters (init : list Recipient) (f : Manager → Manager) :
  (∀ s, recipients (f s) = recipients s ∧ journal (f s) = journal s) →
  keeps (tracked init) (modify f).
Proof.
  intros Hf s Hs. cbn. destruct (Hf s) as [Hr Hj].
  eapply tracked_ext; [rewrite Hr; reflexivity|exact Hj|exact Hs].
Qed.

Lemma keeps_log (init : list Recipient) (e : event) :
  ¬ is_status_write e → keeps (tracked init) (log e).
Proof. intros He s Hs. cbn. apply tracked_log; assumption. Qed.

Lemma keeps_set_status (init : list Recipient) (i : nat) (v : string) :
  keeps (tracked init) (set_status i v).
Proof.
  intros s [Hf Hst]. unfold set_status.
  destruct (recipients s !! i) as [r|] eqn:Hr; [|split; assumption].
  unfold tracked. cbn. split.
  - split; [exact Hf|]. rewrite <- Hst. unfold status_at. rewrite Hr. reflexivity.
  - intros j. destruct (decide (i = j)) as [->|Hne].
    + unfold status_at.
      rewrite list_lookup_insert_eq by (eapply lookup_lt_Some; eauto). reflexivity.
    + rewrite status_at_insert_ne by done. apply Hst.
Qed.

Lemma keeps_set_token_account (init : list Recipient) (i : nat) (a : Pubkey) :
  keeps (tracked init) (set_token_account i a).
Proof.
  intros s Hs. unfold set_token_account.
  destruct (recipients s !! i) as [r|] eqn:Hr; [|exact Hs].
  apply (tracked_ext init s); [|reflexivity|exact Hs]. cbn.
  change (status <$> <[i:=with_token_account a r]> (recipients s)
          = status <$> recipients s).
  rewrite list_fmap_insert. cbn. apply list_insert_id.
  rewrite list_lookup_fmap, Hr. reflexivity.
Qed.

Lemma keeps_world {A} (init : list Recipient) (f : Manager → A) :
  keeps (tracked init) (λ s, (Done (f s), next_tick s)).
Proof. intros s Hs. apply (tracked_ext init s); [reflexivity|reflexivity|exact Hs]. Qed.

End Tracking.

(** Steps through an operation built from the primitives. *)
Ltac keep_step init :=
  first
    [ apply keeps_ret | apply keeps_raise | apply keeps_gets | apply keeps_or_raise
    | apply keeps_recipient_at | apply keeps_set_status | apply keeps_set_token_account
    | apply (keeps_world init)
    | apply keeps_log; cbn; tauto
    | apply keeps_modify_counters; intros ?; split; reflexivity
    | apply keeps_try
    | apply keeps_py_sleep
    | apply keeps_for_each; intros ?
    | apply keeps_for_each_paused; [|intros ?]
    | apply keeps_bind; [|intros ?]
    | case_match ].

Section TrackedRun.
Context `{Platform} (w : World) (cfg : AirdropConfig) (init : list Recipient).

Lemma keeps_save_progress : keeps (tracked init) (save_progress w cfg).
Proof.
  unfold save_progress, now, fate_of_write, open_for_write, json_dump.
  repeat keep_step init.
Qed.

Lemma keeps_load_progress : keeps (tracked init) (load_progress cfg).
Proof.
  unfold load_progress, restore_statuses. repeat keep_step init.
Qed.

Lemma keeps_build_transfer_tx (batch : list nat) :
  keeps (tracked init) (build_transfer_tx cfg batch).
Proof.
  induction batch as [|i batch IH]; cbn [build_transfer_tx]; [apply keeps_ret|].
  apply keeps_bind; [apply keeps_recipient_at|]. intros r.
  destruct (pubkey r), (token_account r);
    repeat first [exact IH | keep_step init].
Qed.

Lemma keeps_single_attempts (i : nat) (r : Recipient) (dest : Pubkey) (n a : nat) :
  keeps (tracked init) (single_attempts w cfg i r dest a n).
Proof.
  revert a. induction n as [|n IH]; intros a; cbn [single_attempts].
  - repeat keep_step init.
  - apply keeps_bind; [|intros []; [apply keeps_ret|apply IH]].
    unfold single_attempt, get_latest_blockhash, rpc_call, sent.
    repeat keep_step init.
Qed.

Lemma keeps_process_batch (batch : list nat) :
  keeps (tracked init) (process_batch w cfg batch).
Proof.
  unfold process_batch, _execute_transfer_batch, fallback, _execute_single_transfer,
    get_latest_blockhash, rpc_call, sent, add_successful, add_failed.
  repeat first
    [ apply keeps_save_progress | apply keeps_build_transfer_tx
    | apply keeps_single_attempts | keep_step init ].
Qed.

Lemma keeps_executor :
  keeps (tracked init) (execute_token_transfers_with_resume w cfg).
Proof.
  unfold execute_token_transfers_with_resume, get_pending_recipients,
    dry_run_marking, add_successful, success_rate.
  repeat first
    [ apply keeps_load_progress | apply keeps_process_batch | keep_step init ].
Qed.

Lemma keeps_check_accounts (idx : list nat) :
  keeps (tracked init) (check_accounts w cfg idx).
Proof.
  induction idx as [|i idx IH]; cbn [check_accounts]; [apply keeps_ret|].
  apply keeps_bind; [apply keeps_recipient_at|]. intros r.
  unfold add_skipped, rate_limit.
  destruct (pubkey r);
    repeat first
      [ exact IH
      | apply (keeps_quiet init (λ _, False)); [tauto|apply account_missing_quiet]
      | keep_step init ].
Qed.

Lemma keeps_provisioning :
  keeps (tracked init) (check_and_create_token_accounts w cfg).
Proof.
  unfold check_and_create_token_accounts.
  repeat first
    [ apply keeps_check_accounts
    | apply (keeps_quiet init is_create);
        [intros [] ?; cbn in *; tauto|apply _create_token_accounts_batch_quiet]
    | keep_step init ].
Qed.

Lemma keeps_validate : keeps (tracked init) (validate_configuration w cfg).
Proof.
  apply (keeps_quiet init (λ _, False)); [tauto|apply validate_configuration_quiet].
Qed.

End TrackedRun.

(** ** The whole run *)

Section Run.
Context `{Platform} (w : World) (cfg : AirdropConfig).

(** [run_airdrop] is the pre-flight followed by the executor; every
    exception ends the run with a failure report. *)
Lemma run_airdrop_run (csv : csv_file) (s : Manager) :
  run_airdrop w cfg csv s =
    match preflight w cfg csv s with
    | (Done true, sp) =>
        match execute_token_transfers_with_resume w cfg sp with
        | (Done b, s') => (Done b, s')
        | (Raised, s') => (Done false, s')
        end
    | (_, sp) => (Done false, sp)
    end.
Proof.
  unfold run_airdrop, preflight.
  generalize (load_recipients cfg csv) (validate_configuration w cfg)
    (check_and_create_token_accounts w cfg)
    (execute_token_transfers_with_resume w cfg).
  intros m1 m2 m3 m4. unfold try_, bind, ret.
  destruct (m1 s) as [[[]|] s1]; cbn; try reflexivity.
  destruct (m2 s1) as [[[]|] s2]; cbn; try reflexivity.
  destruct (m3 s2) as [[[]|] s3]; cbn; try reflexivity.
  destruct (m4 s3) as [[[]|] s4]; reflexivity.
Qed.

(** The validator leaves only pending recipients with a public key, and
    an empty journal. *)
Lemma load_recipients_fresh (csv : csv_file) (disk : file) :
  let s0 := state_of (load_recipients cfg csv (new_manager disk)) in
  Forall (λ r, status r = "pending" ∧ is_Some (pubkey r)) (recipients s0)
  ∧ journal s0 = [].
Proof.
  destruct csv as [| |rows].
  1,2: cbn; split; [constructor|reflexivity].
  destruct (load_recipients_rows cfg rows (new_manager disk)) as (Hrun & Hshape).
  unfold state_of. rewrite Hrun. cbn. split; [|reflexivity]. exact Hshape.
Qed.

(** The state in which the transfer step is reached, or the run ends. *)
Lemma preflight_spec (csv : csv_file) (disk : file) :
  ∃ o sp, preflight w cfg csv (new_manager disk) = (o, sp)
    ∧ Forall is_create (journal sp)
    ∧ Forall (λ r, status r = "pending") (recipients sp)
    ∧ (o = Done true → Forall (λ r, has_keys r = true) (recipients sp)).
Proof.
  destruct (load_recipients_fresh csv disk) as [Hfresh Hj0].
  unfold preflight. unfold bind at 1.
  destruct (load_recipients cfg csv (new_manager disk)) as [o0 s0] eqn:Hload.
  cbn in Hfresh, Hj0.
  assert (Hpending : Forall (λ r, status r = "pending") (recipients s0))
    by (eapply Forall_impl; [exact Hfresh|]; cbn; tauto).
  assert (Hempty : Forall is_create (journal s0)) by (rewrite Hj0; constructor).
  destruct o0 as [[]|]; cbn [negb].
  2,3: eexists _, s0; (split; [reflexivity|]); repeat (split; [assumption|]); discriminate.
  destruct (quiet_nothing (validate_configuration w cfg) s0
              (validate_configuration_quiet w cfg)) as [t Ht].
  unfold bind at 1.
  destruct (validate_configuration w cfg s0) as [o1 s1] eqn:Hval. cbn in Ht. subst s1.
  destruct o1 as [[]|]; cbn [negb].
  2,3: eexists _, _; (split; [reflexivity|]); cbn; repeat (split; [assumption|]);
       discriminate.
  destruct (check_and_create_spec w cfg (advance [] t s0))
    as (o & sp & new & Hrun & Hj & Hnew & _ & _ & _ & _ & Hprov & Hkeys).
  { cbn. eapply Forall_impl; [exact Hfresh|]. cbn. tauto. }
  exists o, sp. split; [exact Hrun|].
  split; [rewrite Hj; apply Forall_app; split; [exact Hnew|exact Hempty]|].
  split; [|exact Hkeys].
  apply Forall_forall. intros r' Hr'. apply list_elem_of_lookup in Hr' as [i Hi].
  destruct (Forall2_lookup_r _ _ _ _ _ Hprov Hi) as (r & Hr & Hrel).
  apply provisioned_keeps in Hrel as (-> & _).
  rewrite Forall_forall in Hpending. eapply Hpending, list_elem_of_lookup_2, Hr.
Qed.

(** What the journal holds at the end of the transfer step entered from
    [sp]. *)
Lemma transfer_step_journal (sp : Manager) :
  ∃ o s' s1 new0 new,
    execute_token_transfers_with_resume w cfg sp = (o, s')
    ∧ journal s' = new ++ new0 ++ journal sp
    ∧ (∀ e, e ∈ new0 → ∃ i old v, e = StatusSet i old v
                          ∧ status_at (recipients sp) i = Some old)
    ∧ statics s1 = statics sp
    ∧ Forall (transfer_event_ok cfg (statics s1) (pending_from 0 (recipients s1))) new.
Proof.
  destruct (load_progress_frame cfg sp) as (b & s1 & new0 & Hload & _ & _ & Hj0 & _ & Hold & Hst).
  destruct (executor_spec w cfg sp) as (o & s' & new & Hrun & Hstep & _).
  unfold state_of in Hstep. rewrite Hload in Hstep. cbn in Hstep.
  destruct Hstep as (Hj & _ & _ & _ & Hok & _).
  exists o, s', s1, new0, new. split; [exact Hrun|].
  split; [rewrite Hj, Hj0; reflexivity|]. auto.
Qed.

(** From the validated recipient list on, the journal of a run is the
    history of the statuses. *)
Lemma run_tracked (csv : csv_file) (disk : file) :
  let s0 := state_of (load_recipients cfg csv (new_manager disk)) in
  tracked (recipients s0) (state_of (run_airdrop w cfg csv (new_manager disk))).
Proof.
  intros s0. destruct (load_recipients_fresh csv disk) as [_ Hj0]. fold s0 in Hj0.
  assert (H0 : tracked (recipients s0) s0).
  { unfold tracked. rewrite Hj0. cbn. auto. }
  assert (Hk : ∀ init (loaded : bool),
            keeps (tracked init)
              (if negb loaded then ret false
               else bind (validate_configuration w cfg)
                      (λ valid, if negb valid then ret false
                                else check_and_create_token_accounts w cfg))).
  { intros init [|]; cbn [negb]; [|apply keeps_ret].
    apply keeps_bind; [apply keeps_validate|].
    intros []; cbn [negb]; [apply keeps_provisioning|apply keeps_ret]. }
  assert (Hsp : tracked (recipients s0) (snd (preflight w cfg csv (new_manager disk)))).
  { unfold preflight. unfold bind at 1. unfold s0, state_of in H0 |- *.
    destruct (load_recipients cfg csv (new_manager disk)) as [[loaded|] s0'];
      cbn [snd] in H0 |- *; [|exact H0].
    apply Hk, H0. }
  unfold state_of. rewrite run_airdrop_run.
  destruct (preflight w cfg csv (new_manager disk)) as [[[]|] sp]; cbn in Hsp |- *;
    [|exact Hsp|exact Hsp].
  pose proof (keeps_executor w cfg (recipients s0) sp Hsp) as Hs'.
  destruct (execute_token_transfers_with_resume w cfg sp) as [[b|] s']; exact Hs'.
Qed.

End Run.

(** C7. In a run, every recipient is [pending] when the validator has
    loaded it. From then on the journal is the history of the statuses:
    each status write records the status it replaces, and the final status
    of every recipient is the one the journal gives. And every status write
    of the run (by provisioning, the restore of a checkpoint, the batch
    transfer, the per-item fallback or the dry-run marking; a save writes
    none) that finds a status [success], [failed] or [skipped] writes that
    same value: a terminal status is never changed. *)
Theorem status_never_reverts `{Platform} (w : World) (cfg : AirdropConfig)
    (csv : csv_file) (disk : file) :
  Forall (λ r, status r = "pending")
    (recipients (state_of (load_recipients cfg csv (new_manager disk))))
  ∧ tracked (recipients (state_of (load_recipients cfg csv (new_manager disk))))
      (state_of (run_airdrop w cfg csv (new_manager disk)))
  ∧ Forall status_write_ok
      (journal (state_of (run_airdrop w cfg csv (new_manager disk)))).
Proof.
  destruct (load_recipients_fresh cfg csv disk) as [Hfresh Hj0].
  split; [eapply Forall_impl; [exact Hfresh|]; cbn; tauto|].
  split; [apply run_tracked|]. unfold state_of at 1.
  rewrite run_airdrop_run.
  destruct (preflight_spec w cfg csv disk) as (o & sp & Hpre & Hjp & Hpending & _).
  rewrite Hpre.
  assert (Hsp : Forall status_write_ok (journal sp)).
  { eapply Forall_impl; [exact Hjp|]. intros e He. destruct e; cbn in *; tauto. }
  destruct o as [[]|]; [|exact Hsp|exact Hsp].
  destruct (transfer_step_journal w cfg sp)
    as (o' & s' & s1 & new0 & new & Hrun & Hj & Hold & _ & Hok).
  rewrite Hrun.
  assert (Hs' : Forall status_write_ok (journal s')).
  { rewrite Hj. apply Forall_app. split; [|apply Forall_app; split; [|exact Hsp]].
    - eapply Forall_impl; [exact Hok|]. intros e He.
      destruct e; cbn in *; try tauto.
      destruct He as (_ & [-> | ->] & _); [discriminate|reflexivity].
    - apply Forall_forall. intros e He.
      destruct (Hold e He) as (i & old & v & -> & Hst). cbn.
      unfold status_at in Hst.
      destruct (recipients sp !! i) as [r|] eqn:Hr; [|discriminate].
      rewrite Forall_forall in Hpending. cbn in Hst.
      rewrite (Hpending r (list_elem_of_lookup_2 _ _ _ Hr)) in Hst.
      injection Hst as <-. discriminate. }
  destruct o'; exact Hs'.
Qed.

(** C10. When the pre-flight steps of a run (validation of the rows, the
    funding check, account provisioning) succeed, every recipient that
    reaches the transfer step has a public key and a token account; and in
    the journal of any run no guard branch for a missing key was taken
    (neither in provisioning, nor in batch construction, nor in the single
    transfer) and every batch transaction submitted holds exactly one
    instruction for each member of its batch, in order. *)
Theorem transfer_step_has_keys `{Platform} (w : World) (cfg : AirdropConfig)
    (csv : csv_file) (disk : file) :
  (∀ sp, preflight w cfg csv (new_manager disk) = (Done true, sp) →
         Forall (λ r, is_Some (pubkey r) ∧ is_Some (token_account r)) (recipients sp))
  ∧ Forall no_transfer_dropped
      (journal (state_of (run_airdrop w cfg csv (new_manager disk)))).
Proof.
  destruct (preflight_spec w cfg csv disk) as (o & sp & Hpre & Hjp & _ & Hkeys).
  split.
  { intros sp' Hpre'. rewrite Hpre in Hpre'. injection Hpre' as -> <-.
    eapply Forall_impl; [exact (Hkeys eq_refl)|]. intros r. unfold has_keys.
    destruct (pubkey r), (token_account r); try discriminate. eauto. }
  rewrite run_airdrop_run, Hpre.
  assert (Hsp : Forall no_transfer_dropped (journal sp)).
  { eapply Forall_impl; [exact Hjp|]. intros e He. destruct e; cbn in *; tauto. }
  destruct o as [[]|]; [|exact Hsp|exact Hsp].
  specialize (Hkeys eq_refl).
  destruct (transfer_step_journal w cfg sp)
    as (o' & s' & s1 & new0 & new & Hrun & Hj & Hold & Hst & Hok).
  rewrite Hrun.
  assert (Hkeyed : ∀ i, i ∈ pending_from 0 (recipients s1) → keyed (statics s1) i = true).
  { intros i Hi. apply pending_valid in Hi as [r1 Hr1].
    rewrite Hst. unfold statics. rewrite keyed_static. unfold keyed.
    assert (Hlen : length (recipients s1) = length (recipients sp)).
    { rewrite <- (length_map static (recipients s1)),
              <- (length_map static (recipients sp)).
      unfold statics in Hst. rewrite Hst. reflexivity. }
    destruct (recipients sp !! i) as [r|] eqn:Hr.
    - rewrite Forall_forall in Hkeys. apply Hkeys. eapply list_elem_of_lookup_2, Hr.
    - apply lookup_ge_None in Hr. apply lookup_lt_Some in Hr1. lia. }
  assert (Hs' : Forall no_transfer_dropped (journal s')).
  { rewrite Hj. apply Forall_app. split; [|apply Forall_app; split; [|exact Hsp]].
    - eapply Forall_impl; [exact Hok|]. intros e He.
      destruct e; cbn in *; try tauto.
      + destruct He as (Hsub & Htx & _). rewrite Htx.
        apply filter_all. intros i Hi. apply Hkeyed, Hsub, Hi.
      + destruct He as [Hi Hk]. rewrite Hkeyed in Hk by exact Hi. discriminate.
      + destruct He as [Hi Hk]. rewrite Hkeyed in Hk by exact Hi. discriminate.
    - apply Forall_forall. intros e He.
      destruct (Hold e He) as (i & old & v & -> & _). exact I. }
  destruct o'; exact Hs'.
Qed.

Lemma transfer_step_has_keys_witness :
  Forall (λ r, is_Some (pubkey r) ∧ is_Some (token_account r))
    (recipients (state_of (preflight (H := Reference.platform) Examples.calm
                             (Examples.config false) (CsvRows Examples.rows)
                             (new_manager Missing)))).
Proof.
  apply (transfer_step_has_keys (H := Reference.platform) Examples.calm
           (Examples.config false) (CsvRows Examples.rows) Missing).
  assert (Hok : result_of (preflight (H := Reference.platform) Examples.calm
                             (Examples.config false) (CsvRows Examples.rows)
                             (new_manager Missing)) = Done true)
    by (vm_compute; reflexivity).
  destruct (preflight _ _ _ _) as [o sp]. cbn in Hok. rewrite Hok. reflexivity.
Defined.

(** * Further properties of the engine *)

(** ** The run as a whole *)




(** ** Funding validation *)


(** ** Amounts that cannot be converted *)

Section Unconvertible.
Context `{Platform} (w : World) (cfg : AirdropConfig).




End Unconvertible.




(** ** The retry bound *)

Section NoRetries.
Context `{Platform} (w : World) (cfg : AirdropConfig).



End NoRetries.



(** ** What the executor leaves behind *)






(** ** Counters and statuses *)

Section FreshRun.
Context `{Platform} (w : World) (cfg : AirdropConfig).



End FreshRun.




(** ** The checkpoint, written and read back *)

Section RoundTrip.
Context `{Platform} (w : World) (cfg : AirdropConfig).




End RoundTrip.







(** ** The checkpoint at the end of the transfer step *)

Section FinalCheckpoint.
Context `{Platform} (w : World) (cfg : AirdropConfig).







End FinalCheckpoint.





(** ** Confirmed payments *)

Section Payments.
Context `{Platform} (w : World) (cfg : AirdropConfig).

















End Payments.


(** ** Account provisioning *)

Section Provisioning.
Context `{Platform} (w : World) (cfg : AirdropConfig).






Lemma count_keyless_app (a b : list Recipient) :
  length (filter (λ r, keyless r = true) (a ++ b))
  = (length (filter (λ r, keyless r = true) a)
     + length (filter (λ r, keyless r = true) b))%nat.
Proof. rewrite filter_app, length_app. reflexivity. Qed.


End Provisioning.



(** ** Settings of zero *)

Section ZeroSettings.
Context `{Platform} (w : World) (cfg : AirdropConfig).



End ZeroSettings.



(** ** The executor without resume *)

Section LegacyExecutor.
Context `{Platform} (w : World) (cfg : AirdropConfig).




End LegacyExecutor.



(** The edges of [execute_token_transfers]. In dry-run mode it sets
    the success counter to the number of recipients and returns [True]
    without touching any status, the journal, the tick or the file (the
    resume form marks each pending recipient instead). In live mode it
    raises before any transfer when the batch size is zero, and it raises
    after an empty loop when there is no recipient (the success rate
    divides by their number). *)
Lemma execute_token_transfers_edges `{Platform} (w : World)
    (cfg : AirdropConfig) (s : Manager) :
  (dry_run cfg = true →
   execute_token_transfers w cfg s
   = (Done true,
      set_counters (Z.of_nat (length (recipients s))) (failed_transfers s)
        (skipped_transfers s) s))
  ∧ (dry_run cfg = false → batch_size cfg = 0 →
     execute_token_transfers w cfg s = (Raised, s))
  ∧ (dry_run cfg = false → recipients s = [] →
     execute_token_transfers w cfg s = (Raised, s)).
Proof.
  unfold execute_token_transfers. split; [|split].
  - intros ->. reflexivity.
  - intros -> ->. reflexivity.
  - intros -> Hnil. unfold bind at 1, gets at 1. rewrite Hnil. cbn [length seq].
    destruct (batch_size cfg =? 0); [reflexivity|].
    assert (Hbs : batches (batch_size cfg) (@nil nat) = [])
      by (unfold batches; destruct (batch_size cfg <=? 0); reflexivity).
    rewrite Hbs. cbn [for_each_paused].
    rewrite (bind_done _ _ s () s eq_refl), report_run.
    unfold live_report. rewrite Hnil. reflexivity.
Qed.

(** ** The final report *)

Section ReportFacts.
Context `{Platform} (cfg : AirdropConfig).



End ReportFacts.





(** ** Configuration from the environment *)


(** ** The holdings check *)

Section HoldingsFacts.
Context `{Platform} (w : World).

Import Holdings.






End HoldingsFacts.






(** The summary is produced for one checked wallet. *)
Lemma holdings_report_counts_example :
  match (Holdings.generate_report true
           (Holdings.check_holdings (H := Reference.platform) Examples.calm
              [ {| Holdings.ar_sol_wallet := Some Examples.alice;
                   Holdings.ar_airdropped_tokens := Examples.amount;
                   Holdings.ar_status := Some "success" |} ] 0).1.1).2 with
  | Some s => Holdings.full_holders s = 1%nat
  | None => False
  end.
Proof. vm_compute. reflexivity. Qed.

(** ** The distribution table *)

Section DistributionFacts.
Context `{Platform}.

Import Distribution.











End DistributionFacts.

Section DistributionTheorems.
Context `{Platform}.

Import Distribution.



End DistributionTheorems.





(** ** Creation transactions *)

Section Creation.
Context `{Platform} (w : World) (cfg : AirdropConfig).
Context (rs : list Recipient) (P : event → Prop).


Lemma emits_raise {A} (Q : A → Prop) : emits rs P Q (raise (A := A)).
Proof.
  intros s _. exists [], (tick s). rewrite advance_nil.
  split; [reflexivity|]. split; [constructor|]. discriminate.
Qed.



Lemma emits_weaken {A} (Q Q' : A → Prop) (m : M A) :
  (∀ a, Q a → Q' a) → emits rs P Q m → emits rs P Q' m.
Proof.
  intros Himp Hm s Hs. destruct (Hm s Hs) as (new & t & Hs1 & Hok & Hq).
  exists new, t. split; [exact Hs1|]. split; [exact Hok|]. auto.
Qed.







End Creation.

Section CreationBatch.
Context `{Platform} (w : World) (cfg : AirdropConfig).





End CreationBatch.


(** ** A batch delay that [time.sleep] rejects *)


